(** * Anime transcoding pipeline: job-configuration core

    A shallow embedding of the job submitter of the pipeline
    ([src/job_submitter/abr_ladder.py], [job_builder.py],
    [idempotency.py]) together with the parts of [src/shared/models.py]
    and [src/shared/exceptions.py] it relies on, followed by the
    properties proved about it.

    Conventions.
    - A Python [str] is a Rocq [string]: the sequence of its bytes.  All the
      strings the pipeline manipulates itself (enum values, table keys,
      separators) are ASCII; [lower] acts on the ASCII letters.
    - A Python [int] is a [Z].
    - A [dict] built or read by the code is an insertion-ordered association
      list with Python's assignment semantics ([Py.setitem]); the DynamoDB
      table is a [gmap] from token to item.
    - Code that can raise returns a [result]; the exception is kept as a
      value of [exn]. *)

From Stdlib Require Import ZArith List String Ascii Bool Lia Permutation Sorted.
From stdpp Require Import base option list strings pretty gmap.
Import ListNotations.

Local Open Scope string_scope.
Local Open Scope list_scope.
Local Open Scope Z_scope.

(** ** Exceptions and fallible computations *)

Inductive exn : Type :=
  | ValueError (msg : string)
  | IndexError (msg : string)
  | ClientError (code : string)
  | IdempotencyError (msg : string) (details : list (string * string))
  | OtherException (msg : string).

Inductive result (A : Type) : Type :=
  | Ok (a : A)
  | Raise (e : exn).

Arguments Ok {A} a.
Arguments Raise {A} e.

Definition bind {A B : Type} (m : result A) (k : A -> result B) : result B :=
  match m with
  | Ok a => k a
  | Raise e => Raise e
  end.

Notation "'let*' x ':=' m 'in' k" := (bind m (fun x => k))
  (at level 10, x name, m at level 100, k at level 200).

(** A [for] loop whose body may raise: the accumulator is threaded through
    the elements from left to right and the first exception aborts. *)
Fixpoint foldM {A B : Type} (f : B -> A -> result B) (b : B) (l : list A)
  : result B :=
  match l with
  | [] => Ok b
  | x :: l' => let* b' := f b x in foldM f b' l'
  end.

(** A list comprehension whose element expression may raise. *)
Fixpoint mapM {A B : Type} (f : A -> result B) (l : list A) : result (list B) :=
  match l with
  | [] => Ok []
  | x :: l' => let* y := f x in let* ys := mapM f l' in Ok (y :: ys)
  end.

Definition is_ok {A : Type} (m : result A) : bool :=
  match m with Ok _ => true | Raise _ => false end.

(** ** The Python built-ins the code uses *)

Module Py.

Definition is_upper (c : ascii) : bool :=
  let n := nat_of_ascii c in (65 <=? n)%nat && (n <=? 90)%nat.

Definition lower_char (c : ascii) : ascii :=
  if is_upper c then ascii_of_nat (nat_of_ascii c + 32) else c.

(** [s.lower()] on ASCII strings, where it maps the letters [A] to [Z] to
    [a] to [z] and nothing else.  (Outside ASCII [str.lower] follows the
    Unicode tables; statements that depend on it are made for ASCII
    strings.) *)
Fixpoint lower (s : string) : string :=
  match s with
  | EmptyString => EmptyString
  | String c s' => String (lower_char c) (lower s')
  end.

(** [s.split(sep)] for a one-character separator: never empty. *)
Fixpoint split (sep : ascii) (s : string) : list string :=
  match s with
  | EmptyString => [EmptyString]
  | String c s' =>
      if Ascii.eqb c sep then EmptyString :: split sep s'
      else match split sep s' with
           | [] => [String c EmptyString]
           | w :: ws => String c w :: ws
           end
  end.

(** [l[i]] *)
Definition getitem {A : Type} (l : list A) (i : nat) : result A :=
  match nth_error l i with
  | Some x => Ok x
  | None => Raise (IndexError "list index out of range")
  end.

(** [s.rsplit(sep, 1)[0]]: what precedes the last separator, the whole
    string when there is none. *)
Fixpoint rsplit1_head (sep : ascii) (s : string) : string :=
  match s with
  | EmptyString => EmptyString
  | String c s' =>
      if Ascii.eqb c sep then
        if existsb (Ascii.eqb sep) (list_ascii_of_string s')
        then String c (rsplit1_head sep s')
        else EmptyString
      else
        if existsb (Ascii.eqb sep) (list_ascii_of_string s')
        then String c (rsplit1_head sep s')
        else String c s'
  end.

(** [sep.join(l)] *)
Fixpoint join (sep : string) (l : list string) : string :=
  match l with
  | [] => EmptyString
  | [x] => x
  | x :: l' => x +:+ sep +:+ join sep l'
  end.

(** [str(n)] for an [int] of at most 4300 digits; beyond that CPython (from
    3.11 on, with its default limit) raises a [ValueError] instead. *)
Definition str_int (n : Z) : string := pretty n.

Definition is_digit (c : ascii) : bool :=
  let n := nat_of_ascii c in (48 <=? n)%nat && (n <=? 57)%nat.

Fixpoint digits_value (acc : Z) (s : string) : option Z :=
  match s with
  | EmptyString => Some acc
  | String c s' =>
      if is_digit c
      then digits_value (10 * acc + (Z.of_nat (nat_of_ascii c) - 48)) s'
      else None
  end.

(** [int(s)] on the strings the models admit (a non-empty run of decimal
    digits, as the field patterns require); anything else is a
    [ValueError].  The digits are the ASCII digits, and the value is
    Python's for runs of at most 4300 of them (CPython's default limit for
    the conversion). *)
Definition int (s : string) : result Z :=
  match s with
  | EmptyString => Raise (ValueError ("invalid literal for int() with base 10: '" +:+ s +:+ "'"))
  | _ =>
      match digits_value 0 s with
      | Some n => Ok n
      | None => Raise (ValueError ("invalid literal for int() with base 10: '" +:+ s +:+ "'"))
      end
  end.

(** [repr(s)] for a string without quotes or escapes, and [str(l)] for a
    list of such strings: ['a', 'b']. *)
Definition repr_str (s : string) : string := "'" +:+ s +:+ "'".

Definition str_list (l : list string) : string :=
  "[" +:+ join ", " (map repr_str l) +:+ "]".

(** Stable sorting by a key, as [list.sort(key=...)] and [sorted] do:
    elements with equal keys keep their relative order. *)
Section Sort.
Context {A K : Type} (lt : K -> K -> bool).

Fixpoint insert_sorted (x : K * A) (l : list (K * A)) : list (K * A) :=
  match l with
  | [] => [x]
  | y :: l' =>
      if lt (fst y) (fst x) then y :: insert_sorted x l'
      else x :: y :: l'
  end.

Definition sort_pairs (l : list (K * A)) : list (K * A) :=
  fold_right insert_sorted [] l.
End Sort.

(** [sorted(l)] on strings. *)
Definition sorted_str (l : list string) : list string :=
  map snd (sort_pairs String.ltb (map (fun s => (s, s)) l)).

(** Dictionaries: insertion-ordered association lists. *)
Section Dict.
Context {V : Type}.

Fixpoint get (d : list (string * V)) (k : string) : option V :=
  match d with
  | [] => None
  | (k', v) :: d' => if String.eqb k' k then Some v else get d' k
  end.

(** [d.get(k, default)] *)
Definition get_default (d : list (string * V)) (k : string) (default : V) : V :=
  match get d k with Some v => v | None => default end.

(** [k in d] *)
Definition contains (d : list (string * V)) (k : string) : bool :=
  match get d k with Some _ => true | None => false end.

(** [d[k] = v]: an existing key keeps its place and takes the new
    value, a new key goes last. *)
Fixpoint setitem (d : list (string * V)) (k : string) (v : V)
  : list (string * V) :=
  match d with
  | [] => [(k, v)]
  | (k', v') :: d' =>
      if String.eqb k' k then (k', v) :: d' else (k', v') :: setitem d' k v
  end.

Definition keys (d : list (string * V)) : list string := map fst d.
End Dict.

End Py.

(** ** [shared/models.py] *)

Inductive VideoCodec : Type := H264 | H265.

Definition VideoCodec_value (c : VideoCodec) : string :=
  match c with H264 => "h264" | H265 => "h265" end.

Definition VideoCodec_eqb (a b : VideoCodec) : bool :=
  match a, b with
  | H264, H264 | H265, H265 => true
  | _, _ => false
  end.

Record ABRVariant : Type := mkABRVariant {
  resolution : string;
  bitrate_kbps : Z;
  codec : VideoCodec;
  profile : string;
  level : string
}.

(** [ABRVariant.width]: [int(self.resolution.split("x")[0])] *)
Definition width (v : ABRVariant) : result Z :=
  let* part := Py.getitem (Py.split "x" (resolution v)) 0 in Py.int part.

(** [ABRVariant.height]: [int(self.resolution.split("x")[1])] *)
Definition height (v : ABRVariant) : result Z :=
  let* part := Py.getitem (Py.split "x" (resolution v)) 1 in Py.int part.

(** [ABRVariant.name]: [f"{self.codec.value}_{self.height}p"] *)
Definition name (v : ABRVariant) : result string :=
  let* h := height v in
  Ok (VideoCodec_value (codec v) +:+ "_" +:+ Py.str_int h +:+ "p").

(** [AudioLanguage], [SubtitleLanguage] and [SubtitleFormat] are [str]
    enumerations: a member is its value, and validation admits exactly the
    values listed.  A track carries the value. *)
Inductive AudioLanguage : Type :=
  | AL_JAPANESE | AL_ENGLISH | AL_SPANISH | AL_PORTUGUESE | AL_FRENCH
  | AL_GERMAN | AL_KOREAN | AL_CHINESE | AL_ITALIAN | AL_RUSSIAN.

Definition AudioLanguage_value (l : AudioLanguage) : string :=
  match l with
  | AL_JAPANESE => "ja" | AL_ENGLISH => "en" | AL_SPANISH => "es"
  | AL_PORTUGUESE => "pt" | AL_FRENCH => "fr" | AL_GERMAN => "de"
  | AL_KOREAN => "ko" | AL_CHINESE => "zh" | AL_ITALIAN => "it"
  | AL_RUSSIAN => "ru"
  end.

Definition AudioLanguage_members : list AudioLanguage :=
  [ AL_JAPANESE; AL_ENGLISH; AL_SPANISH; AL_PORTUGUESE; AL_FRENCH;
    AL_GERMAN; AL_KOREAN; AL_CHINESE; AL_ITALIAN; AL_RUSSIAN ].

Inductive SubtitleLanguage : Type :=
  | SL_ENGLISH | SL_SPANISH_LATAM | SL_SPANISH_SPAIN | SL_PORTUGUESE_BRAZIL
  | SL_PORTUGUESE_PORTUGAL | SL_FRENCH | SL_GERMAN | SL_ITALIAN | SL_ARABIC
  | SL_RUSSIAN | SL_CHINESE_SIMPLIFIED | SL_CHINESE_TRADITIONAL | SL_KOREAN.

Definition SubtitleLanguage_value (l : SubtitleLanguage) : string :=
  match l with
  | SL_ENGLISH => "en" | SL_SPANISH_LATAM => "es-419"
  | SL_SPANISH_SPAIN => "es-ES" | SL_PORTUGUESE_BRAZIL => "pt-BR"
  | SL_PORTUGUESE_PORTUGAL => "pt-PT" | SL_FRENCH => "fr" | SL_GERMAN => "de"
  | SL_ITALIAN => "it" | SL_ARABIC => "ar" | SL_RUSSIAN => "ru"
  | SL_CHINESE_SIMPLIFIED => "zh-Hans" | SL_CHINESE_TRADITIONAL => "zh-Hant"
  | SL_KOREAN => "ko"
  end.

Definition SubtitleLanguage_members : list SubtitleLanguage :=
  [ SL_ENGLISH; SL_SPANISH_LATAM; SL_SPANISH_SPAIN; SL_PORTUGUESE_BRAZIL;
    SL_PORTUGUESE_PORTUGAL; SL_FRENCH; SL_GERMAN; SL_ITALIAN; SL_ARABIC;
    SL_RUSSIAN; SL_CHINESE_SIMPLIFIED; SL_CHINESE_TRADITIONAL; SL_KOREAN ].

Inductive SubtitleFormat : Type := SF_WEBVTT | SF_SRT | SF_TTML.

Definition SubtitleFormat_value (f : SubtitleFormat) : string :=
  match f with SF_WEBVTT => "WebVTT" | SF_SRT => "SRT" | SF_TTML => "TTML" end.

Definition SubtitleFormat_members : list SubtitleFormat :=
  [ SF_WEBVTT; SF_SRT; SF_TTML ].

Record AudioTrack : Type := mkAudioTrack {
  a_language : string;
  a_label : string;
  a_is_default : bool;
  a_channels : Z;
  a_track_index : Z
}.

Record SubtitleTrack : Type := mkSubtitleTrack {
  s_language : string;
  s_label : string;
  s_file_path : string;
  s_is_default : bool;
  s_is_forced : bool;
  s_format : string
}.

(** The fields of [MezzanineInfo] and [TranscodeManifest] that are not
    floating-point numbers or timestamps. *)
Record MezzanineInfo : Type := mkMezzanineInfo {
  file_path : string;
  checksum_md5 : string;
  checksum_xxhash : option string;
  file_size_bytes : Z;
  video_codec : string;
  audio_codec : string;
  resolution_width : Z;
  resolution_height : Z;
  mezz_bitrate_kbps : Z
}.

Record TranscodeManifest : Type := mkTranscodeManifest {
  manifest_version : string;
  manifest_id : string;
  mezzanine : MezzanineInfo;
  audio_tracks : list AudioTrack;
  subtitle_tracks : list SubtitleTrack;
  priority : Z;
  callback_url : option string
}.

Record TranscodeJobRequest : Type := mkTranscodeJobRequest {
  manifest : TranscodeManifest;
  input_s3_uri : string;
  output_s3_prefix : string;
  abr_variants : list ABRVariant;
  output_hls : bool;
  output_dash : bool;
  idempotency_token : string
}.

(** What validation of the models guarantees, as far as the code below
    depends on it: enumeration membership, the [resolution] pattern,
    non-empty track and variant lists, a single default audio track. *)
Definition is_member {A : Type} (value : A -> string) (members : list A)
    (s : string) : bool :=
  existsb (fun m => String.eqb (value m) s) members.

Definition all_digits (s : string) : bool :=
  match s with
  | EmptyString => false
  | _ => forallb Py.is_digit (list_ascii_of_string s)
  end.

Definition valid_resolution (s : string) : bool :=
  match Py.split "x" s with
  | [w; h] => all_digits w && all_digits h
  | _ => false
  end.

Definition valid_variant (v : ABRVariant) : bool :=
  valid_resolution (resolution v) && (0 <? bitrate_kbps v) && (bitrate_kbps v <=? 50000).

Definition valid_audio_track (t : AudioTrack) : bool :=
  is_member AudioLanguage_value AudioLanguage_members (a_language t)
  && (1 <=? a_channels t) && (a_channels t <=? 8) && (1 <=? a_track_index t).

Definition valid_subtitle_track (t : SubtitleTrack) : bool :=
  is_member SubtitleLanguage_value SubtitleLanguage_members (s_language t)
  && is_member SubtitleFormat_value SubtitleFormat_members (s_format t).

Definition valid_manifest (m : TranscodeManifest) : bool :=
  match audio_tracks m with [] => false | _ => true end
  && forallb valid_audio_track (audio_tracks m)
  && (length (List.filter a_is_default (audio_tracks m)) =? 1)%nat
  && forallb valid_subtitle_track (subtitle_tracks m)
  && (0 <=? priority m) && (priority m <=? 10)
  && (0 <? file_size_bytes (mezzanine m)).

Definition valid_request (r : TranscodeJobRequest) : bool :=
  valid_manifest (manifest r)
  && match abr_variants r with [] => false | _ => true end
  && forallb valid_variant (abr_variants r).

(** ** [job_submitter/abr_ladder.py] *)

Definition ABR_LADDER_H264 : list ABRVariant :=
  [ mkABRVariant "1920x1080" 6000 H264 "high" "4.2";
    mkABRVariant "1280x720" 3500 H264 "high" "4.0";
    mkABRVariant "854x480" 1800 H264 "main" "3.1";
    mkABRVariant "640x360" 800 H264 "main" "3.0" ].

Definition ABR_LADDER_H265 : list ABRVariant :=
  [ mkABRVariant "1920x1080" 4500 H265 "main" "4.0";
    mkABRVariant "1280x720" 2500 H265 "main" "4.0" ].

(** The body of both filtering loops:
    [if variant.height <= source_height: variants.append(variant)]. *)
Definition append_if_fits (source_height : Z) (variants : list ABRVariant)
    (variant : ABRVariant) : result (list ABRVariant) :=
  let* h := height variant in
  Ok (if h <=? source_height then variants ++ [variant] else variants).

(** The sort key [(-v.height, v.codec.value)] and the order of such tuples. *)
Definition ladder_key (v : ABRVariant) : result (Z * string) :=
  let* h := height v in Ok (- h, VideoCodec_value (codec v)).

Definition key_lt (a b : Z * string) : bool :=
  (fst a <? fst b) || ((fst a =? fst b) && String.ltb (snd a) (snd b)).

(** [variants.sort(key=...)]: the keys are computed first, one per element. *)
Definition sort_by_key {A K : Type} (lt : K -> K -> bool) (key : A -> result K)
    (l : list A) : result (list A) :=
  let* ks := mapM (fun x => let* k := key x in Ok (k, x)) l in
  Ok (map snd (Py.sort_pairs lt ks)).

Definition get_abr_ladder (source_width source_height : Z) (enable_h265 : bool)
  : result (list ABRVariant) :=
  let* variants := foldM (append_if_fits source_height) [] ABR_LADDER_H264 in
  let* variants :=
    (if enable_h265
     then foldM (append_if_fits source_height) variants ABR_LADDER_H265
     else Ok variants) in
  sort_by_key key_lt ladder_key variants.

Definition h264_profile_map : list (string * string) :=
  [ ("baseline", "BASELINE"); ("main", "MAIN"); ("high", "HIGH");
    ("high_10", "HIGH_10BIT"); ("high_422", "HIGH_422");
    ("high_444", "HIGH_444_PREDICTIVE") ].

Definition _format_h264_profile (profile : string) : string :=
  Py.get_default h264_profile_map (Py.lower profile) "HIGH".

Definition h265_profile_map : list (string * string) :=
  [ ("main", "MAIN_MAIN"); ("main10", "MAIN10_MAIN"); ("main_10", "MAIN10_MAIN") ].

Definition _format_h265_profile (profile : string) : string :=
  Py.get_default h265_profile_map (Py.lower profile) "MAIN_MAIN".


(** The loosely typed values ([dict[str, Any]]) handed to the transcoder. *)
#[warnings="-register-all"]
Inductive json : Type :=
  | JNone
  | JBool (b : bool)
  | JInt (n : Z)
  | JStr (s : string)
  | JList (l : list json)
  | JDict (d : list (string * json)).

(** [calculate_qvbr_settings]: quality level 7, and a maximum bitrate of
    one and a half times the target.  [int(bitrate_kbps * 1.5 * 1000)] is
    exact for the integer bitrates the model admits (at most 50000), hence
    [bitrate_kbps * 1500].  The closing [raise ValueError] of the source
    is out of reach: [VideoCodec] has the two members handled here. *)
Definition calculate_qvbr_settings (variant : ABRVariant) : json :=
  let quality_level := 7 in
  let max_bitrate := bitrate_kbps variant * 1500 in
  match codec variant with
  | H264 =>
      JDict [
        ("Codec", JStr "H_264");
        ("H264Settings", JDict [
          ("RateControlMode", JStr "QVBR");
          ("QvbrSettings", JDict [
            ("QvbrQualityLevel", JInt quality_level);
            ("MaxAverageBitrate", JInt (bitrate_kbps variant * 1000)) ]);
          ("MaxBitrate", JInt max_bitrate);
          ("QualityTuningLevel", JStr "MULTI_PASS_HQ");
          ("CodecProfile", JStr (_format_h264_profile (profile variant)));
          ("CodecLevel", JStr "AUTO");
          ("GopSize", JInt 48);
          ("GopSizeUnits", JStr "FRAMES");
          ("NumberBFramesBetweenReferenceFrames", JInt 2);
          ("GopBReference", JStr "ENABLED");
          ("AdaptiveQuantization", JStr "HIGH");
          ("SceneChangeDetect", JStr "ENABLED");
          ("EntropyEncoding", JStr "CABAC");
          ("Syntax", JStr "DEFAULT");
          ("Slices", JInt 1);
          ("InterlaceMode", JStr "PROGRESSIVE") ]) ]
  | H265 =>
      JDict [
        ("Codec", JStr "H_265");
        ("H265Settings", JDict [
          ("RateControlMode", JStr "QVBR");
          ("QvbrSettings", JDict [
            ("QvbrQualityLevel", JInt quality_level);
            ("MaxAverageBitrate", JInt (bitrate_kbps variant * 1000)) ]);
          ("MaxBitrate", JInt max_bitrate);
          ("QualityTuningLevel", JStr "MULTI_PASS_HQ");
          ("CodecProfile", JStr (_format_h265_profile (profile variant)));
          ("CodecLevel", JStr "AUTO");
          ("GopSize", JInt 48);
          ("GopSizeUnits", JStr "FRAMES");
          ("NumberBFramesBetweenReferenceFrames", JInt 2);
          ("GopBReference", JStr "ENABLED");
          ("AdaptiveQuantization", JStr "HIGH");
          ("SceneChangeDetect", JStr "ENABLED");
          ("Tiles", JStr "ENABLED");
          ("InterlaceMode", JStr "PROGRESSIVE");
          ("WriteMp4PackagingType", JStr "HVC1") ]) ]
  end.

Definition get_audio_settings (channels : Z) (bitrate : Z) : json :=
  let coding_mode := if channels <=? 2 then "CODING_MODE_2_0" else "CODING_MODE_5_1" in
  JDict [
    ("Codec", JStr "AAC");
    ("AacSettings", JDict [
      ("AudioDescriptionBroadcasterMix", JStr "NORMAL");
      ("Bitrate", JInt (bitrate * 1000));
      ("RateControlMode", JStr "CBR");
      ("CodecProfile", JStr "LC");
      ("CodingMode", JStr coding_mode);
      ("RawFormat", JStr "NONE");
      ("SampleRate", JInt 48000);
      ("Specification", JStr "MPEG4") ]) ].

(** ** [job_submitter/job_builder.py] *)

Definition ISO_639_1_TO_639_2 : list (string * string) :=
  [ ("en", "ENG"); ("ja", "JPN"); ("es", "SPA"); ("fr", "FRA"); ("de", "DEU");
    ("it", "ITA"); ("pt", "POR"); ("ru", "RUS"); ("zh", "ZHO"); ("ko", "KOR");
    ("ar", "ARA"); ("hi", "HIN"); ("th", "THA"); ("vi", "VIE"); ("id", "IND");
    ("ms", "MSA"); ("tl", "TGL"); ("pl", "POL"); ("nl", "NLD"); ("tr", "TUR");
    ("sv", "SWE"); ("da", "DAN"); ("no", "NOR"); ("fi", "FIN"); ("cs", "CES");
    ("hu", "HUN"); ("ro", "RON"); ("el", "ELL"); ("he", "HEB"); ("uk", "UKR") ].

(** The base code looked up by [_get_iso_639_2_code]:
    [iso_639_1.lower().split("-")[0]]. *)
Definition base_code (iso_639_1 : string) : result string :=
  Py.getitem (Py.split "-" (Py.lower iso_639_1)) 0.

Definition unsupported_language_message (iso_639_1 : string) : string :=
  "Unsupported language code '" +:+ iso_639_1 +:+ "'. " +:+
  "Supported codes: " +:+ Py.join ", " (Py.sorted_str (Py.keys ISO_639_1_TO_639_2)).

Definition _get_iso_639_2_code (iso_639_1 : string) : result string :=
  let* code := base_code iso_639_1 in
  match Py.get ISO_639_1_TO_639_2 code with
  | None => Raise (ValueError (unsupported_language_message iso_639_1))
  | Some v => Ok v
  end.

(** [enumerate(l, start)] *)
Fixpoint enumerate {A : Type} (start : Z) (l : list A) : list (Z * A) :=
  match l with
  | [] => []
  | x :: l' => (start, x) :: enumerate (start + 1) l'
  end.

Definition format_to_source_type : list (string * string) :=
  [ ("SCC", "SCC"); ("TTML", "TTML"); ("WebVTT", "WEBVTT"); ("SRT", "SRT") ].

Definition audio_selector_entry (selectors : list (string * json))
    (it : Z * AudioTrack) : list (string * json) :=
  let track := snd it in
  let selector_name := "Audio_" +:+ a_language track in
  Py.setitem selectors selector_name
    (JDict [
       ("DefaultSelection",
          JStr (if a_is_default track then "DEFAULT" else "NOT_DEFAULT"));
       ("SelectorType", JStr "TRACK");
       ("Tracks", JList [JInt (a_track_index track)]) ]).

Definition caption_selector_entry (request : TranscodeJobRequest)
    (selectors : list (string * json)) (track : SubtitleTrack)
  : list (string * json) :=
  let selector_name := "Caption_" +:+ s_language track in
  let input_bucket := Py.rsplit1_head "/" (input_s3_uri request) in
  let subtitle_uri := input_bucket +:+ "/" +:+ s_file_path track in
  let source_type := Py.get_default format_to_source_type (s_format track) "WEBVTT" in
  Py.setitem selectors selector_name
    (JDict [
       ("SourceSettings", JDict [
          ("SourceType", JStr source_type);
          ("FileSourceSettings", JDict [ ("SourceFile", JStr subtitle_uri) ]) ]) ]).

Definition build_audio_selectors (request : TranscodeJobRequest)
  : list (string * json) :=
  fold_left audio_selector_entry
    (enumerate 1 (audio_tracks (manifest request))) [].

Definition build_caption_selectors (request : TranscodeJobRequest)
  : list (string * json) :=
  fold_left (caption_selector_entry request)
    (subtitle_tracks (manifest request)) [].

Definition _build_input (request : TranscodeJobRequest) : json :=
  let audio_selectors := build_audio_selectors request in
  let caption_selectors := build_caption_selectors request in
  let input_config :=
    [ ("FileInput", JStr (input_s3_uri request));
      ("AudioSelectors", JDict audio_selectors);
      ("VideoSelector", JDict [ ("ColorSpace", JStr "FOLLOW"); ("Rotate", JStr "AUTO") ]);
      ("TimecodeSource", JStr "ZEROBASED");
      ("FilterEnable", JStr "AUTO");
      ("PsiControl", JStr "USE_PSI");
      ("FilterStrength", JInt 0);
      ("DeblockFilter", JStr "DISABLED");
      ("DenoiseFilter", JStr "DISABLED") ] in
  match caption_selectors with
  | [] => JDict input_config
  | _ => JDict (Py.setitem input_config "CaptionSelectors" (JDict caption_selectors))
  end.

(** The audio description of a track inside a video rendition. *)
Definition video_audio_description (track : AudioTrack) : result json :=
  let* code := _get_iso_639_2_code (a_language track) in
  Ok (JDict [
    ("AudioSourceName", JStr ("Audio_" +:+ a_language track));
    ("AudioTypeControl", JStr "FOLLOW_INPUT");
    ("LanguageCode", JStr code);
    ("LanguageCodeControl", JStr "USE_CONFIGURED");
    ("CodecSettings", get_audio_settings (a_channels track) 128) ]).

(** The audio description of an audio-only rendition (it adds the stream
    name). *)
Definition audio_description (track : AudioTrack) : result json :=
  let* code := _get_iso_639_2_code (a_language track) in
  Ok (JDict [
    ("AudioSourceName", JStr ("Audio_" +:+ a_language track));
    ("AudioTypeControl", JStr "FOLLOW_INPUT");
    ("LanguageCode", JStr code);
    ("LanguageCodeControl", JStr "USE_CONFIGURED");
    ("CodecSettings", get_audio_settings (a_channels track) 128);
    ("StreamName", JStr (a_label track)) ]).

Definition _build_hls_video_output (request : TranscodeJobRequest)
    (variant : ABRVariant) : result json :=
  let* nm := name variant in
  let* w := width variant in
  let* h := height variant in
  let* audio := mapM video_audio_description (audio_tracks (manifest request)) in
  Ok (JDict [
    ("NameModifier", JStr ("_" +:+ nm));
    ("ContainerSettings", JDict [
      ("Container", JStr "M3U8");
      ("M3u8Settings", JDict [
        ("AudioFramesPerPes", JInt 4);
        ("PcrControl", JStr "PCR_EVERY_PES_PACKET");
        ("PmtPid", JInt 480);
        ("PrivateMetadataPid", JInt 503);
        ("ProgramNumber", JInt 1);
        ("PatInterval", JInt 0);
        ("PmtInterval", JInt 0);
        ("VideoPid", JInt 481);
        ("AudioPids", JList (map JInt [482; 483; 484; 485; 486; 487; 488; 489])) ]) ]);
    ("VideoDescription", JDict [
      ("Width", JInt w);
      ("Height", JInt h);
      ("CodecSettings", calculate_qvbr_settings variant);
      ("ScalingBehavior", JStr "DEFAULT");
      ("TimecodeInsertion", JStr "DISABLED");
      ("AntiAlias", JStr "ENABLED");
      ("RespondToAfd", JStr "NONE");
      ("Sharpness", JInt 50);
      ("AfdSignaling", JStr "NONE");
      ("DropFrameTimecode", JStr "ENABLED") ]);
    ("AudioDescriptions", JList audio) ]).

Definition _build_hls_audio_output (request : TranscodeJobRequest)
    (track : AudioTrack) : result json :=
  let* description := audio_description track in
  Ok (JDict [
    ("NameModifier", JStr ("_audio_" +:+ a_language track));
    ("ContainerSettings", JDict [
      ("Container", JStr "M3U8");
      ("M3u8Settings", JDict [
        ("AudioFramesPerPes", JInt 4);
        ("PcrControl", JStr "PCR_EVERY_PES_PACKET");
        ("PmtPid", JInt 480);
        ("ProgramNumber", JInt 1) ]) ]);
    ("AudioDescriptions", JList [description]) ]).

Definition _build_hls_caption_output (request : TranscodeJobRequest)
    (track : SubtitleTrack) : result json :=
  let* lang_code := _get_iso_639_2_code (s_language track) in
  Ok (JDict [
    ("NameModifier", JStr ("_caption_" +:+ s_language track));
    ("ContainerSettings", JDict [ ("Container", JStr "RAW") ]);
    ("CaptionDescriptions", JList [
      JDict [
        ("CaptionSelectorName", JStr ("Caption_" +:+ s_language track));
        ("DestinationSettings", JDict [
          ("DestinationType", JStr "WEBVTT");
          ("WebvttDestinationSettings", JDict [ ("StylePassthrough", JStr "STRICT") ]) ]);
        ("LanguageCode", JStr lang_code);
        ("LanguageDescription", JStr (s_label track)) ] ]) ]).

Definition caption_language_mapping (it : Z * SubtitleTrack) : result json :=
  let idx := fst it in
  let track := snd it in
  let* code := _get_iso_639_2_code (s_language track) in
  Ok (JDict [
    ("LanguageCode", JStr code);
    ("LanguageDescription", JStr (s_label track));
    ("CaptionChannel", JInt (idx + 1)) ]).

Definition _build_hls_output_group (request : TranscodeJobRequest)
    (variants : list ABRVariant) : result json :=
  let* video := mapM (_build_hls_video_output request) variants in
  let* audio := mapM (_build_hls_audio_output request) (audio_tracks (manifest request)) in
  let* captions :=
    mapM (_build_hls_caption_output request) (subtitle_tracks (manifest request)) in
  let outputs := video ++ audio ++ captions in
  let hls_settings :=
    [ ("SegmentLength", JInt 6);
      ("MinSegmentLength", JInt 0);
      ("Destination", JStr (output_s3_prefix request +:+ "/hls/"));
      ("ManifestDurationFormat", JStr "FLOATING_POINT");
      ("SegmentControl", JStr "SEGMENTED_FILES");
      ("OutputSelection", JStr "MANIFESTS_AND_SEGMENTS");
      ("StreamInfResolution", JStr "INCLUDE");
      ("ClientCache", JStr "ENABLED");
      ("ManifestCompression", JStr "NONE");
      ("DirectoryStructure", JStr "SINGLE_DIRECTORY");
      ("ProgramDateTime", JStr "INCLUDE");
      ("ProgramDateTimePeriod", JInt 600);
      ("CodecSpecification", JStr "RFC_4281") ] in
  let* hls_settings :=
    match subtitle_tracks (manifest request) with
    | [] => Ok (Py.setitem hls_settings "CaptionLanguageSetting" (JStr "OMIT"))
    | _ =>
        let hls_settings := Py.setitem hls_settings "CaptionLanguageSetting" (JStr "INSERT") in
        let* mappings :=
          mapM caption_language_mapping
            (enumerate 0 (subtitle_tracks (manifest request))) in
        Ok (Py.setitem hls_settings "CaptionLanguageMappings" (JList mappings))
    end in
  Ok (JDict [
    ("Name", JStr "HLS");
    ("OutputGroupSettings", JDict [
      ("Type", JStr "HLS_GROUP_SETTINGS");
      ("HlsGroupSettings", JDict hls_settings) ]);
    ("Outputs", JList outputs) ]).

Definition _build_dash_video_output (request : TranscodeJobRequest)
    (variant : ABRVariant) : result json :=
  let* nm := name variant in
  let* w := width variant in
  let* h := height variant in
  Ok (JDict [
    ("NameModifier", JStr ("_" +:+ nm));
    ("ContainerSettings", JDict [ ("Container", JStr "MPD") ]);
    ("VideoDescription", JDict [
      ("Width", JInt w);
      ("Height", JInt h);
      ("CodecSettings", calculate_qvbr_settings variant);
      ("ScalingBehavior", JStr "DEFAULT");
      ("AntiAlias", JStr "ENABLED");
      ("Sharpness", JInt 50);
      ("TimecodeInsertion", JStr "DISABLED") ]) ]).

Definition _build_dash_audio_output (request : TranscodeJobRequest)
    (track : AudioTrack) : result json :=
  let* description := audio_description track in
  Ok (JDict [
    ("NameModifier", JStr ("_audio_" +:+ a_language track));
    ("ContainerSettings", JDict [ ("Container", JStr "MPD") ]);
    ("AudioDescriptions", JList [description]) ]).

Definition _build_dash_output_group (request : TranscodeJobRequest)
    (variants : list ABRVariant) : result json :=
  let* video := mapM (_build_dash_video_output request) variants in
  let* audio := mapM (_build_dash_audio_output request) (audio_tracks (manifest request)) in
  let outputs := video ++ audio in
  Ok (JDict [
    ("Name", JStr "DASH");
    ("OutputGroupSettings", JDict [
      ("Type", JStr "DASH_ISO_GROUP_SETTINGS");
      ("DashIsoGroupSettings", JDict [
        ("SegmentLength", JInt 6);
        ("Destination", JStr (output_s3_prefix request +:+ "/dash/"));
        ("FragmentLength", JInt 2);
        ("SegmentControl", JStr "SEGMENTED_FILES");
        ("HbbtvCompliance", JStr "NONE");
        ("MpdProfile", JStr "MAIN_PROFILE");
        ("WriteSegmentTimelineInRepresentation", JStr "ENABLED") ]) ]);
    ("Outputs", JList outputs) ]).

Definition is_h264 (v : ABRVariant) : bool := VideoCodec_eqb (codec v) H264.
Definition is_h265 (v : ABRVariant) : bool := VideoCodec_eqb (codec v) H265.

(** [build_mediaconvert_job] returns the job settings; the output groups
    are appended to its ["OutputGroups"] list as they are built. *)
Definition job_settings_of (input : json) (groups : list json) : json :=
  JDict [
    ("TimecodeConfig", JDict [ ("Source", JStr "ZEROBASED") ]);
    ("Inputs", JList [input]);
    ("OutputGroups", JList groups) ].

Definition build_output_groups (request : TranscodeJobRequest)
  : result (list json) :=
  let h264_variants := List.filter is_h264 (abr_variants request) in
  let h265_variants := List.filter is_h265 (abr_variants request) in
  let groups := [] in
  let* groups :=
    match output_hls request, h264_variants with
    | true, _ :: _ =>
        let* g := _build_hls_output_group request h264_variants in
        Ok (groups ++ [g])
    | _, _ => Ok groups
    end in
  let* groups :=
    if output_dash request then
      let all_variants := h264_variants ++ h265_variants in
      match all_variants with
      | _ :: _ =>
          let* g := _build_dash_output_group request all_variants in
          Ok (groups ++ [g])
      | [] => Ok groups
      end
    else Ok groups in
  Ok groups.

Definition build_mediaconvert_job (request : TranscodeJobRequest) : result json :=
  let input := _build_input request in
  let* groups := build_output_groups request in
  Ok (job_settings_of input groups).

(** *** Reading a job specification back *)

Definition field (k : string) (j : json) : option json :=
  match j with
  | JDict d => Py.get d k
  | _ => None
  end.

Definition has_field (k : string) (j : json) : bool :=
  match field k j with Some _ => true | None => false end.

Definition items (j : option json) : list json :=
  match j with
  | Some (JList l) => l
  | _ => []
  end.

Definition entries (j : option json) : list (string * json) :=
  match j with
  | Some (JDict d) => d
  | _ => []
  end.

Definition output_groups (spec : json) : list json := items (field "OutputGroups" spec).
Definition inputs (spec : json) : list json := items (field "Inputs" spec).
Definition outputs (group : json) : list json := items (field "Outputs" group).
Definition group_name (group : json) : option json := field "Name" group.

(** A video rendition is an output with a video description, an audio
    rendition an audio-only output, a caption rendition an output with
    caption descriptions. *)
Definition is_video_rendition (o : json) : bool := has_field "VideoDescription" o.
Definition is_audio_rendition (o : json) : bool :=
  has_field "AudioDescriptions" o && negb (has_field "VideoDescription" o).
Definition is_caption_rendition (o : json) : bool := has_field "CaptionDescriptions" o.

Definition video_renditions (g : json) : list json := List.filter is_video_rendition (outputs g).
Definition audio_renditions (g : json) : list json := List.filter is_audio_rendition (outputs g).
Definition caption_renditions (g : json) : list json := List.filter is_caption_rendition (outputs g).

Definition rendition_codec (o : json) : option json :=
  match field "VideoDescription" o with
  | Some vd =>
      match field "CodecSettings" vd with
      | Some cs => field "Codec" cs
      | None => None
      end
  | None => None
  end.

Definition audio_selectors (input : json) : list (string * json) :=
  entries (field "AudioSelectors" input).
Definition caption_selectors (input : json) : list (string * json) :=
  entries (field "CaptionSelectors" input).



Definition sample_manifest : TranscodeManifest :=
  mkTranscodeManifest "1.0" "aot-s01e01-20240115"
    (mkMezzanineInfo "mezzanines/aot_s01e01.mxf" "d41d8cd98f00b204e9800998ecf8427e"
       None 1000000 "ProRes 422 HQ" "PCM" 1920 1080 150000)
    [ mkAudioTrack "ja" "Japanese" true 2 1; mkAudioTrack "en" "English" false 2 2 ]
    [ mkSubtitleTrack "en" "English" "subtitles/aot_s01e01_en.vtt" true false "WebVTT" ]
    0 None.


(** ** [hashlib.sha256]

    SHA-256 (FIPS 180-4) on 32-bit words held in [Z], every addition
    reduced modulo [2^32]. *)

Module Sha256.

Definition mask32 : Z := 0xffffffff.
Definition wrap (x : Z) : Z := x mod 2 ^ 32.
Definition add32 (x y : Z) : Z := wrap (x + y).
Definition rotr (n x : Z) : Z :=
  Z.lor (Z.shiftr x n) (Z.land (Z.shiftl x (32 - n)) mask32).
Definition shr (n x : Z) : Z := Z.shiftr x n.
Definition not32 (x : Z) : Z := Z.lxor x mask32.

Definition Ch (x y z : Z) : Z := Z.lxor (Z.land x y) (Z.land (not32 x) z).
Definition Maj (x y z : Z) : Z :=
  Z.lxor (Z.lxor (Z.land x y) (Z.land x z)) (Z.land y z).
Definition Sigma0 (x : Z) : Z := Z.lxor (Z.lxor (rotr 2 x) (rotr 13 x)) (rotr 22 x).
Definition Sigma1 (x : Z) : Z := Z.lxor (Z.lxor (rotr 6 x) (rotr 11 x)) (rotr 25 x).
Definition sigma0 (x : Z) : Z := Z.lxor (Z.lxor (rotr 7 x) (rotr 18 x)) (shr 3 x).
Definition sigma1 (x : Z) : Z := Z.lxor (Z.lxor (rotr 17 x) (rotr 19 x)) (shr 10 x).

(** The constants are read off the first primes: the first 32 bits of the
    fractional part of the cube root of each of the first 64 for the round
    constants, of the square root of each of the first 8 for the initial
    state. *)
Definition is_prime (n : Z) : bool :=
  (1 <? n) && forallb (fun d => negb (n mod Z.of_nat d =? 0)) (seq 2 (Z.to_nat n - 2)).

Definition primes : list Z :=
  Eval vm_compute in List.filter is_prime (map Z.of_nat (seq 2 310)).

(** The integer cube root, one bit after the other from the top. *)
Fixpoint cube_root_bits (bit : nat) (n r : Z) : Z :=
  match bit with
  | O => r
  | S b =>
      let r' := r + 2 ^ Z.of_nat b in
      cube_root_bits b n (if r' * r' * r' <=? n then r' else r)
  end.

Definition cube_root (n : Z) : Z := cube_root_bits 40 n 0.

Definition K : list Z :=
  Eval vm_compute in map (fun p => wrap (cube_root (p * 2 ^ 96))) primes.

Record state : Type := mkState {
  h0 : Z; h1 : Z; h2 : Z; h3 : Z; h4 : Z; h5 : Z; h6 : Z; h7 : Z
}.

Definition root_word (i : nat) : Z := wrap (Z.sqrt (nth i primes 0 * 2 ^ 64)).

Definition initial : state :=
  Eval vm_compute in
    mkState (root_word 0) (root_word 1) (root_word 2) (root_word 3)
            (root_word 4) (root_word 5) (root_word 6) (root_word 7).

(** Padding: a [0x80] byte, zeros up to 56 modulo 64, the bit length on
    eight bytes, most significant first. *)
Definition be_bytes (n : nat) (x : Z) : list Z :=
  map (fun i => Z.land (Z.shiftr x (8 * Z.of_nat (n - 1 - i))) 0xff) (seq 0 n).

Definition pad (msg : list Z) : list Z :=
  let len := Z.of_nat (length msg) in
  let zeros := Z.to_nat ((55 - len) mod 64) in
  msg ++ [0x80] ++ repeat 0 zeros ++ be_bytes 8 ((8 * len) mod 2 ^ 64).

Fixpoint be_words (bytes : list Z) : list Z :=
  match bytes with
  | b0 :: b1 :: b2 :: b3 :: rest =>
      (b0 * 2 ^ 24 + b1 * 2 ^ 16 + b2 * 2 ^ 8 + b3) :: be_words rest
  | _ => []
  end.

(** The message schedule: sixteen words of the block, then forty-eight
    derived ones. *)
Fixpoint extend (n : nat) (w : list Z) : list Z :=
  match n with
  | O => w
  | S n' =>
      let t := length w in
      let x := add32 (add32 (sigma1 (nth (t - 2) w 0)) (nth (t - 7) w 0))
                     (add32 (sigma0 (nth (t - 15) w 0)) (nth (t - 16) w 0)) in
      extend n' (w ++ [x])
  end.

Definition round (s : state) (kw : Z * Z) : state :=
  let t1 := add32 (add32 (add32 (h7 s) (Sigma1 (h4 s)))
                         (add32 (Ch (h4 s) (h5 s) (h6 s)) (fst kw))) (snd kw) in
  let t2 := add32 (Sigma0 (h0 s)) (Maj (h0 s) (h1 s) (h2 s)) in
  mkState (add32 t1 t2) (h0 s) (h1 s) (h2 s) (add32 (h3 s) t1) (h4 s) (h5 s) (h6 s).

Definition compress (s : state) (block : list Z) : state :=
  let w := extend 48 (be_words block) in
  let r := fold_left round (combine K w) s in
  mkState (add32 (h0 s) (h0 r)) (add32 (h1 s) (h1 r)) (add32 (h2 s) (h2 r))
          (add32 (h3 s) (h3 r)) (add32 (h4 s) (h4 r)) (add32 (h5 s) (h5 r))
          (add32 (h6 s) (h6 r)) (add32 (h7 s) (h7 r)).

Fixpoint blocks (n : nat) (bytes : list Z) (s : state) : state :=
  match n with
  | O => s
  | S n' => blocks n' (skipn 64 bytes) (compress s (firstn 64 bytes))
  end.

Definition bytes_of_string (s : string) : list Z :=
  map (fun c => Z.of_nat (nat_of_ascii c)) (list_ascii_of_string s).

Definition digest (msg : string) : state :=
  let bytes := pad (bytes_of_string msg) in
  blocks (length bytes / 64) bytes initial.

Definition words (s : state) : list Z :=
  [h0 s; h1 s; h2 s; h3 s; h4 s; h5 s; h6 s; h7 s].

Definition hex_digit (d : Z) : ascii :=
  ascii_of_nat (Z.to_nat (if d <? 10 then 48 + d else 87 + d)).

(** The eight hexadecimal digits of a word, most significant first. *)
Definition hex_word (x : Z) : string :=
  string_of_list_ascii
    (map (fun i => hex_digit (Z.land (Z.shiftr x (4 * Z.of_nat (7 - i))) 0xf)) (seq 0 8)).

Definition hex (s : state) : string :=
  fold_right (fun w acc => hex_word w +:+ acc) EmptyString (words s).

(** [hashlib.sha256(s.encode()).hexdigest()] *)
Definition hexdigest (msg : string) : string := hex (digest msg).

(** The digest as one number below [2^256]. *)
Definition number (s : state) : Z :=
  fold_left (fun acc w => acc * 2 ^ 32 + w) (words s) 0.

End Sha256.

(** ** [job_submitter/idempotency.py] *)

Definition IDEMPOTENCY_TTL_DAYS : Z := 7.

(** The string that is hashed: the key components joined by ["|"]. *)
Definition key_components (manifest : TranscodeManifest) (profile_version : string)
  : list string :=
  [ manifest_id manifest;
    checksum_md5 (mezzanine manifest);
    Py.str_int (file_size_bytes (mezzanine manifest));
    Py.str_list (Py.sorted_str (map a_language (audio_tracks manifest)));
    profile_version ].

Definition combined (manifest : TranscodeManifest) (profile_version : string) : string :=
  Py.join "|" (key_components manifest profile_version).

(** The token, for a manifest whose file size [str] can print and for
    strings that can be encoded (a string is held by its UTF-8 bytes, which
    are what is hashed). *)
Definition generate_idempotency_token (manifest : TranscodeManifest)
    (profile_version : string) : string :=
  Sha256.hexdigest (combined manifest profile_version).

(** *** The reservation table

    The DynamoDB table maps a token to its item.  What the outside world
    decides for one call is made explicit: the clock, and whether the store
    operation fails before taking effect ([Some e]: the exception the
    client raises) or is carried out ([None]). *)

Record env : Type := mkEnv {
  now : Z;
  utcnow_isoformat : string;
  put_fault : option exn;
  get_fault : option exn
}.

Definition CONDITIONAL_CHECK_FAILED : string := "ConditionalCheckFailedException".

(** [table.get_item(Key=..., ConsistentRead=True).get("Item")] *)
Definition get_item (fault : option exn) (table : gmap string json) (key : string)
  : result (option json) :=
  match fault with
  | Some e => Raise e
  | None => Ok (table !! key)
  end.

(** [table.put_item(Item=..., ConditionExpression="attribute_not_exists(idempotency_token)")] *)
Definition put_item_if_absent (fault : option exn) (table : gmap string json)
    (key : string) (item : json) : gmap string json * result unit :=
  match fault with
  | Some e => (table, Raise e)
  | None =>
      match table !! key with
      | Some _ => (table, Raise (ClientError CONDITIONAL_CHECK_FAILED))
      | None => (<[key := item]> table, Ok tt)
      end
  end.

(** Truth value of an object, for [if item:]. *)
Definition truthy (j : json) : bool :=
  match j with
  | JNone => false
  | JBool b => b
  | JInt n => negb (n =? 0)
  | JStr s => negb (String.eqb s "")
  | JList l => match l with [] => false | _ => true end
  | JDict d => match d with [] => false | _ => true end
  end.

(** [check_idempotency]: the whole read sits in [try ... except Exception],
    and the handler returns [None]. *)
Definition check_idempotency (fault : option exn) (table : gmap string json)
    (idempotency_token : string) : option json :=
  match get_item fault table idempotency_token with
  | Ok (Some item) => if truthy item then Some item else None
  | Ok None => None
  | Raise _ => None
  end.

Definition exn_str (e : exn) : string :=
  match e with
  | ValueError msg | IndexError msg | OtherException msg => msg
  | ClientError code => "An error occurred (" +:+ code +:+ ")"
  | IdempotencyError msg _ => msg
  end.

(** [s[:n]] *)
Fixpoint take (n : nat) (s : string) : string :=
  match n, s with
  | S n', String c s' => String c (take n' s')
  | _, _ => EmptyString
  end.

Definition pending_item (e : env) (idempotency_token manifest_id output_prefix : string)
  : json :=
  let ttl := now e + IDEMPOTENCY_TTL_DAYS * 24 * 60 * 60 in
  JDict [
    ("idempotency_token", JStr idempotency_token);
    ("manifest_id", JStr manifest_id);
    ("status", JStr "PENDING");
    ("output_prefix", JStr output_prefix);
    ("created_at", JStr (utcnow_isoformat e));
    ("ttl", JInt ttl) ].

Definition of_option (o : option json) : json :=
  match o with Some j => j | None => JNone end.

Definition reserved_result : json := JDict [ ("reserved", JBool true) ].

Definition taken_result (existing : option json) : json :=
  JDict [ ("reserved", JBool false); ("existing_job", of_option existing) ].

(** [reserve_job_slot].  The conditional put either succeeds, or raises a
    [ClientError] (handled by the first [except] clause: the conditional
    check failure is answered, any other code is raised again as it is), or
    raises something else (second clause: wrapped in [IdempotencyError]). *)
Definition reserve_job_slot (e : env) (table : gmap string json)
    (idempotency_token manifest_id output_prefix : string)
  : gmap string json * result json :=
  let item := pending_item e idempotency_token manifest_id output_prefix in
  match put_item_if_absent (put_fault e) table idempotency_token item with
  | (table', Ok _) => (table', Ok reserved_result)
  | (table', Raise (ClientError code)) =>
      if String.eqb code CONDITIONAL_CHECK_FAILED then
        let existing := check_idempotency (get_fault e) table' idempotency_token in
        (table', Ok (taken_result existing))
      else (table', Raise (ClientError code))
  | (table', Raise err) =>
      (table',
       Raise (IdempotencyError
                ("Failed to reserve job slot: " +:+ exn_str err)
                [ ("idempotency_token", take 16 idempotency_token);
                  ("error", exn_str err) ]))
  end.

(** *** Concurrent invocations

    An invocation of [reserve_job_slot] touches the table at most twice:
    the conditional put, then, when the condition failed, the read of the
    existing item.  Each of the two is one atomic store operation; other
    invocations may run between them. *)

Inductive progress : Type :=
  | Start
  | LostRace
  | Finished (r : result json).

Record invocation : Type := mkInvocation {
  inv_env : env;
  inv_manifest_id : string;
  inv_output_prefix : string;
  inv_progress : progress
}.

Definition at_progress (i : invocation) (p : progress) : invocation :=
  mkInvocation (inv_env i) (inv_manifest_id i) (inv_output_prefix i) p.

(** One store operation of an invocation on the given token. *)
Definition step_invocation (token : string) (table : gmap string json)
    (i : invocation) : gmap string json * invocation :=
  match inv_progress i with
  | Start =>
      let item := pending_item (inv_env i) token (inv_manifest_id i) (inv_output_prefix i) in
      match put_item_if_absent (put_fault (inv_env i)) table token item with
      | (table', Ok _) => (table', at_progress i (Finished (Ok reserved_result)))
      | (table', Raise (ClientError code)) =>
          if String.eqb code CONDITIONAL_CHECK_FAILED
          then (table', at_progress i LostRace)
          else (table', at_progress i (Finished (Raise (ClientError code))))
      | (table', Raise err) =>
          (table',
           at_progress i (Finished (Raise (IdempotencyError
             ("Failed to reserve job slot: " +:+ exn_str err)
             [ ("idempotency_token", take 16 token); ("error", exn_str err) ]))))
      end
  | LostRace =>
      let existing := check_idempotency (get_fault (inv_env i)) table token in
      (table, at_progress i (Finished (Ok (taken_result existing))))
  | Finished _ => (table, i)
  end.

(** The system: the table and the invocations in flight.  A schedule names,
    step by step, the invocation that performs its next store operation. *)
Definition system : Type := gmap string json * list invocation.

Definition step (token : string) (st : system) (k : nat) : system :=
  match snd st !! k with
  | Some i =>
      let (table', i') := step_invocation token (fst st) i in
      (table', <[k := i']> (snd st))
  | None => st
  end.

Definition run (token : string) (schedule : list nat) (st : system) : system :=
  fold_left (step token) schedule st.

Definition finished (i : invocation) : bool :=
  match inv_progress i with Finished _ => true | _ => false end.

Definition fault_free (i : invocation) : bool :=
  match put_fault (inv_env i), get_fault (inv_env i) with
  | None, None => true
  | _, _ => false
  end.

Definition outcome (i : invocation) : option (result json) :=
  match inv_progress i with Finished r => Some r | _ => None end.

Definition sample_env (t : Z) : env := mkEnv t "2024-01-15T10:30:00" None None.

(** ** Vocabulary of the statements *)

(** [not_after lt x y]: the key of [y] is not smaller than the key of [x]. *)
Definition not_after {A K : Type} (lt : K -> K -> bool) (x y : K * A) : Prop :=
  lt (fst y) (fst x) = false.

(** The candidate variants: both policy tables. *)
Definition candidates : list ABRVariant := ABR_LADDER_H264 ++ ABR_LADDER_H265.

(** The test of both filtering loops of [get_abr_ladder]. *)
Definition fits (source_height : Z) (v : ABRVariant) : bool :=
  match height v with
  | Ok h => h <=? source_height
  | Raise _ => false
  end.

Definition admitted (enable_h265 : bool) (v : ABRVariant) : Prop :=
  codec v = H264 \/ (codec v = H265 /\ enable_h265 = true).

(** [precedes a b]: [a] is a higher rung than [b], or the H.264 variant of
    the rung of which [b] is the H.265 variant. *)
Definition precedes (a b : ABRVariant) : Prop :=
  exists ha hb, height a = Ok ha /\ height b = Ok hb /\
    (hb < ha \/ (ha = hb /\ codec a = H264 /\ codec b = H265)).

(** The variants that pass the two loops of [get_abr_ladder], before
    sorting, and the sort key of a variant whose resolution parses. *)
Definition selected (source_height : Z) (enable_h265 : bool) : list ABRVariant :=
  List.filter (fits source_height) ABR_LADDER_H264
  ++ (if enable_h265 then List.filter (fits source_height) ABR_LADDER_H265 else []).

Definition ladder_key_of (v : ABRVariant) : Z * string :=
  match height v with
  | Ok h => (- h, VideoCodec_value (codec v))
  | Raise _ => (0, "")
  end.

Definition keyed (v : ABRVariant) : (Z * string) * ABRVariant := (ladder_key_of v, v).

Definition codec_key (k : Z * string) : Prop := snd k = "h264" \/ snd k = "h265".

(** ** Sample requests *)

(** A 1080p source with both codecs, HLS and DASH, two audio languages and
    an English subtitle track. *)
Definition sample_ladder : list ABRVariant :=
  Eval vm_compute in
    match get_abr_ladder 1920 1080 true with Ok l => l | Raise _ => [] end.

Definition sample_request : TranscodeJobRequest :=
  mkTranscodeJobRequest sample_manifest
    "s3://input-bucket/mezzanines/test.mxf" "s3://output-bucket/series/s01/e01"
    sample_ladder true true
    "5d7efc4dee31b3cae7c94d16ff93aa344e5e190a81fc98a92c9a2f63ed1480bf".

Definition sample_spec : json :=
  Eval vm_compute in
    match build_mediaconvert_job sample_request with Ok s => s | Raise _ => JNone end.

Definition sample_dash_group : json :=
  Eval vm_compute in nth 1 (output_groups sample_spec) JNone.

(** The same episode with the Japanese audio delivered twice, in stereo and
    in 5.1: two tracks of one language. *)
Definition surround_manifest : TranscodeManifest :=
  mkTranscodeManifest "1.0" "aot-s01e01-20240115"
    (mezzanine sample_manifest)
    [ mkAudioTrack "ja" "Japanese" true 2 1; mkAudioTrack "ja" "Japanese 5.1" false 6 2 ]
    (subtitle_tracks sample_manifest) 0 None.

Definition surround_request : TranscodeJobRequest :=
  mkTranscodeJobRequest surround_manifest
    (input_s3_uri sample_request) (output_s3_prefix sample_request)
    sample_ladder true true (idempotency_token sample_request).

Definition surround_spec : json :=
  Eval vm_compute in
    match build_mediaconvert_job surround_request with Ok s => s | Raise _ => JNone end.

Definition surround_input : json :=
  Eval vm_compute in nth 0 (inputs surround_spec) JNone.

(** ** Vocabulary of the job specification claims *)

(** The three kinds of output are told apart by their descriptions. *)
Definition is_video (o : json) : Prop :=
  is_video_rendition o = true /\ is_audio_rendition o = false
  /\ is_caption_rendition o = false.
Definition is_audio (o : json) : Prop :=
  is_video_rendition o = false /\ is_audio_rendition o = true
  /\ is_caption_rendition o = false.
Definition is_caption (o : json) : Prop :=
  is_video_rendition o = false /\ is_audio_rendition o = false
  /\ is_caption_rendition o = true.

Definition codec_name (c : VideoCodec) : string :=
  match c with H264 => "H_264" | H265 => "H_265" end.

(** The groups of a built specification: the HLS group when HLS is
    requested and there is an H.264 variant, then the DASH group when DASH
    is requested and there is a variant at all. *)
Definition hls_emitted (r : TranscodeJobRequest) : bool :=
  output_hls r && match List.filter is_h264 (abr_variants r) with [] => false | _ => true end.

Definition dash_emitted (r : TranscodeJobRequest) : bool :=
  output_dash r
  && match List.filter is_h264 (abr_variants r) ++ List.filter is_h265 (abr_variants r) with
     | [] => false
     | _ => true
     end.

(** What the builders need of a request: resolutions that parse, and
    languages the table translates. *)
Definition translatable (s : string) : bool := is_ok (_get_iso_639_2_code s).

Definition buildable (r : TranscodeJobRequest) : Prop :=
  Forall (fun v => valid_variant v = true) (abr_variants r)
  /\ Forall (fun t => translatable (a_language t) = true) (audio_tracks (manifest r))
  /\ Forall (fun t => translatable (s_language t) = true) (subtitle_tracks (manifest r)).

(** The video renditions of a group are built from the given variants, one
    each and in their order, with the codec of the variant. *)
Definition renders (v : ABRVariant) (o : json) : Prop :=
  is_video o /\ rendition_codec o = Some (JStr (codec_name (codec v))).

Definition audio_selector_names (r : TranscodeJobRequest) : list string :=
  map (fun t => "Audio_" +:+ a_language t) (audio_tracks (manifest r)).

Definition caption_selector_names (r : TranscodeJobRequest) : list string :=
  map (fun t => "Caption_" +:+ s_language t) (subtitle_tracks (manifest r)).

(** ** Vocabulary of the language claims *)

(** [supported lang]: the base code of [lang] is a key of the table. *)
Definition supported (lang : string) : bool :=
  match base_code lang with
  | Ok base => Py.contains ISO_639_1_TO_639_2 base
  | Raise _ => false
  end.

Definition mapped_code (lang code : string) : Prop :=
  exists base, base_code lang = Ok base /\ Py.get ISO_639_1_TO_639_2 base = Some code.

Definition audio_languages (r : TranscodeJobRequest) : list string :=
  map a_language (audio_tracks (manifest r)).

Definition subtitle_languages (r : TranscodeJobRequest) : list string :=
  map s_language (subtitle_tracks (manifest r)).


(** The languages a build translates: those of the audio tracks when a
    group is emitted, those of the subtitle tracks when the HLS group is. *)
Definition translated_languages (r : TranscodeJobRequest) : list string :=
  (if hls_emitted r || dash_emitted r then audio_languages r else [])
  ++ (if hls_emitted r then subtitle_languages r else []).

(** ** Vocabulary of the reservation claims *)

(** What [reserve_job_slot] raises when the conditional put fails with
    [err], other than on the condition: a [ClientError] goes through
    unchanged, anything else is wrapped. *)
Definition reserve_failure (idempotency_token : string) (err : exn) : exn :=
  match err with
  | ClientError code => ClientError code
  | _ =>
      IdempotencyError
        ("Failed to reserve job slot: " +:+ exn_str err)
        [ ("idempotency_token", take 16 idempotency_token); ("error", exn_str err) ]
  end.

(** The item an invocation would insert. *)
Definition item_of (token : string) (i : invocation) : json :=
  pending_item (inv_env i) token (inv_manifest_id i) (inv_output_prefix i).

(** An invocation that has not won the race is still to try, has lost and
    is about to read, or has answered with the winner's item. *)
Definition behind (item : json) (i : invocation) : Prop :=
  inv_progress i = Start \/ inv_progress i = LostRace
  \/ inv_progress i = Finished (Ok (taken_result (Some item))).

(** The states of a race on a token that was free when it began: nobody
    has moved and the token is still free, or one invocation has reserved
    it, its item is the stored one, and the others are behind. *)
Definition race_invariant (token : string) (st : system) : Prop :=
  (fst st !! token = None /\ Forall (fun i => inv_progress i = Start) (snd st))
  \/ exists w iw,
       snd st !! w = Some iw
       /\ inv_progress iw = Finished (Ok reserved_result)
       /\ fst st !! token = Some (item_of token iw)
       /\ forall j ij, j <> w -> snd st !! j = Some ij -> behind (item_of token iw) ij.

(** Three invocations on one token, and a schedule that interleaves
    them. *)
Definition sample_race : system :=
  (∅, [ mkInvocation (sample_env 1705314600) "aot-s01e01-20240115" "s3://out/a" Start;
        mkInvocation (sample_env 1705314601) "aot-s01e01-20240115" "s3://out/a" Start;
        mkInvocation (sample_env 1705314601) "aot-s01e01-20240115" "s3://out/a" Start ]).

Definition sample_schedule : list nat := [1; 0; 2; 2; 0; 1; 0]%nat.

Definition throttled_env : env :=
  mkEnv 1705314600 "2024-01-15T10:30:00"
    (Some (ClientError "ProvisionedThroughputExceededException")) None.

(** How far an invocation has come: the store operations it has behind it,
    two once it has returned. *)
Definition rank (i : invocation) : nat :=
  match inv_progress i with
  | Start => 0
  | LostRace => 1
  | Finished _ => 2
  end.

(** ** Vocabulary of the token claims *)

(** The manifest [m] with another content checksum. *)
Definition with_checksum_md5 (m : TranscodeManifest) (c : string) : TranscodeManifest :=
  let z := mezzanine m in
  mkTranscodeManifest (manifest_version m) (manifest_id m)
    (mkMezzanineInfo (file_path z) c (checksum_xxhash z) (file_size_bytes z)
       (video_codec z) (audio_codec z) (resolution_width z) (resolution_height z)
       (mezz_bitrate_kbps z))
    (audio_tracks m) (subtitle_tracks m) (priority m) (callback_url m).

(** A 32-bit word, and a state made of eight of them. *)
Definition word32 (x : Z) : Prop := 0 <= x < 2 ^ 32.

Definition bounded (s : Sha256.state) : Prop := Forall word32 (Sha256.words s).

(** A loop of assignments [d[key(x)] = val(x)]. *)
Definition assign_all {V X : Type} (key : X -> string) (val : X -> V) (xs : list X)
    (d : list (string * V)) : list (string * V) :=
  fold_left (fun d x => Py.setitem d (key x) (val x)) xs d.

(** ** Vocabulary of the further properties *)

(** The name of a variant whose resolution parses. *)
Definition name_of (v : ABRVariant) : string :=
  match name v with Ok n => n | Raise _ => "" end.

(** The lowest rung of the H.264 table. *)
Definition lowest_rung : ABRVariant := mkABRVariant "640x360" 800 H264 "main" "3.0".

(** A request for the ladder of a source of 480 lines. *)
Definition sd_request : TranscodeJobRequest :=
  mkTranscodeJobRequest sample_manifest
    (input_s3_uri sample_request) (output_s3_prefix sample_request)
    (match get_abr_ladder 854 480 true with Ok l => l | Raise _ => [] end)
    true false (idempotency_token sample_request).

(** [_format_codec_level] of [abr_ladder.py], with [s.replace(old, new)] for
    one-character strings and the test [c in s]. *)
Fixpoint replace_char (old new : ascii) (s : string) : string :=
  match s with
  | EmptyString => EmptyString
  | String c s' => String (if Ascii.eqb c old then new else c) (replace_char old new s')
  end.

Definition has_char (c : ascii) (s : string) : bool :=
  existsb (Ascii.eqb c) (list_ascii_of_string s).

Definition _format_codec_level (level : string) : string :=
  let parts := Py.split "." level in
  if (length parts =? 2)%nat && String.eqb (nth 1 parts "") "0"
  then "LEVEL_" +:+ nth 0 parts ""
  else
    let level_clean := replace_char "." "_" level in
    "LEVEL_" +:+ level_clean.

(** The selector the input loop writes for an audio track, the one it
    writes for a subtitle track of a request, and what is read off a video
    rendition: name modifier, width and height. *)
Definition audio_selector_of (t : AudioTrack) : json :=
  JDict [
    ("DefaultSelection", JStr (if a_is_default t then "DEFAULT" else "NOT_DEFAULT"));
    ("SelectorType", JStr "TRACK");
    ("Tracks", JList [JInt (a_track_index t)]) ].

Definition caption_selector_of (directory : string) (t : SubtitleTrack) : json :=
  JDict [
    ("SourceSettings", JDict [
       ("SourceType", JStr (Py.get_default format_to_source_type (s_format t) "WEBVTT"));
       ("FileSourceSettings", JDict [
          ("SourceFile", JStr (directory +:+ "/" +:+ s_file_path t)) ]) ]) ].

Definition rendition_geometry (o : json) : option json * option json * option json :=
  (field "NameModifier" o,
   match field "VideoDescription" o with Some vd => field "Width" vd | None => None end,
   match field "VideoDescription" o with Some vd => field "Height" vd | None => None end).

Definition has_geometry (v : ABRVariant) (o : json) : Prop :=
  exists n w h,
    name v = Ok n /\ width v = Ok w /\ height v = Ok h
    /\ rendition_geometry o = (Some (JStr ("_" +:+ n)), Some (JInt w), Some (JInt h)).

Definition audio_sources (o : json) : list (option json) :=
  map (field "AudioSourceName") (items (field "AudioDescriptions" o)).

(** The settings of the HLS group. *)
Definition hls_group_settings (g : json) : option json :=
  match field "OutputGroupSettings" g with
  | Some ogs => field "HlsGroupSettings" ogs
  | None => None
  end.

(** The caption settings of the HLS group, and the language code of each
    caption description of an output. *)
Definition caption_language_setting (g : json) : option json :=
  match hls_group_settings g with
  | Some hs => field "CaptionLanguageSetting" hs
  | None => None
  end.

Definition caption_mappings (g : json) : list json :=
  match hls_group_settings g with
  | Some hs => items (field "CaptionLanguageMappings" hs)
  | None => []
  end.

Definition caption_codes (o : json) : list (option json) :=
  map (field "LanguageCode") (items (field "CaptionDescriptions" o)).

Definition rendition_height (o : json) : option json := snd (rendition_geometry o).

(** A lower-case hexadecimal digit. *)
Definition lower_hex (c : ascii) : bool :=
  let n := Z.of_nat (nat_of_ascii c) in
  ((48 <=? n) && (n <=? 57)) || ((97 <=? n) && (n <=? 102)).

(** The fields of a manifest that [generate_idempotency_token] reads. *)
Definition same_content (m m' : TranscodeManifest) : Prop :=
  manifest_id m = manifest_id m'
  /\ checksum_md5 (mezzanine m) = checksum_md5 (mezzanine m')
  /\ file_size_bytes (mezzanine m) = file_size_bytes (mezzanine m')
  /\ Permutation (map a_language (audio_tracks m)) (map a_language (audio_tracks m')).

(** The sample manifest with its audio tracks in the other order, without
    its subtitles and from another file of the same content. *)
Definition reordered_manifest : TranscodeManifest :=
  mkTranscodeManifest "2.0" (manifest_id sample_manifest)
    (mkMezzanineInfo "other/path.mov" (checksum_md5 (mezzanine sample_manifest))
       None (file_size_bytes (mezzanine sample_manifest)) "DNxHD" "AAC" 1280 720 90000)
    [ mkAudioTrack "en" "English (5.1)" true 6 4; mkAudioTrack "ja" "Original" false 2 3 ]
    [] 7 None.

(** ** [job_submitter/idempotency.py]: the second phase

    [table.update_item(Key=..., UpdateExpression="SET a = :a, ...")] without
    a condition sets the attributes on the item of the key; when the table
    has no item for the key, the item is created with its key attribute.
    As for the other store operations, [fault] is what the outside world
    decides for the call. *)
Definition set_all (item assignments : list (string * json)) : list (string * json) :=
  fold_left (fun d kv => Py.setitem d (fst kv) (snd kv)) assignments item.

Definition update_item (fault : option exn) (table : gmap string json)
    (key : string) (assignments : list (string * json))
  : gmap string json * result unit :=
  match fault with
  | Some e => (table, Raise e)
  | None =>
      let item :=
        match table !! key with
        | Some (JDict d) => d
        | _ => [ ("idempotency_token", JStr key) ]
        end in
      (<[key := JDict (set_all item assignments)]> table, Ok tt)
  end.

(** Truth value of a [str | None] argument, for [if output_prefix:]. *)
Definition truthy_str (o : option string) : bool :=
  match o with
  | Some s => negb (String.eqb s "")
  | None => false
  end.

Definition str_of (o : option string) : string :=
  match o with Some s => s | None => "" end.

(** [store_job_reference]: the whole update sits in
    [try ... except Exception], and the handler returns [False].  The
    argument [manifest_id] is only logged. *)
Definition store_job_reference (e : env) (fault : option exn) (table : gmap string json)
    (idempotency_token job_id manifest_id status : string) (output_prefix : option string)
  : gmap string json * bool :=
  let expr_values :=
    [ ("job_id", JStr job_id);
      ("status", JStr status);
      ("updated_at", JStr (utcnow_isoformat e)) ] in
  let expr_values :=
    if truthy_str output_prefix
    then expr_values ++ [ ("output_prefix", JStr (str_of output_prefix)) ]
    else expr_values in
  match update_item fault table idempotency_token expr_values with
  | (table', Ok _) => (table', true)
  | (table', Raise _) => (table', false)
  end.

(** [update_job_status] *)
Definition update_job_status (e : env) (fault : option exn) (table : gmap string json)
    (idempotency_token status : string) (job_id error_message : option string)
  : gmap string json * bool :=
  let expr_values :=
    [ ("status", JStr status);
      ("updated_at", JStr (utcnow_isoformat e)) ] in
  let expr_values :=
    if truthy_str job_id
    then expr_values ++ [ ("job_id", JStr (str_of job_id)) ]
    else expr_values in
  let expr_values :=
    if truthy_str error_message
    then expr_values ++ [ ("error_message", JStr (str_of error_message)) ]
    else expr_values in
  match update_item fault table idempotency_token expr_values with
  | (table', Ok _) => (table', true)
  | (table', Raise _) => (table', false)
  end.

(** The record of a token after both phases: the reservation made in [e],
    completed in [e'] with a job identifier, a status and possibly another
    output prefix. *)
Definition completed_item (e e' : env)
    (idempotency_token manifest_id output_prefix job_id status : string)
    (output_prefix' : option string) : json :=
  JDict [
    ("idempotency_token", JStr idempotency_token);
    ("manifest_id", JStr manifest_id);
    ("status", JStr status);
    ("output_prefix",
     JStr (if truthy_str output_prefix' then str_of output_prefix' else output_prefix));
    ("created_at", JStr (utcnow_isoformat e));
    ("ttl", JInt (now e + 604800));
    ("job_id", JStr job_id);
    ("updated_at", JStr (utcnow_isoformat e')) ].

(** The attributes that [update_job_status] may write. *)
Definition status_attribute (k : string) : bool :=
  String.eqb k "status" || String.eqb k "updated_at"
  || String.eqb k "job_id" || String.eqb k "error_message".

(** ** [shared/config.py] and [job_submitter/handler.py] *)

Module config.
(** The settings that the job submitter reads. *)
Record Settings : Type := mkSettings {
  environment : string;
  mediaconvert_role_arn : string;
  mediaconvert_queue_arn : string;
  mock_mode : bool;
  enable_h265 : bool;
  enable_dash : bool
}.
End config.

(** The part of [EpisodeMetadata] that the handler reads. *)
Record EpisodeMetadata : Type := mkEpisodeMetadata {
  series_id : string;
  season_number : Z;
  episode_number : Z
}.

(** [f"{n:0wd}"] for the [n >= 0] that the model admits. *)
Definition zero_padded (w : nat) (n : Z) : string :=
  let s := Py.str_int n in
  string_of_list_ascii (repeat "0"%char (w - String.length s)) +:+ s.

(** [EpisodeMetadata.episode_code] *)
Definition episode_code (ep : EpisodeMetadata) : string :=
  "S" +:+ zero_padded 2 (season_number ep) +:+ "E" +:+ zero_padded 3 (episode_number ep).

Definition TRANSCODE_PROFILE_VERSION : string := "v1.0".

Definition _get_queue_for_priority (priority : Z) (settings : config.Settings) : string :=
  config.mediaconvert_queue_arn settings.

(** [v.model_dump()] *)
Definition model_dump (v : ABRVariant) : json :=
  JDict [
    ("resolution", JStr (resolution v));
    ("bitrate_kbps", JInt (bitrate_kbps v));
    ("codec", JStr (VideoCodec_value (codec v)));
    ("profile", JStr (profile v));
    ("level", JStr (level v)) ].

(** [existing_job.get("status") in ("COMPLETE", "SUBMITTED", "PROGRESSING")] *)
Definition status_in_flight (existing_job : json) : bool :=
  match field "status" existing_job with
  | Some (JStr s) => existsb (String.eqb s) [ "COMPLETE"; "SUBMITTED"; "PROGRESSING" ]
  | _ => false
  end.

(** The record on which the handler answers without building anything:
    none when [force_reprocess] is set, else the record of the token when it
    has one of the three statuses.  [check_fault] is what the outside world
    decides for this read. *)
Definition idempotent_record (check_fault : option exn) (table : gmap string json)
    (idempotency_token : string) (force_reprocess : json) : option json :=
  if truthy force_reprocess then None
  else
    match check_idempotency check_fault table idempotency_token with
    | Some existing_job => if status_in_flight existing_job then Some existing_job else None
    | None => None
    end.

Definition short_metadata (manifest : TranscodeManifest) (idempotency_token : string) : json :=
  JDict [
    ("manifest_id", JStr (manifest_id manifest));
    ("idempotency_token", JStr idempotency_token) ].

Definition skipped_response (existing_job : json) (manifest : TranscodeManifest)
    (idempotency_token : string) : json :=
  JDict [
    ("skip_transcode", JBool true);
    ("mock_mode", JBool false);
    ("idempotent", JBool true);
    ("existing_job", existing_job);
    ("job_settings", JNone);
    ("job_metadata", short_metadata manifest idempotency_token);
    ("mediaconvert_role_arn", JNone);
    ("mediaconvert_queue_arn", JNone) ].

Definition existing_summary (existing_job : json) : json :=
  JDict [
    ("job_id", of_option (field "job_id" existing_job));
    ("status", of_option (field "status" existing_job));
    ("output_prefix", of_option (field "output_prefix" existing_job)) ].

Definition full_metadata (manifest : TranscodeManifest)
    (idempotency_token output_s3_prefix : string) (abr_variants : list ABRVariant) : json :=
  JDict [
    ("manifest_id", JStr (manifest_id manifest));
    ("idempotency_token", JStr idempotency_token);
    ("output_prefix", JStr output_s3_prefix);
    ("variants", JList (map model_dump abr_variants));
    ("profile_version", JStr TRANSCODE_PROFILE_VERSION) ].

Definition configured_response (settings : config.Settings) (manifest : TranscodeManifest)
    (episode : EpisodeMetadata) (idempotency_token output_s3_prefix queue_arn : string)
    (abr_variants : list ABRVariant) (job_settings : json) : json :=
  let common :=
    [ ("skip_transcode", JBool false);
      ("mock_mode", JBool (config.mock_mode settings));
      ("idempotent", JBool false);
      ("existing_job", JNone);
      ("job_settings", job_settings);
      ("job_metadata",
       full_metadata manifest idempotency_token output_s3_prefix abr_variants);
      ("mediaconvert_role_arn", JStr (config.mediaconvert_role_arn settings));
      ("mediaconvert_queue_arn", JStr queue_arn) ] in
  if config.mock_mode settings then JDict common
  else
    JDict (common ++ [
      ("user_metadata", JDict [
         ("manifest_id", JStr (manifest_id manifest));
         ("series_id", JStr (series_id episode));
         ("episode", JStr (episode_code episode));
         ("idempotency_token", JStr (take 32 idempotency_token)) ]);
      ("tags", JDict [
         ("Environment", JStr (config.environment settings));
         ("Pipeline", JStr "anime-transcoding");
         ("SeriesId", JStr (series_id episode));
         ("ManifestId", JStr (manifest_id manifest)) ]) ]).

(** The handler, from the parsed manifest on.  What the validation library
    decides is left open: [matches_s3_uri] is the test of the pattern
    [^s3://[a-z0-9-]+/.+$], [validation_error] the exception that
    [TranscodeJobRequest] raises on the arguments it rejects. *)
Section Handler.
Variable matches_s3_uri : string -> bool.
Variable validation_error : string -> string -> list ABRVariant -> exn.

(** The constraints of [TranscodeJobRequest] on what the handler passes. *)
Definition request_accepted (input_s3_uri output_s3_prefix : string)
    (abr_variants : list ABRVariant) (idempotency_token : string) : bool :=
  matches_s3_uri input_s3_uri && matches_s3_uri output_s3_prefix
  && (1 <=? length abr_variants)%nat
  && (32 <=? String.length idempotency_token)%nat
  && (String.length idempotency_token <=? 64)%nat.

Definition handler (settings : config.Settings) (check_fault : option exn) (e : env)
    (table : gmap string json) (manifest : TranscodeManifest) (episode : EpisodeMetadata)
    (input_s3_uri output_s3_prefix : string) (force_reprocess : json)
  : gmap string json * result json :=
  let idempotency_token := generate_idempotency_token manifest TRANSCODE_PROFILE_VERSION in
  match idempotent_record check_fault table idempotency_token force_reprocess with
  | Some existing_job =>
      (table,
       Ok (skipped_response (existing_summary existing_job) manifest idempotency_token))
  | None =>
      match get_abr_ladder (resolution_width (mezzanine manifest))
              (resolution_height (mezzanine manifest)) (config.enable_h265 settings) with
      | Raise err => (table, Raise err)
      | Ok abr_variants =>
          let queue_arn := _get_queue_for_priority (priority manifest) settings in
          if negb (request_accepted input_s3_uri output_s3_prefix abr_variants
                     idempotency_token)
          then (table, Raise (validation_error input_s3_uri output_s3_prefix abr_variants))
          else
            let job_request :=
              mkTranscodeJobRequest manifest input_s3_uri output_s3_prefix abr_variants
                true (config.enable_dash settings) idempotency_token in
            match build_mediaconvert_job job_request with
            | Raise err => (table, Raise err)
            | Ok job_settings =>
                match reserve_job_slot e table idempotency_token (manifest_id manifest)
                        output_s3_prefix with
                | (table', Raise err) => (table', Raise err)
                | (table', Ok reservation) =>
                    match field "reserved" reservation with
                    | None => (table', Raise (OtherException "'reserved'"))
                    | Some reserved =>
                        if negb (truthy reserved)
                        then
                          (table',
                           Ok (skipped_response
                                 (of_option (field "existing_job" reservation))
                                 manifest idempotency_token))
                        else
                          (table',
                           Ok (configured_response settings manifest episode
                                 idempotency_token output_s3_prefix queue_arn
                                 abr_variants job_settings))
                    end
                end
            end
      end
  end.
End Handler.

(** The pattern [^s3://[a-z0-9-]+/.+$] on strings without a line break:
    the bucket is what stands before the first slash. *)
Definition bucket_char (c : ascii) : bool :=
  let n := nat_of_ascii c in
  ((97 <=? n)%nat && (n <=? 122)%nat) || ((48 <=? n)%nat && (n <=? 57)%nat)
  || (n =? 45)%nat.

Fixpoint bucket_and_key (s : string) (seen : bool) : bool :=
  match s with
  | EmptyString => false
  | String c s' =>
      if Ascii.eqb c "/"
      then seen && negb (String.eqb s' "") && negb (has_char "010" s')
      else bucket_char c && bucket_and_key s' true
  end.

Definition s3_uri_pattern (s : string) : bool :=
  match s with
  | String "s" (String "3" (String ":" (String "/" (String "/" rest)))) =>
      bucket_and_key rest false
  | _ => false
  end.

Definition sample_settings : config.Settings :=
  config.mkSettings "dev" "arn:aws:iam::123456789012:role/MediaConvertRole"
    "arn:aws:mediaconvert:us-east-1:123456789012:queues/Default" false true true.

Definition sample_episode : EpisodeMetadata := mkEpisodeMetadata "attack-on-titan" 1 1.

Definition sample_validation_error (input_s3_uri output_s3_prefix : string)
    (abr_variants : list ABRVariant) : exn :=
  ValueError "validation error for TranscodeJobRequest".

(** The sample manifest for a source of 320 lines. *)
Definition low_manifest : TranscodeManifest :=
  mkTranscodeManifest "1.0" "aot-s01e01-20240115"
    (mkMezzanineInfo "mezzanines/aot_s01e01.mxf" "d41d8cd98f00b204e9800998ecf8427e"
       None 1000000 "ProRes 422 HQ" "PCM" 426 320 20000)
    (audio_tracks sample_manifest) (subtitle_tracks sample_manifest) 0 None.

(** What the handler answers when it returns a job configuration, and when
    it skips. *)
Definition is_job (resp : json) : Prop :=
  field "skip_transcode" resp = Some (JBool false)
  /\ exists job_settings, field "job_settings" resp = Some (JDict job_settings).

Definition is_skip (resp : json) : Prop :=
  field "skip_transcode" resp = Some (JBool true)
  /\ field "job_settings" resp = Some JNone.

(** A record of the sample token that reports a failed job. *)
Definition failed_record : json :=
  JDict [
    ("idempotency_token", JStr (idempotency_token sample_request));
    ("manifest_id", JStr "aot-s01e01-20240115");
    ("status", JStr "ERROR");
    ("error_message", JStr "Transcode failed") ].

(** The HLS group of the sample specification and its first video
    rendition. *)
Definition sample_hls_group : json :=
  Eval vm_compute in nth 0 (output_groups sample_spec) JNone.

Definition sample_hls_video : json :=
  Eval vm_compute in nth 0 (video_renditions sample_hls_group) JNone.

(** What an audio rendition says of the track it is built for. *)
Definition coding_mode (d : json) : option json :=
  match field "CodecSettings" d with
  | Some cs =>
      match field "AacSettings" cs with
      | Some aac => field "CodingMode" aac
      | None => None
      end
  | None => None
  end.

Definition audio_rendition_of (t : AudioTrack) (o : json) : Prop :=
  field "NameModifier" o = Some (JStr ("_audio_" +:+ a_language t))
  /\ audio_sources o = [ Some (JStr ("Audio_" +:+ a_language t)) ]
  /\ map (field "StreamName") (items (field "AudioDescriptions" o))
     = [ Some (JStr (a_label t)) ]
  /\ map coding_mode (items (field "AudioDescriptions" o))
     = [ Some (JStr (if a_channels t <=? 2 then "CODING_MODE_2_0" else "CODING_MODE_5_1")) ].

Definition rendition_names (l : list json) : list (option json) :=
  map (field "NameModifier") l.

(** ** Where the embedded built-ins are exactly Python's

    [Py.lower] is [str.lower] on ASCII strings; [Py.int] is [int] on runs
    of ASCII digits of at most [MAX_STR_DIGITS] characters, and
    [Py.str_int] is [str] on integers of at most that many digits
    (CPython's default limit for both conversions). *)
Definition is_ascii (s : string) : bool :=
  forallb (fun c => (nat_of_ascii c <? 128)%nat) (list_ascii_of_string s).

Definition MAX_STR_DIGITS : Z := 4300.

Definition str_int_defined (n : Z) : bool := Z.abs n <? 10 ^ MAX_STR_DIGITS.

Definition plain_resolution (v : ABRVariant) : bool :=
  valid_resolution (resolution v)
  && (Z.of_nat (String.length (resolution v)) <=? MAX_STR_DIGITS).

(** * Properties *)

(** ** Fallible loops *)

Lemma bind_Ok {A B : Type} (a : A) (k : A -> result B) : bind (Ok a) k = k a.
Proof. reflexivity. Qed.

Lemma mapM_Ok_map {A B : Type} (f : A -> result B) (g : A -> B) (l : list A) :
  Forall (fun x => f x = Ok (g x)) l -> mapM f l = Ok (map g l).
Proof.
  induction 1 as [|x l Hx _ IH]; simpl; [reflexivity|].
  rewrite Hx; simpl. rewrite IH; reflexivity.
Qed.

Lemma mapM_Ok_inv {A B : Type} (f : A -> result B) (l : list A) (ys : list B) :
  mapM f l = Ok ys -> Forall2 (fun x y => f x = Ok y) l ys.
Proof.
  revert ys; induction l as [|x l IH]; simpl; intros ys H.
  - inversion H; constructor.
  - destruct (f x) as [y|e] eqn:Hx; simpl in H; [|discriminate].
    destruct (mapM f l) as [ys'|e] eqn:Hl; simpl in H; [|discriminate].
    inversion H; subst. constructor; auto.
Qed.

Lemma mapM_Raise {A B : Type} (f : A -> result B) (l : list A) (x : A) :
  In x l -> is_ok (f x) = false -> is_ok (mapM f l) = false.
Proof.
  induction l as [|y l IH]; simpl; intros Hin Hx; [contradiction|].
  destruct Hin as [->|Hin].
  - destruct (f x); [discriminate|reflexivity].
  - destruct (f y); simpl; [|reflexivity].
    specialize (IH Hin Hx). destruct (mapM f l); [discriminate|reflexivity].
Qed.

(** ** Stable sorting *)

Section SortFacts.
Context {A K : Type} (lt : K -> K -> bool).

Lemma insert_sorted_perm (x : K * A) (l : list (K * A)) :
  Permutation (Py.insert_sorted lt x l) (x :: l).
Proof.
  induction l as [|y l IH]; simpl; [reflexivity|].
  destruct (lt (fst y) (fst x)); [|reflexivity].
  rewrite IH. apply perm_swap.
Qed.

Lemma sort_pairs_perm (l : list (K * A)) : Permutation (Py.sort_pairs lt l) l.
Proof.
  induction l as [|x l IH]; simpl; [reflexivity|].
  rewrite insert_sorted_perm. constructor. exact IH.
Qed.

(** On keys that [lt] orders strictly and totally, the result is sorted:
    no element is followed by one with a smaller key. *)
Variable P : K -> Prop.
Hypothesis lt_asym : forall a b, P a -> P b -> lt a b = true -> lt b a = false.
Hypothesis le_trans : forall a b c, P a -> P b -> P c ->
  lt b a = false -> lt c b = false -> lt c a = false.

Lemma insert_sorted_sorted (x : K * A) (l : list (K * A)) :
  P (fst x) -> Forall (fun y => P (fst y)) l ->
  StronglySorted (not_after lt) l ->
  StronglySorted (not_after lt) (Py.insert_sorted lt x l).
Proof.
  intros Px Pl Hs. induction Hs as [|y l Hs IH Hy]; simpl.
  - repeat constructor.
  - inversion Pl as [|? ? Hpy Pl']; subst.
    destruct (lt (fst y) (fst x)) eqn:Hyx.
    + constructor; [apply IH; assumption|].
      eapply Permutation_Forall; [apply Permutation_sym, insert_sorted_perm|].
      constructor; [|assumption].
      unfold not_after. apply lt_asym; assumption.
    + constructor; [constructor; assumption|].
      constructor; [exact Hyx|].
      rewrite List.Forall_forall in Hy, Pl' |- *. intros z Hz.
      unfold not_after in *.
      apply (le_trans (fst x) (fst y) (fst z)); auto.
Qed.

Lemma sort_pairs_sorted (l : list (K * A)) :
  Forall (fun y => P (fst y)) l -> StronglySorted (not_after lt) (Py.sort_pairs lt l).
Proof.
  induction 1 as [|x l Px Pl IH]; simpl; [constructor|].
  apply insert_sorted_sorted; auto.
  eapply Permutation_Forall; [apply Permutation_sym, sort_pairs_perm|]. exact Pl.
Qed.
End SortFacts.

(** ** The ABR ladder *)

Lemma candidates_heights : Forall (fun v => is_ok (height v) = true) candidates.
Proof. repeat constructor. Qed.

Lemma append_if_fits_loop (source_height : Z) (tbl acc : list ABRVariant) :
  Forall (fun v => is_ok (height v) = true) tbl ->
  foldM (append_if_fits source_height) acc tbl
  = Ok (acc ++ List.filter (fits source_height) tbl).
Proof.
  intros H; revert acc; induction H as [|v tbl Hv _ IH]; intros acc; simpl.
  - rewrite app_nil_r; reflexivity.
  - unfold append_if_fits at 1, fits at 1.
    destruct (height v) as [h|e]; [|discriminate]; simpl.
    rewrite IH. destruct (h <=? source_height); [|reflexivity].
    rewrite <- app_assoc; reflexivity.
Qed.

Lemma ladder_key_ok (v : ABRVariant) :
  is_ok (height v) = true -> ladder_key v = Ok (ladder_key_of v).
Proof.
  unfold ladder_key, ladder_key_of. destruct (height v); [reflexivity|discriminate].
Qed.

Lemma selected_filter (source_height : Z) (enable_h265 : bool) :
  selected source_height enable_h265
  = List.filter (fun v => fits source_height v && (is_h264 v || enable_h265)) candidates.
Proof.
  unfold selected, candidates. rewrite List.filter_app. f_equal.
  - apply List.filter_ext_in. intros v Hv.
    assert (is_h264 v = true) as ->.
    { simpl in Hv; intuition (subst; reflexivity). }
    rewrite andb_true_r; reflexivity.
  - transitivity (List.filter (fun v => fits source_height v && enable_h265) ABR_LADDER_H265).
    + destruct enable_h265.
      * apply List.filter_ext. intros v. rewrite andb_true_r; reflexivity.
      * induction ABR_LADDER_H265 as [|v l IH]; [reflexivity|].
        simpl. rewrite andb_false_r. exact IH.
    + apply List.filter_ext_in. intros v Hv.
      assert (is_h264 v = false) as ->.
      { simpl in Hv; intuition (subst; reflexivity). }
      reflexivity.
Qed.

Lemma selected_In (source_height : Z) (enable_h265 : bool) (v : ABRVariant) :
  In v (selected source_height enable_h265)
  <-> In v candidates /\ fits source_height v = true /\ admitted enable_h265 v.
Proof.
  rewrite selected_filter, List.filter_In, andb_true_iff, orb_true_iff.
  unfold admitted, is_h264.
  split.
  - intros (Hin & Hfit & Hc). repeat split; auto.
    destruct Hc as [Hc| ->].
    + left. destruct (codec v); [reflexivity|discriminate].
    + destruct (codec v); [left|right]; auto.
  - intros (Hin & Hfit & Hc). repeat split; auto.
    destruct Hc as [->|[_ ->]]; auto.
Qed.

Lemma selected_heights (source_height : Z) (enable_h265 : bool) :
  Forall (fun v => is_ok (height v) = true) (selected source_height enable_h265).
Proof.
  apply List.Forall_forall. intros v Hv. apply selected_In in Hv as (Hin & _).
  exact (proj1 (List.Forall_forall _ _) candidates_heights v Hin).
Qed.

Lemma map_snd_keyed (l : list ABRVariant) : map snd (map keyed l) = l.
Proof. rewrite map_map. apply map_id. Qed.

(** What [get_abr_ladder] returns: the selected variants, sorted on their
    keys.  It never raises. *)
Lemma get_abr_ladder_eq (source_width source_height : Z) (enable_h265 : bool) :
  get_abr_ladder source_width source_height enable_h265
  = Ok (map snd (Py.sort_pairs key_lt (map keyed (selected source_height enable_h265)))).
Proof.
  pose proof candidates_heights as Hc. unfold candidates in Hc.
  apply Forall_app in Hc as [H4 H5].
  pose proof (selected_heights source_height enable_h265) as Hs.
  unfold get_abr_ladder.
  rewrite (append_if_fits_loop _ _ _ H4), bind_Ok, app_nil_l.
  assert (Hsel : (if enable_h265
                  then foldM (append_if_fits source_height)
                         (List.filter (fits source_height) ABR_LADDER_H264) ABR_LADDER_H265
                  else Ok (List.filter (fits source_height) ABR_LADDER_H264))
                 = Ok (selected source_height enable_h265)).
  { unfold selected. destruct enable_h265.
    - apply append_if_fits_loop; exact H5.
    - rewrite app_nil_r; reflexivity. }
  rewrite Hsel, bind_Ok.
  unfold sort_by_key.
  rewrite (mapM_Ok_map _ keyed); [reflexivity|].
  eapply List.Forall_impl; [|exact Hs].
  intros v Hv; simpl in Hv. rewrite (ladder_key_ok v Hv). reflexivity.
Qed.

Lemma ladder_In (source_height : Z) (enable_h265 : bool) (v : ABRVariant) :
  In v (map snd (Py.sort_pairs key_lt (map keyed (selected source_height enable_h265))))
  <-> In v (selected source_height enable_h265).
Proof.
  pose proof (Permutation_map snd
    (sort_pairs_perm key_lt (map keyed (selected source_height enable_h265)))) as Hp.
  rewrite map_snd_keyed in Hp.
  split; intros H.
  - eapply Permutation_in; [exact Hp|exact H].
  - eapply Permutation_in; [apply Permutation_sym; exact Hp|exact H].
Qed.

Lemma fits_spec (source_height : Z) (v : ABRVariant) :
  fits source_height v = true <-> exists h, height v = Ok h /\ h <= source_height.
Proof.
  unfold fits. destruct (height v) as [h|e].
  - rewrite Z.leb_le. split.
    + intros H; exists h; auto.
    + intros (h' & Heq & Hle). inversion Heq; subst; exact Hle.
  - split; [discriminate|]. intros (h' & Heq & _); discriminate.
Qed.

(** C3. For every source size and every setting of [enable_h265],
    [get_abr_ladder] returns a list that contains a candidate variant of the
    policy tables if and only if the height of the variant is at most the
    source height and its codec is H.264, or H.265 with [enable_h265] set;
    whatever it returns is a candidate whose height is at most the source
    height. *)
Theorem get_abr_ladder_membership
    (source_width source_height : Z) (enable_h265 : bool) :
  exists ladder,
    get_abr_ladder source_width source_height enable_h265 = Ok ladder
    /\ (forall v, In v candidates ->
          (In v ladder <->
           (exists h, height v = Ok h /\ h <= source_height) /\ admitted enable_h265 v))
    /\ (forall v, In v ladder ->
          In v candidates /\ exists h, height v = Ok h /\ h <= source_height).
Proof.
  eexists; split; [apply get_abr_ladder_eq|]. split.
  - intros v Hv. rewrite ladder_In, selected_In, fits_spec. tauto.
  - intros v Hv. rewrite ladder_In, selected_In, fits_spec in Hv. tauto.
Qed.

(** *** Order of the ladder *)

Lemma key_lt_asym (a b : Z * string) :
  codec_key a -> codec_key b -> key_lt a b = true -> key_lt b a = false.
Proof.
  destruct a as [a1 a2], b as [b1 b2]; unfold codec_key, key_lt; simpl.
  intros [-> | ->] [-> | ->];
    repeat match goal with
           | |- context [String.ltb ?x ?y] =>
               let r := eval vm_compute in (String.ltb x y) in
               change (String.ltb x y) with r
           end;
    rewrite ?andb_true_r, ?andb_false_r, ?orb_false_r;
    destruct (Z.ltb_spec a1 b1), (Z.ltb_spec b1 a1), (Z.eqb_spec a1 b1),
             (Z.eqb_spec b1 a1); simpl; intros; try reflexivity; try discriminate; lia.
Qed.

Lemma key_le_trans (a b c : Z * string) :
  codec_key a -> codec_key b -> codec_key c ->
  key_lt b a = false -> key_lt c b = false -> key_lt c a = false.
Proof.
  destruct a as [a1 a2], b as [b1 b2], c as [c1 c2]; unfold codec_key, key_lt; simpl.
  intros [-> | ->] [-> | ->] [-> | ->];
    repeat match goal with
           | |- context [String.ltb ?x ?y] =>
               let r := eval vm_compute in (String.ltb x y) in
               change (String.ltb x y) with r
           end;
    rewrite ?andb_true_r, ?andb_false_r, ?orb_false_r;
    destruct (Z.ltb_spec b1 a1), (Z.ltb_spec c1 b1), (Z.ltb_spec c1 a1),
             (Z.eqb_spec b1 a1), (Z.eqb_spec c1 b1), (Z.eqb_spec c1 a1);
    simpl; intros; try reflexivity; try discriminate; lia.
Qed.

Lemma ladder_key_of_codec_key (v : ABRVariant) :
  is_ok (height v) = true -> codec_key (ladder_key_of v).
Proof.
  unfold ladder_key_of, codec_key. destruct (height v); [|discriminate].
  intros _; simpl. destruct (codec v); auto.
Qed.

Lemma NoDup_map_filter {A B : Type} (f : A -> B) (p : A -> bool) (l : list A) :
  List.NoDup (map f l) -> List.NoDup (map f (List.filter p l)).
Proof.
  induction l as [|x l IH]; simpl; intros H; [constructor|].
  inversion H as [|? ? Hx Hl]; subst.
  destruct (p x); simpl; [|auto].
  constructor; [|auto].
  intros Hin. apply Hx. apply in_map_iff in Hin as (y & Hy & Hin).
  apply List.filter_In in Hin as [Hin _]. apply in_map_iff. eauto.
Qed.

Lemma candidates_keys_NoDup : List.NoDup (map ladder_key_of candidates).
Proof.
  vm_compute. repeat constructor; simpl; intuition discriminate.
Qed.

(** Sorted on pairwise distinct keys means sorted on [precedes]. *)
Lemma sorted_keys_precedes (ps : list ((Z * string) * ABRVariant)) :
  StronglySorted (not_after key_lt) ps ->
  List.NoDup (map fst ps) ->
  Forall (fun p => fst p = ladder_key_of (snd p) /\ is_ok (height (snd p)) = true) ps ->
  StronglySorted precedes (map snd ps).
Proof.
  induction 1 as [|x ps Hs IH Hx]; simpl; intros Hnd Hk; [constructor|].
  inversion Hnd as [|? ? Hnot Hnd']; subst.
  inversion Hk as [|? ? [Hkx Hhx] Hk']; subst.
  constructor; [auto|].
  apply List.Forall_forall. intros b Hb.
  apply in_map_iff in Hb as (y & <- & Hy).
  pose proof (proj1 (List.Forall_forall _ _) Hx y Hy) as Hxy.
  pose proof (proj1 (List.Forall_forall _ _) Hk' y Hy) as [Hky Hhy].
  assert (Hne : fst y <> fst x).
  { intros Heq. apply Hnot. rewrite <- Heq. apply in_map. exact Hy. }
  unfold not_after in Hxy. rewrite Hkx, Hky in Hxy, Hne.
  unfold ladder_key_of in Hxy, Hne. unfold precedes.
  destruct (height (snd x)) as [hx|] eqn:Ex; [|discriminate].
  destruct (height (snd y)) as [hy|] eqn:Ey; [|discriminate].
  exists hx, hy. repeat split.
  unfold key_lt in Hxy; simpl in Hxy.
  apply orb_false_iff in Hxy as [H1 H2].
  apply Z.ltb_ge in H1.
  destruct (Z.eq_dec hx hy) as [->|Hd]; [right|left; lia].
  rewrite Z.eqb_refl in H2; simpl in H2.
  destruct (codec (snd x)), (codec (snd y)); simpl in *;
    try discriminate; try (exfalso; apply Hne; reflexivity); auto.
Qed.

(** C4. For every input, the list returned by [get_abr_ladder] is sorted:
    each variant is followed only by variants of a strictly smaller height,
    or by the H.265 variant of its own height when it is the H.264 one. *)
Theorem get_abr_ladder_sorted
    (source_width source_height : Z) (enable_h265 : bool) :
  exists ladder,
    get_abr_ladder source_width source_height enable_h265 = Ok ladder
    /\ StronglySorted precedes ladder.
Proof.
  eexists; split; [apply get_abr_ladder_eq|].
  set (sel := selected source_height enable_h265).
  assert (Hh : Forall (fun v => is_ok (height v) = true) sel)
    by apply selected_heights.
  apply sorted_keys_precedes.
  - apply sort_pairs_sorted with (P := codec_key).
    + apply key_lt_asym.
    + apply key_le_trans.
    + apply List.Forall_forall. intros p Hp.
      apply in_map_iff in Hp as (v & <- & Hv). simpl.
      apply ladder_key_of_codec_key.
      exact (proj1 (List.Forall_forall _ _) Hh v Hv).
  - eapply Permutation_NoDup.
    + apply Permutation_sym, Permutation_map, sort_pairs_perm.
    + rewrite map_map; simpl. unfold sel. rewrite selected_filter.
      apply NoDup_map_filter, candidates_keys_NoDup.
  - eapply Permutation_Forall; [apply Permutation_sym, sort_pairs_perm|].
    apply List.Forall_forall. intros p Hp.
    apply in_map_iff in Hp as (v & <- & Hv). simpl. split; [reflexivity|].
    exact (proj1 (List.Forall_forall _ _) Hh v Hv).
Qed.

(** ** Codec profiles *)

(** C10. A profile whose lower-cased form is not a key of the mapping
    table is formatted as the default: ["HIGH"] for H.264, ["MAIN_MAIN"]
    for H.265.  Both functions are total: nothing is raised. *)
Theorem format_profile_default (profile : string) :
  (Py.contains h264_profile_map (Py.lower profile) = false ->
   _format_h264_profile profile = "HIGH")
  /\ (Py.contains h265_profile_map (Py.lower profile) = false ->
      _format_h265_profile profile = "MAIN_MAIN").
Proof.
  unfold _format_h264_profile, _format_h265_profile, Py.get_default, Py.contains.
  split; intros H.
  - destruct (Py.get h264_profile_map (Py.lower profile)); [discriminate|reflexivity].
  - destruct (Py.get h265_profile_map (Py.lower profile)); [discriminate|reflexivity].
Qed.

Lemma format_profile_default_witness :
  _format_h264_profile "Extended" = "HIGH"
  /\ _format_h265_profile "Extended" = "MAIN_MAIN".
Proof.
  split.
  - apply (proj1 (format_profile_default "Extended")). reflexivity.
  - apply (proj2 (format_profile_default "Extended")). reflexivity.
Defined.

(** ** The job specification *)

Lemma mapM_Raise_inv {A B : Type} (f : A -> result B) (l : list A) (e : exn) :
  mapM f l = Raise e -> exists x, In x l /\ f x = Raise e.
Proof.
  induction l as [|x l IH]; simpl; [discriminate|].
  destruct (f x) as [y|e'] eqn:Hx; simpl.
  - destruct (mapM f l) as [ys|e'']; simpl; [discriminate|].
    intros [= <-]. destruct (IH eq_refl) as (z & Hz & Hfz). eauto.
  - intros [= <-]. eauto.
Qed.

Lemma mapM_length {A B : Type} (f : A -> result B) (l : list A) (ys : list B) :
  mapM f l = Ok ys -> length ys = length l.
Proof.
  intros H. apply mapM_Ok_inv in H. symmetry. eapply Forall2_length; eassumption.
Qed.

Lemma mapM_Forall {A B : Type} (f : A -> result B) (Q : B -> Prop) (l : list A)
    (ys : list B) :
  (forall x y, In x l -> f x = Ok y -> Q y) -> mapM f l = Ok ys -> Forall Q ys.
Proof.
  intros HQ H. apply mapM_Ok_inv in H.
  induction H as [|x y l ys Hxy _ IH]; constructor.
  - apply (HQ x); [left; reflexivity|exact Hxy].
  - apply IH. intros x' y' Hin. apply HQ. right; exact Hin.
Qed.

Lemma filter_all {A : Type} (p : A -> bool) (l : list A) :
  Forall (fun x => p x = true) l -> List.filter p l = l.
Proof.
  induction 1 as [|x l Hx _ IH]; simpl; [reflexivity|]. rewrite Hx, IH; reflexivity.
Qed.

Lemma filter_none {A : Type} (p : A -> bool) (l : list A) :
  Forall (fun x => p x = false) l -> List.filter p l = [].
Proof.
  induction 1 as [|x l Hx _ IH]; simpl; [reflexivity|]. rewrite Hx; exact IH.
Qed.

Lemma hls_video_output_shape r v o :
  _build_hls_video_output r v = Ok o ->
  is_video o /\ rendition_codec o = Some (JStr (codec_name (codec v))).
Proof.
  unfold _build_hls_video_output.
  destruct (name v); [|discriminate]. destruct (width v); [|discriminate].
  destruct (height v); [|discriminate].
  destruct (mapM video_audio_description _); [|discriminate].
  simpl. intros [= <-]. unfold is_video, calculate_qvbr_settings.
  destruct (codec v); repeat split; reflexivity.
Qed.

Lemma dash_video_output_shape r v o :
  _build_dash_video_output r v = Ok o ->
  is_video o /\ rendition_codec o = Some (JStr (codec_name (codec v))).
Proof.
  unfold _build_dash_video_output.
  destruct (name v); [|discriminate]. destruct (width v); [|discriminate].
  destruct (height v); [|discriminate].
  simpl. intros [= <-]. unfold is_video, calculate_qvbr_settings.
  destruct (codec v); repeat split; reflexivity.
Qed.

Lemma hls_audio_output_shape r t o : _build_hls_audio_output r t = Ok o -> is_audio o.
Proof.
  unfold _build_hls_audio_output. destruct (audio_description t); [|discriminate].
  simpl. intros [= <-]. repeat split; reflexivity.
Qed.

Lemma dash_audio_output_shape r t o : _build_dash_audio_output r t = Ok o -> is_audio o.
Proof.
  unfold _build_dash_audio_output. destruct (audio_description t); [|discriminate].
  simpl. intros [= <-]. repeat split; reflexivity.
Qed.

Lemma hls_caption_output_shape r t o : _build_hls_caption_output r t = Ok o -> is_caption o.
Proof.
  unfold _build_hls_caption_output. destruct (_get_iso_639_2_code _); [|discriminate].
  simpl. intros [= <-]. repeat split; reflexivity.
Qed.

(** The contents of a built HLS group. *)
Lemma hls_group_outputs r vs g :
  _build_hls_output_group r vs = Ok g ->
  exists video audio captions,
    mapM (_build_hls_video_output r) vs = Ok video
    /\ mapM (_build_hls_audio_output r) (audio_tracks (manifest r)) = Ok audio
    /\ mapM (_build_hls_caption_output r) (subtitle_tracks (manifest r)) = Ok captions
    /\ group_name g = Some (JStr "HLS")
    /\ outputs g = video ++ audio ++ captions.
Proof.
  unfold _build_hls_output_group.
  destruct (mapM (_build_hls_video_output r) vs) as [video|]; [|discriminate].
  destruct (mapM (_build_hls_audio_output r) _) as [audio|]; [|discriminate].
  destruct (mapM (_build_hls_caption_output r) _) as [captions|]; [|discriminate].
  rewrite !bind_Ok.
  match goal with |- bind ?m _ = _ -> _ => destruct m as [settings|] end;
    [|discriminate].
  rewrite bind_Ok. intros [= <-].
  exists video, audio, captions. repeat split; reflexivity.
Qed.

Lemma dash_group_outputs r vs g :
  _build_dash_output_group r vs = Ok g ->
  exists video audio,
    mapM (_build_dash_video_output r) vs = Ok video
    /\ mapM (_build_dash_audio_output r) (audio_tracks (manifest r)) = Ok audio
    /\ group_name g = Some (JStr "DASH")
    /\ outputs g = video ++ audio.
Proof.
  unfold _build_dash_output_group.
  destruct (mapM (_build_dash_video_output r) vs) as [video|]; [|discriminate].
  destruct (mapM (_build_dash_audio_output r) _) as [audio|]; [|discriminate].
  rewrite !bind_Ok. intros [= <-].
  exists video, audio. repeat split; reflexivity.
Qed.

Lemma build_output_groups_inv r groups :
  build_output_groups r = Ok groups ->
  exists hls dash,
    groups = hls ++ dash
    /\ (if hls_emitted r
        then exists g, hls = [g]
             /\ _build_hls_output_group r (List.filter is_h264 (abr_variants r)) = Ok g
        else hls = [])
    /\ (if dash_emitted r
        then exists g, dash = [g]
             /\ _build_dash_output_group r
                  (List.filter is_h264 (abr_variants r)
                   ++ List.filter is_h265 (abr_variants r)) = Ok g
        else dash = []).
Proof.
  unfold build_output_groups, hls_emitted, dash_emitted.
  set (h264 := List.filter is_h264 (abr_variants r)).
  set (h265 := List.filter is_h265 (abr_variants r)).
  intros H.
  assert (Hhls : exists hls,
    (match output_hls r, h264 with
     | true, _ :: _ =>
         let* g := _build_hls_output_group r h264 in Ok ([] ++ [g])
     | _, _ => Ok []
     end) = Ok hls
    /\ (if output_hls r && match h264 with [] => false | _ => true end
        then exists g, hls = [g] /\ _build_hls_output_group r h264 = Ok g
        else hls = [])).
  { destruct (output_hls r), h264 as [|v vs]; simpl in *; eauto.
    destruct (_build_hls_output_group r (v :: vs)) as [g|]; [|discriminate].
    simpl. eauto. }
  destruct Hhls as (hls & Hh & Hhls). rewrite Hh, bind_Ok in H.
  exists hls.
  destruct (output_dash r); simpl in *.
  - destruct (h264 ++ h265) as [|v vs] eqn:Hall.
    + simpl in H. inversion H; subst. exists []. rewrite app_nil_r. auto.
    + destruct (_build_dash_output_group r (v :: vs)) as [g|]; [|discriminate].
      simpl in H. inversion H; subst. exists [g]. eauto.
  - inversion H; subst. exists []. rewrite app_nil_r. auto.
Qed.

Lemma build_mediaconvert_job_inv r spec :
  build_mediaconvert_job r = Ok spec ->
  exists groups,
    build_output_groups r = Ok groups
    /\ inputs spec = [_build_input r]
    /\ output_groups spec = groups.
Proof.
  unfold build_mediaconvert_job.
  destruct (build_output_groups r) as [groups|]; [|discriminate].
  rewrite bind_Ok. intros [= <-]. exists groups. repeat split; reflexivity.
Qed.

(** *** Valid requests are built *)

Lemma mapM_is_ok {A B : Type} (f : A -> result B) (l : list A) :
  Forall (fun x => is_ok (f x) = true) l -> is_ok (mapM f l) = true.
Proof.
  induction 1 as [|x l Hx _ IH]; simpl; [reflexivity|].
  destruct (f x); [|discriminate]. simpl.
  destruct (mapM f l); [reflexivity|discriminate].
Qed.

Lemma is_ok_true {A : Type} (m : result A) : is_ok m = true -> exists a, m = Ok a.
Proof. destruct m; [eauto|discriminate]. Qed.

Lemma digits_value_all_digits (l : string) (acc : Z) :
  forallb Py.is_digit (list_ascii_of_string l) = true ->
  exists n, Py.digits_value acc l = Some n.
Proof.
  revert acc; induction l as [|c l IH]; simpl; intros acc H; [eauto|].
  apply andb_true_iff in H as [Hc Hl]. rewrite Hc. apply IH; exact Hl.
Qed.

Lemma int_all_digits (s : string) : all_digits s = true -> exists n, Py.int s = Ok n.
Proof.
  unfold all_digits, Py.int. destruct s as [|c s]; [discriminate|].
  intros H. destruct (digits_value_all_digits (String c s) 0 H) as [n Hn].
  rewrite Hn. eauto.
Qed.

Lemma valid_variant_parses (v : ABRVariant) :
  valid_variant v = true ->
  exists n w h, name v = Ok n /\ width v = Ok w /\ height v = Ok h.
Proof.
  unfold valid_variant, valid_resolution, name, width, height.
  intros H. apply andb_true_iff in H as [H _]. apply andb_true_iff in H as [H _].
  destruct (Py.split "x" (resolution v)) as [|w [|h [|? ?]]]; try discriminate.
  apply andb_true_iff in H as [Hw Hh].
  destruct (int_all_digits w Hw) as [nw Ew], (int_all_digits h Hh) as [nh Eh].
  unfold Py.getitem; simpl. rewrite Ew, Eh; simpl.
  do 3 eexists; repeat split; reflexivity.
Qed.

Lemma is_member_inv {A : Type} (value : A -> string) (members : list A) (s : string) :
  is_member value members s = true -> exists m, In m members /\ s = value m.
Proof.
  unfold is_member. intros H. apply existsb_exists in H as (m & Hm & He).
  apply String.eqb_eq in He. eauto.
Qed.

Lemma audio_language_supported (s : string) :
  is_member AudioLanguage_value AudioLanguage_members s = true ->
  is_ok (_get_iso_639_2_code s) = true.
Proof.
  intros H. apply is_member_inv in H as (m & _ & ->). destruct m; reflexivity.
Qed.

Lemma subtitle_language_supported (s : string) :
  is_member SubtitleLanguage_value SubtitleLanguage_members s = true ->
  is_ok (_get_iso_639_2_code s) = true.
Proof.
  intros H. apply is_member_inv in H as (m & _ & ->). destruct m; reflexivity.
Qed.

Lemma valid_request_buildable (r : TranscodeJobRequest) :
  valid_request r = true -> buildable r.
Proof.
  unfold valid_request, valid_manifest. intros H.
  repeat (apply andb_true_iff in H as [H ?]).
  repeat split.
  - apply List.Forall_forall. apply forallb_forall. assumption.
  - apply List.Forall_forall. intros t Ht.
    match goal with
    | Ha : forallb valid_audio_track _ = true |- _ =>
        pose proof (proj1 (forallb_forall _ _) Ha t Ht) as Hv
    end.
    unfold valid_audio_track in Hv. repeat (apply andb_true_iff in Hv as [Hv ?]).
    apply audio_language_supported; exact Hv.
  - apply List.Forall_forall. intros t Ht.
    match goal with
    | Hs : forallb valid_subtitle_track _ = true |- _ =>
        pose proof (proj1 (forallb_forall _ _) Hs t Ht) as Hv
    end.
    unfold valid_subtitle_track in Hv. apply andb_true_iff in Hv as [Hv _].
    apply subtitle_language_supported; exact Hv.
Qed.

Lemma audio_description_ok (t : AudioTrack) :
  translatable (a_language t) = true ->
  is_ok (audio_description t) = true /\ is_ok (video_audio_description t) = true.
Proof.
  unfold translatable, audio_description, video_audio_description.
  destruct (_get_iso_639_2_code (a_language t)); [split; reflexivity|discriminate].
Qed.

Lemma Forall_filter {A : Type} (P : A -> Prop) (p : A -> bool) (l : list A) :
  Forall P l -> Forall P (List.filter p l).
Proof.
  intros H. apply List.Forall_forall. intros x Hx.
  apply List.filter_In in Hx as [Hx _].
  exact (proj1 (List.Forall_forall _ _) H x Hx).
Qed.

Lemma hls_group_ok (r : TranscodeJobRequest) (vs : list ABRVariant) :
  Forall (fun v => valid_variant v = true) vs ->
  Forall (fun t => translatable (a_language t) = true) (audio_tracks (manifest r)) ->
  Forall (fun t => translatable (s_language t) = true) (subtitle_tracks (manifest r)) ->
  is_ok (_build_hls_output_group r vs) = true.
Proof.
  intros Hv Ha Hs. unfold _build_hls_output_group.
  assert (Hvideo : is_ok (mapM (_build_hls_video_output r) vs) = true).
  { apply mapM_is_ok. eapply List.Forall_impl; [|exact Hv].
    intros v Hvv. destruct (valid_variant_parses v Hvv) as (n & w & h & En & Ew & Eh).
    unfold _build_hls_video_output. rewrite En, Ew, Eh, !bind_Ok.
    assert (Hm : is_ok (mapM video_audio_description (audio_tracks (manifest r))) = true).
    { apply mapM_is_ok. eapply List.Forall_impl; [|exact Ha].
      intros t Ht. apply audio_description_ok; exact Ht. }
    apply is_ok_true in Hm as [a ->]. reflexivity. }
  assert (Haudio : is_ok (mapM (_build_hls_audio_output r) (audio_tracks (manifest r))) = true).
  { apply mapM_is_ok. eapply List.Forall_impl; [|exact Ha].
    intros t Ht. unfold _build_hls_audio_output.
    destruct (audio_description_ok t Ht) as [Hd _].
    apply is_ok_true in Hd as [d ->]. reflexivity. }
  assert (Hcap : is_ok (mapM (_build_hls_caption_output r) (subtitle_tracks (manifest r))) = true).
  { apply mapM_is_ok. eapply List.Forall_impl; [|exact Hs].
    intros t Ht. unfold _build_hls_caption_output. unfold translatable in Ht.
    apply is_ok_true in Ht as [c ->]. reflexivity. }
  apply is_ok_true in Hvideo as [video ->].
  apply is_ok_true in Haudio as [audio ->].
  apply is_ok_true in Hcap as [captions ->].
  rewrite !bind_Ok.
  destruct (subtitle_tracks (manifest r)) as [|t ts] eqn:Est; [reflexivity|].
  assert (Hmap : is_ok (mapM caption_language_mapping (enumerate 0 (t :: ts))) = true).
  { apply mapM_is_ok. generalize 0. revert Hs. generalize (t :: ts).
    induction 1 as [|t' ts' Ht' _ IH]; intros n; simpl; constructor.
    - unfold caption_language_mapping; simpl. unfold translatable in Ht'.
      apply is_ok_true in Ht' as [c ->]. reflexivity.
    - apply IH. }
  apply is_ok_true in Hmap as [mappings ->]. reflexivity.
Qed.

Lemma dash_group_ok (r : TranscodeJobRequest) (vs : list ABRVariant) :
  Forall (fun v => valid_variant v = true) vs ->
  Forall (fun t => translatable (a_language t) = true) (audio_tracks (manifest r)) ->
  is_ok (_build_dash_output_group r vs) = true.
Proof.
  intros Hv Ha. unfold _build_dash_output_group.
  assert (Hvideo : is_ok (mapM (_build_dash_video_output r) vs) = true).
  { apply mapM_is_ok. eapply List.Forall_impl; [|exact Hv].
    intros v Hvv. destruct (valid_variant_parses v Hvv) as (n & w & h & En & Ew & Eh).
    unfold _build_dash_video_output. rewrite En, Ew, Eh. reflexivity. }
  assert (Haudio : is_ok (mapM (_build_dash_audio_output r) (audio_tracks (manifest r))) = true).
  { apply mapM_is_ok. eapply List.Forall_impl; [|exact Ha].
    intros t Ht. unfold _build_dash_audio_output.
    destruct (audio_description_ok t Ht) as [Hd _].
    apply is_ok_true in Hd as [d ->]. reflexivity. }
  apply is_ok_true in Hvideo as [video ->].
  apply is_ok_true in Haudio as [audio ->]. reflexivity.
Qed.

Lemma buildable_is_built (r : TranscodeJobRequest) :
  buildable r -> is_ok (build_mediaconvert_job r) = true.
Proof.
  intros (Hv & Ha & Hs).
  unfold build_mediaconvert_job, build_output_groups.
  set (h264 := List.filter is_h264 (abr_variants r)).
  set (h265 := List.filter is_h265 (abr_variants r)).
  assert (H4 : Forall (fun v => valid_variant v = true) h264) by (apply Forall_filter; exact Hv).
  assert (H5 : Forall (fun v => valid_variant v = true) h265) by (apply Forall_filter; exact Hv).
  assert (Hhls : is_ok (_build_hls_output_group r h264) = true) by (apply hls_group_ok; assumption).
  assert (Hdash : is_ok (_build_dash_output_group r (h264 ++ h265)) = true).
  { apply dash_group_ok; [apply Forall_app; split|]; assumption. }
  apply is_ok_true in Hhls as [ghls Hhls].
  apply is_ok_true in Hdash as [gdash Hdash].
  destruct (output_hls r), h264 as [|v vs]; simpl;
    rewrite ?Hhls; simpl;
    destruct (output_dash r); simpl; try reflexivity;
    simpl in Hdash;
    destruct h265; simpl in *; rewrite ?Hdash; reflexivity.
Qed.

Theorem valid_request_is_built (r : TranscodeJobRequest) :
  valid_request r = true -> is_ok (build_mediaconvert_job r) = true.
Proof. intros H. apply buildable_is_built, valid_request_buildable, H. Qed.

(** *** What the output groups contain *)

Lemma outputs_partition (video audio captions : list json) :
  Forall is_video video -> Forall is_audio audio -> Forall is_caption captions ->
  List.filter is_video_rendition (video ++ audio ++ captions) = video
  /\ List.filter is_audio_rendition (video ++ audio ++ captions) = audio
  /\ List.filter is_caption_rendition (video ++ audio ++ captions) = captions.
Proof.
  intros Hv Ha Hc. rewrite !List.filter_app.
  repeat split.
  - rewrite (filter_all _ video), (filter_none _ audio), (filter_none _ captions).
    + rewrite !app_nil_r; reflexivity.
    + eapply List.Forall_impl; [|exact Hc]. intros o H; apply H.
    + eapply List.Forall_impl; [|exact Ha]. intros o H; apply H.
    + eapply List.Forall_impl; [|exact Hv]. intros o H; apply H.
  - rewrite (filter_none _ video), (filter_all _ audio), (filter_none _ captions).
    + rewrite app_nil_r; reflexivity.
    + eapply List.Forall_impl; [|exact Hc]. intros o H; apply H.
    + eapply List.Forall_impl; [|exact Ha]. intros o H; apply H.
    + eapply List.Forall_impl; [|exact Hv]. intros o H; apply H.
  - rewrite (filter_none _ video), (filter_none _ audio), (filter_all _ captions).
    + reflexivity.
    + eapply List.Forall_impl; [|exact Hc]. intros o H; apply H.
    + eapply List.Forall_impl; [|exact Ha]. intros o H; apply H.
    + eapply List.Forall_impl; [|exact Hv]. intros o H; apply H.
Qed.

Lemma rendition_codec_none (o : json) :
  is_video_rendition o = false -> rendition_codec o = None.
Proof.
  unfold is_video_rendition, has_field, rendition_codec.
  destruct (field "VideoDescription" o); [discriminate|reflexivity].
Qed.

Lemma hls_group_contents r vs g :
  _build_hls_output_group r vs = Ok g ->
  group_name g = Some (JStr "HLS")
  /\ Forall2 renders vs (video_renditions g)
  /\ length (audio_renditions g) = length (audio_tracks (manifest r))
  /\ length (caption_renditions g) = length (subtitle_tracks (manifest r))
  /\ (forall o, In o (outputs g) ->
        In o (video_renditions g) \/ rendition_codec o = None).
Proof.
  intros H. apply hls_group_outputs in H
    as (video & audio & captions & Hv & Ha & Hc & Hname & Hout).
  assert (Fv : Forall2 renders vs video).
  { apply mapM_Ok_inv in Hv. eapply Forall2_impl; [exact Hv|].
    intros v o Hvo. eapply hls_video_output_shape; exact Hvo. }
  assert (Fv' : Forall is_video video).
  { eapply (mapM_Forall _ is_video); [|exact Hv].
    intros v o _ Hvo. eapply hls_video_output_shape; exact Hvo. }
  assert (Fa : Forall is_audio audio).
  { eapply (mapM_Forall _ is_audio); [|exact Ha].
    intros t o _ Hto. eapply hls_audio_output_shape; exact Hto. }
  assert (Fc : Forall is_caption captions).
  { eapply (mapM_Forall _ is_caption); [|exact Hc].
    intros t o _ Hto. eapply hls_caption_output_shape; exact Hto. }
  destruct (outputs_partition video audio captions Fv' Fa Fc) as (Pv & Pa & Pc).
  unfold video_renditions, audio_renditions, caption_renditions.
  rewrite Hout, Pv, Pa, Pc.
  repeat split; auto.
  - eapply mapM_length; exact Ha.
  - eapply mapM_length; exact Hc.
  - intros o Ho. apply in_app_or in Ho as [Ho|Ho]; [left; exact Ho|right].
    apply rendition_codec_none.
    apply in_app_or in Ho as [Ho|Ho].
    + apply (proj1 (List.Forall_forall _ _) Fa o Ho).
    + apply (proj1 (List.Forall_forall _ _) Fc o Ho).
Qed.

Lemma dash_group_contents r vs g :
  _build_dash_output_group r vs = Ok g ->
  group_name g = Some (JStr "DASH")
  /\ Forall2 renders vs (video_renditions g)
  /\ length (audio_renditions g) = length (audio_tracks (manifest r))
  /\ caption_renditions g = [].
Proof.
  intros H. apply dash_group_outputs in H as (video & audio & Hv & Ha & Hname & Hout).
  assert (Fv : Forall2 renders vs video).
  { apply mapM_Ok_inv in Hv. eapply Forall2_impl; [exact Hv|].
    intros v o Hvo. eapply dash_video_output_shape; exact Hvo. }
  assert (Fv' : Forall is_video video).
  { eapply (mapM_Forall _ is_video); [|exact Hv].
    intros v o _ Hvo. eapply dash_video_output_shape; exact Hvo. }
  assert (Fa : Forall is_audio audio).
  { eapply (mapM_Forall _ is_audio); [|exact Ha].
    intros t o _ Hto. eapply dash_audio_output_shape; exact Hto. }
  destruct (outputs_partition video audio [] Fv' Fa (List.Forall_nil _)) as (Pv & Pa & Pc).
  rewrite app_nil_r in Pv, Pa, Pc.
  unfold video_renditions, audio_renditions, caption_renditions.
  rewrite Hout, Pv, Pa, Pc.
  repeat split; auto. eapply mapM_length; exact Ha.
Qed.

(** Every group of a built specification is the HLS group, built from the
    H.264 variants, or the DASH group, built from all of them. *)
Lemma output_group_cases r spec g :
  build_mediaconvert_job r = Ok spec -> In g (output_groups spec) ->
  (hls_emitted r = true
   /\ _build_hls_output_group r (List.filter is_h264 (abr_variants r)) = Ok g)
  \/ (dash_emitted r = true
      /\ _build_dash_output_group r
           (List.filter is_h264 (abr_variants r)
            ++ List.filter is_h265 (abr_variants r)) = Ok g).
Proof.
  intros Hb Hg. apply build_mediaconvert_job_inv in Hb as (groups & Hgr & _ & Hog).
  rewrite Hog in Hg.
  apply build_output_groups_inv in Hgr as (hls & dash & -> & Hh & Hd).
  apply in_app_or in Hg as [Hg|Hg].
  - left. destruct (hls_emitted r); [|subst; contradiction].
    destruct Hh as (g' & -> & Hg'). destruct Hg as [<-|[]]. auto.
  - right. destruct (dash_emitted r); [|subst; contradiction].
    destruct Hd as (g' & -> & Hg'). destruct Hg as [<-|[]]. auto.
Qed.

Lemma is_h264_codec (v : ABRVariant) : is_h264 v = true <-> codec v = H264.
Proof. unfold is_h264. destruct (codec v); simpl; split; congruence. Qed.

Lemma Forall2_nil_r_inv {A B : Type} (R : A -> B -> Prop) (l : list A) :
  Forall2 R l [] -> l = [].
Proof. inversion 1; reflexivity. Qed.

(** C5. A built specification never holds an H.265 rendition in its HLS
    group, no group of it is without video renditions, and without an
    H.264 variant it has no HLS group at all; every valid request is
    built. *)
Theorem hls_group_h264_only (r : TranscodeJobRequest) :
  (valid_request r = true -> is_ok (build_mediaconvert_job r) = true)
  /\ forall spec, build_mediaconvert_job r = Ok spec ->
       (forall g, In g (output_groups spec) -> group_name g = Some (JStr "HLS") ->
          forall o, In o (outputs g) -> rendition_codec o <> Some (JStr "H_265"))
       /\ (forall g, In g (output_groups spec) -> video_renditions g <> [])
       /\ (List.filter is_h264 (abr_variants r) = [] ->
           forall g, In g (output_groups spec) -> group_name g <> Some (JStr "HLS")).
Proof.
  split; [apply valid_request_is_built|].
  intros spec Hb. repeat split.
  - intros g Hg Hname o Ho.
    destruct (output_group_cases r spec g Hb Hg) as [[_ Hh]|[_ Hd]].
    + apply hls_group_contents in Hh as (_ & Hv & _ & _ & Hall).
      destruct (Hall o Ho) as [Hin| ->]; [|discriminate].
      clear Ho. revert o Hin. apply List.Forall_forall.
      apply Forall2_Forall_r with (1 := Hv).
      apply List.Forall_forall. intros v Hv4 o' [_ ->].
      apply List.filter_In in Hv4 as [_ Hc]. apply is_h264_codec in Hc.
      rewrite Hc. discriminate.
    + apply dash_group_contents in Hd as (Hn & _). rewrite Hn in Hname. discriminate.
  - intros g Hg Hnil.
    destruct (output_group_cases r spec g Hb Hg) as [[He Hh]|[He Hd]].
    + apply hls_group_contents in Hh as (_ & Hv & _). rewrite Hnil in Hv.
      apply Forall2_nil_r_inv in Hv. unfold hls_emitted in He. rewrite Hv in He.
      rewrite andb_false_r in He. discriminate.
    + apply dash_group_contents in Hd as (_ & Hv & _). rewrite Hnil in Hv.
      apply Forall2_nil_r_inv in Hv. unfold dash_emitted in He. rewrite Hv in He.
      rewrite andb_false_r in He. discriminate.
  - intros Hnil g Hg Hname.
    destruct (output_group_cases r spec g Hb Hg) as [[He _]|[_ Hd]].
    + unfold hls_emitted in He. rewrite Hnil, andb_false_r in He. discriminate.
    + apply dash_group_contents in Hd as (Hn & _). rewrite Hn in Hname. discriminate.
Qed.

Lemma hls_group_h264_only_witness :
  is_ok (build_mediaconvert_job sample_request) = true
  /\ (forall g, In g (output_groups sample_spec) -> group_name g = Some (JStr "HLS") ->
        forall o, In o (outputs g) -> rendition_codec o <> Some (JStr "H_265"))
  /\ (forall g, In g (output_groups sample_spec) -> video_renditions g <> [])
  /\ (List.filter is_h264 (abr_variants sample_request) = [] ->
      forall g, In g (output_groups sample_spec) -> group_name g <> Some (JStr "HLS")).
Proof.
  split.
  - apply (proj1 (hls_group_h264_only sample_request)). vm_compute. reflexivity.
  - apply (proj2 (hls_group_h264_only sample_request) sample_spec).
    vm_compute. reflexivity.
Defined.

Lemma codec_partition_length (l : list ABRVariant) :
  length (List.filter is_h264 l ++ List.filter is_h265 l) = length l.
Proof.
  rewrite length_app. induction l as [|v l IH]; simpl; [reflexivity|].
  unfold is_h264 at 1, is_h265 at 1. destruct (codec v); simpl; lia.
Qed.

(** The claim of C6 fails on the DASH group: it has no caption rendition,
    whatever the subtitle tracks. *)
Lemma dash_group_captions_counterexample :
  ~ (forall r spec,
       valid_request r = true -> subtitle_tracks (manifest r) <> [] ->
       build_mediaconvert_job r = Ok spec ->
       forall g, In g (output_groups spec) ->
         length (caption_renditions g) = length (subtitle_tracks (manifest r))).
Proof.
  intros H.
  assert (Hv : valid_request sample_request = true) by (vm_compute; reflexivity).
  assert (Hs : subtitle_tracks (manifest sample_request) <> []) by discriminate.
  assert (Hb : build_mediaconvert_job sample_request = Ok sample_spec)
    by (vm_compute; reflexivity).
  assert (Hg : In sample_dash_group (output_groups sample_spec))
    by (right; left; reflexivity).
  specialize (H sample_request sample_spec Hv Hs Hb sample_dash_group Hg).
  vm_compute in H. discriminate.
Qed.

(** C6, amended. In a built specification the HLS group holds one video
    rendition per H.264 variant, one audio rendition per audio track and one
    caption rendition per subtitle track; the DASH group holds one video
    rendition per variant (the H.264 ones, then the H.265 ones), one audio
    rendition per audio track and no caption rendition.  Every valid
    request is built. *)
Theorem output_group_renditions (r : TranscodeJobRequest) :
  (valid_request r = true -> is_ok (build_mediaconvert_job r) = true)
  /\ forall spec, build_mediaconvert_job r = Ok spec ->
     forall g, In g (output_groups spec) ->
       (group_name g = Some (JStr "HLS")
        /\ Forall2 renders (List.filter is_h264 (abr_variants r)) (video_renditions g)
        /\ length (audio_renditions g) = length (audio_tracks (manifest r))
        /\ length (caption_renditions g) = length (subtitle_tracks (manifest r)))
       \/ (group_name g = Some (JStr "DASH")
           /\ Forall2 renders
                (List.filter is_h264 (abr_variants r) ++ List.filter is_h265 (abr_variants r))
                (video_renditions g)
           /\ length (video_renditions g) = length (abr_variants r)
           /\ length (audio_renditions g) = length (audio_tracks (manifest r))
           /\ caption_renditions g = []).
Proof.
  split; [apply valid_request_is_built|].
  intros spec Hb g Hg.
  destruct (output_group_cases r spec g Hb Hg) as [[_ Hh]|[_ Hd]].
  - left. apply hls_group_contents in Hh as (Hn & Hv & Ha & Hc & _). auto.
  - right. apply dash_group_contents in Hd as (Hn & Hv & Ha & Hc).
    repeat split; auto.
    rewrite <- (Forall2_length _ _ _ Hv). apply codec_partition_length.
Qed.

Lemma output_group_renditions_witness :
  is_ok (build_mediaconvert_job sample_request) = true
  /\ forall g, In g (output_groups sample_spec) ->
       (group_name g = Some (JStr "HLS")
        /\ Forall2 renders (List.filter is_h264 (abr_variants sample_request))
             (video_renditions g)
        /\ length (audio_renditions g) = length (audio_tracks (manifest sample_request))
        /\ length (caption_renditions g)
           = length (subtitle_tracks (manifest sample_request)))
       \/ (group_name g = Some (JStr "DASH")
           /\ Forall2 renders
                (List.filter is_h264 (abr_variants sample_request)
                 ++ List.filter is_h265 (abr_variants sample_request))
                (video_renditions g)
           /\ length (video_renditions g) = length (abr_variants sample_request)
           /\ length (audio_renditions g) = length (audio_tracks (manifest sample_request))
           /\ caption_renditions g = []).
Proof.
  split.
  - apply (proj1 (output_group_renditions sample_request)). vm_compute. reflexivity.
  - apply (proj2 (output_group_renditions sample_request) sample_spec).
    vm_compute. reflexivity.
Defined.

(** ** Selectors of the input *)

Section DictFacts.
Context {V : Type}.
Implicit Types (d : list (string * V)) (k : string) (v : V).

Lemma keys_setitem_In d k v x :
  In x (Py.keys (Py.setitem d k v)) <-> In x (Py.keys d) \/ x = k.
Proof.
  induction d as [|[k' v'] d IH]; simpl.
  - split; [intros [<-|[]]; auto|intros [[]| ->]; auto].
  - destruct (String.eqb_spec k' k) as [->|Hne]; simpl.
    + split; [auto|]. intros [H| ->]; auto.
    + rewrite IH. tauto.
Qed.

Lemma keys_setitem_NoDup d k v :
  List.NoDup (Py.keys d) -> List.NoDup (Py.keys (Py.setitem d k v)).
Proof.
  induction d as [|[k' v'] d IH]; simpl; intros H.
  - repeat constructor. intros [].
  - inversion H as [|? ? Hk' Hd]; subst.
    destruct (String.eqb_spec k' k) as [->|Hne]; simpl.
    + constructor; assumption.
    + constructor; [|auto].
      rewrite keys_setitem_In. intros [Hin| ->]; [auto|congruence].
Qed.

Lemma keys_setitem_new d k v :
  ~ In k (Py.keys d) -> Py.keys (Py.setitem d k v) = Py.keys d ++ [k].
Proof.
  induction d as [|[k' v'] d IH]; simpl; intros H; [reflexivity|].
  destruct (String.eqb_spec k' k) as [->|Hne]; simpl.
  - exfalso; auto.
  - rewrite IH; auto.
Qed.

Context {X : Type} (key : X -> string) (val : X -> V).

Lemma assign_all_In xs d x :
  In x (Py.keys (assign_all key val xs d)) <-> In x (Py.keys d) \/ In x (map key xs).
Proof.
  revert d; induction xs as [|y xs IH]; simpl; intros d; [tauto|].
  unfold assign_all in *; simpl. rewrite IH, keys_setitem_In. intuition auto.
Qed.

Lemma assign_all_NoDup xs d :
  List.NoDup (Py.keys d) -> List.NoDup (Py.keys (assign_all key val xs d)).
Proof.
  revert d; induction xs as [|y xs IH]; simpl; intros d H; [exact H|].
  unfold assign_all in *; simpl. apply IH, keys_setitem_NoDup, H.
Qed.

Lemma assign_all_distinct xs d :
  List.NoDup (Py.keys d ++ map key xs) ->
  Py.keys (assign_all key val xs d) = Py.keys d ++ map key xs.
Proof.
  revert d; induction xs as [|y xs IH]; simpl; intros d H.
  - rewrite app_nil_r; reflexivity.
  - unfold assign_all in *; simpl.
    assert (Hy : ~ In (key y) (Py.keys d)).
    { intros Hin. apply NoDup_remove_2 in H. apply H, in_or_app. auto. }
    rewrite IH; rewrite (keys_setitem_new d _ _ Hy), <- app_assoc; [reflexivity|exact H].
Qed.
End DictFacts.

Lemma append_inj_l (p a b : string) : p +:+ a = p +:+ b -> a = b.
Proof. induction p as [|c p IH]; simpl; intros H; [exact H|]. inversion H; auto. Qed.

Lemma NoDup_map_prefix {A : Type} (p : string) (f : A -> string) (l : list A) :
  List.NoDup (map f l) -> List.NoDup (map (fun x => p +:+ f x) l).
Proof.
  induction l as [|x l IH]; simpl; intros H; [constructor|].
  inversion H as [|? ? Hx Hl]; subst. constructor; [|auto].
  intros Hin. apply Hx. apply in_map_iff in Hin as (y & Hy & Hin).
  apply append_inj_l in Hy. rewrite <- Hy. apply in_map. exact Hin.
Qed.

Lemma map_enumerate {A B : Type} (f : A -> B) (l : list A) (n : Z) :
  map (fun it => f (snd it)) (enumerate n l) = map f l.
Proof. revert n; induction l as [|x l IH]; simpl; intros n; [|rewrite IH]; reflexivity. Qed.

Lemma build_audio_selectors_eq (r : TranscodeJobRequest) :
  build_audio_selectors r
  = assign_all (fun it : Z * AudioTrack => "Audio_" +:+ a_language (snd it))
      (fun it =>
         JDict [
           ("DefaultSelection",
              JStr (if a_is_default (snd it) then "DEFAULT" else "NOT_DEFAULT"));
           ("SelectorType", JStr "TRACK");
           ("Tracks", JList [JInt (a_track_index (snd it))]) ])
      (enumerate 1 (audio_tracks (manifest r))) [].
Proof. reflexivity. Qed.

Lemma build_caption_selectors_eq (r : TranscodeJobRequest) :
  build_caption_selectors r
  = assign_all (fun t : SubtitleTrack => "Caption_" +:+ s_language t)
      (fun t =>
         JDict [
           ("SourceSettings", JDict [
              ("SourceType",
                 JStr (Py.get_default format_to_source_type (s_format t) "WEBVTT"));
              ("FileSourceSettings", JDict [
                 ("SourceFile",
                    JStr (Py.rsplit1_head "/" (input_s3_uri r) +:+ "/" +:+ s_file_path t)) ]) ]) ])
      (subtitle_tracks (manifest r)) [].
Proof. reflexivity. Qed.

Lemma input_selectors_eq (r : TranscodeJobRequest) :
  audio_selectors (_build_input r) = build_audio_selectors r
  /\ caption_selectors (_build_input r) = build_caption_selectors r.
Proof.
  unfold _build_input. destruct (build_caption_selectors r); split; reflexivity.
Qed.

Lemma audio_selectors_keys (r : TranscodeJobRequest) :
  (forall k, In k (Py.keys (build_audio_selectors r)) <-> In k (audio_selector_names r))
  /\ List.NoDup (Py.keys (build_audio_selectors r))
  /\ (List.NoDup (map a_language (audio_tracks (manifest r))) ->
      Py.keys (build_audio_selectors r) = audio_selector_names r
      /\ length (build_audio_selectors r) = length (audio_tracks (manifest r))).
Proof.
  rewrite build_audio_selectors_eq. unfold audio_selector_names.
  split; [|split].
  - intros k. rewrite assign_all_In.
    rewrite (map_enumerate (fun t => "Audio_" +:+ a_language t)). simpl. tauto.
  - apply assign_all_NoDup. constructor.
  - intros Hnd.
    assert (Hk : Py.keys (assign_all
                   (fun it : Z * AudioTrack => "Audio_" +:+ a_language (snd it))
                   (fun it =>
                      JDict [
                        ("DefaultSelection",
                           JStr (if a_is_default (snd it) then "DEFAULT" else "NOT_DEFAULT"));
                        ("SelectorType", JStr "TRACK");
                        ("Tracks", JList [JInt (a_track_index (snd it))]) ])
                   (enumerate 1 (audio_tracks (manifest r))) [])
                 = map (fun t => "Audio_" +:+ a_language t) (audio_tracks (manifest r))).
    { rewrite assign_all_distinct;
        rewrite (map_enumerate (fun t => "Audio_" +:+ a_language t)); [reflexivity|].
      simpl. apply NoDup_map_prefix; exact Hnd. }
    split; [exact Hk|].
    unfold Py.keys in Hk. apply (f_equal (@length string)) in Hk.
    rewrite !length_map in Hk. exact Hk.
Qed.

Lemma caption_selectors_keys (r : TranscodeJobRequest) :
  (forall k, In k (Py.keys (build_caption_selectors r)) <-> In k (caption_selector_names r))
  /\ List.NoDup (Py.keys (build_caption_selectors r))
  /\ (List.NoDup (map s_language (subtitle_tracks (manifest r))) ->
      Py.keys (build_caption_selectors r) = caption_selector_names r
      /\ length (build_caption_selectors r) = length (subtitle_tracks (manifest r))).
Proof.
  rewrite build_caption_selectors_eq. unfold caption_selector_names.
  split; [|split].
  - intros k. rewrite assign_all_In. simpl. tauto.
  - apply assign_all_NoDup. constructor.
  - intros Hnd.
    match goal with
    | |- Py.keys ?d = ?names /\ _ => assert (Hk : Py.keys d = names)
    end.
    { rewrite assign_all_distinct; [reflexivity|].
      simpl. apply NoDup_map_prefix; exact Hnd. }
    split; [exact Hk|].
    unfold Py.keys in Hk. apply (f_equal (@length string)) in Hk.
    rewrite !length_map in Hk. exact Hk.
Qed.

(** The claim of C7 fails when two audio tracks have one language: they
    share a selector. *)
Lemma audio_selector_count_counterexample :
  ~ (forall r spec input,
       valid_request r = true ->
       build_mediaconvert_job r = Ok spec -> In input (inputs spec) ->
       length (audio_selectors input) = length (audio_tracks (manifest r))).
Proof.
  intros H.
  assert (Hv : valid_request surround_request = true) by (vm_compute; reflexivity).
  assert (Hb : build_mediaconvert_job surround_request = Ok surround_spec)
    by (vm_compute; reflexivity).
  assert (Hi : In surround_input (inputs surround_spec)) by (left; reflexivity).
  specialize (H surround_request surround_spec surround_input Hv Hb Hi).
  vm_compute in H. discriminate.
Qed.

(** C7, amended. The input descriptor of a built specification has one
    audio selector per audio language of the manifest, named
    [Audio_<language>], and one caption selector per subtitle language,
    named [Caption_<language>]: the selector names are those of the tracks,
    each once.  When the tracks have pairwise distinct languages there is
    one selector per track, in the order of the tracks, so that there are as
    many selectors as tracks.  Every valid request is built. *)
Theorem input_selectors (r : TranscodeJobRequest) :
  (valid_request r = true -> is_ok (build_mediaconvert_job r) = true)
  /\ forall spec, build_mediaconvert_job r = Ok spec ->
     exists input,
       inputs spec = [input]
       /\ (forall k, In k (Py.keys (audio_selectors input)) <-> In k (audio_selector_names r))
       /\ List.NoDup (Py.keys (audio_selectors input))
       /\ (List.NoDup (map a_language (audio_tracks (manifest r))) ->
           Py.keys (audio_selectors input) = audio_selector_names r
           /\ length (audio_selectors input) = length (audio_tracks (manifest r)))
       /\ (forall k, In k (Py.keys (caption_selectors input)) <-> In k (caption_selector_names r))
       /\ List.NoDup (Py.keys (caption_selectors input))
       /\ (List.NoDup (map s_language (subtitle_tracks (manifest r))) ->
           Py.keys (caption_selectors input) = caption_selector_names r
           /\ length (caption_selectors input) = length (subtitle_tracks (manifest r))).
Proof.
  split; [apply valid_request_is_built|].
  intros spec Hb. apply build_mediaconvert_job_inv in Hb as (groups & _ & Hin & _).
  exists (_build_input r). split; [exact Hin|].
  destruct (input_selectors_eq r) as [-> ->].
  destruct (audio_selectors_keys r) as (Ha1 & Ha2 & Ha3).
  destruct (caption_selectors_keys r) as (Hc1 & Hc2 & Hc3).
  repeat (split; [assumption|]). assumption.
Qed.

(** ** Language codes *)

Lemma split_nonempty (sep : ascii) (s : string) : Py.split sep s <> [].
Proof.
  induction s as [|c s IH]; simpl; [discriminate|].
  destruct (Ascii.eqb c sep); [discriminate|].
  destruct (Py.split sep s); [contradiction|discriminate].
Qed.

Lemma base_code_total (lang : string) : exists base, base_code lang = Ok base.
Proof.
  unfold base_code, Py.getitem.
  destruct (Py.split "-" (Py.lower lang)) as [|b l] eqn:E; simpl; [|eauto].
  exfalso. exact (split_nonempty _ _ E).
Qed.

(** [_get_iso_639_2_code] returns the code the table gives for the base
    code, and raises, naming the value it was given, when there is none. *)
Lemma get_iso_639_2_code_cases (lang : string) :
  (supported lang = true
   /\ exists code, _get_iso_639_2_code lang = Ok code /\ mapped_code lang code)
  \/ (supported lang = false
      /\ _get_iso_639_2_code lang = Raise (ValueError (unsupported_language_message lang))).
Proof.
  unfold supported, _get_iso_639_2_code, mapped_code, Py.contains.
  destruct (base_code_total lang) as [base ->]. rewrite bind_Ok.
  destruct (Py.get ISO_639_1_TO_639_2 base) as [code|] eqn:E; [left|right].
  - split; [reflexivity|]. exists code. split; [reflexivity|].
    exists base. split; [reflexivity|exact E].
  - split; reflexivity.
Qed.

Lemma get_iso_639_2_code_Ok (lang code : string) :
  _get_iso_639_2_code lang = Ok code -> supported lang = true /\ mapped_code lang code.
Proof.
  intros H. destruct (get_iso_639_2_code_cases lang) as [(Hs & c & Hc & Hm)|(_ & Hr)].
  - rewrite H in Hc. inversion Hc; subst. auto.
  - rewrite H in Hr. discriminate.
Qed.

Lemma get_iso_639_2_code_Raise (lang : string) (e : exn) :
  _get_iso_639_2_code lang = Raise e ->
  supported lang = false /\ e = ValueError (unsupported_language_message lang).
Proof.
  intros H. destruct (get_iso_639_2_code_cases lang) as [(_ & c & Hc & _)|(Hs & Hr)].
  - rewrite H in Hc. discriminate.
  - rewrite H in Hr. inversion Hr; subst. auto.
Qed.


(** *** The codes of the outputs *)

Lemma audio_language_In (r : TranscodeJobRequest) (t : AudioTrack) :
  In t (audio_tracks (manifest r)) -> In (a_language t) (audio_languages r).
Proof. apply in_map. Qed.

Lemma subtitle_language_In (r : TranscodeJobRequest) (t : SubtitleTrack) :
  In t (subtitle_tracks (manifest r)) -> In (s_language t) (subtitle_languages r).
Proof. apply in_map. Qed.









(** *** When the build raises *)

Lemma enumerate_In {A : Type} (l : list A) (n : Z) (it : Z * A) :
  In it (enumerate n l) -> In (snd it) l.
Proof.
  revert n; induction l as [|x l IH]; simpl; intros n; [tauto|].
  intros [<-|H]; [left; reflexivity|right; eapply IH; exact H].
Qed.

Lemma audio_description_Raise t e :
  audio_description t = Raise e \/ video_audio_description t = Raise e ->
  _get_iso_639_2_code (a_language t) = Raise e.
Proof.
  unfold audio_description, video_audio_description.
  destruct (_get_iso_639_2_code (a_language t)); rewrite ?bind_Ok; simpl;
    intros [H|H]; try discriminate H; inversion H; reflexivity.
Qed.

Lemma hls_group_Raise r vs e :
  Forall (fun v => valid_variant v = true) vs ->
  _build_hls_output_group r vs = Raise e ->
  exists lang,
    (In lang (audio_languages r) \/ In lang (subtitle_languages r))
    /\ _get_iso_639_2_code lang = Raise e.
Proof.
  intros Hvs. unfold _build_hls_output_group.
  destruct (mapM (_build_hls_video_output r) vs) as [video|e1] eqn:Ev.
  2:{ simpl. intros [= <-]. apply mapM_Raise_inv in Ev as (v & Hv & Hr).
      pose proof (proj1 (List.Forall_forall _ _) Hvs v Hv) as Hvv.
      destruct (valid_variant_parses v Hvv) as (n & w & h & En & Ew & Eh).
      unfold _build_hls_video_output in Hr. rewrite En, Ew, Eh, !bind_Ok in Hr.
      destruct (mapM video_audio_description _) as [a|e2] eqn:Ea; [discriminate|].
      simpl in Hr. inversion Hr; subst.
      apply mapM_Raise_inv in Ea as (t & Ht & Hrt).
      exists (a_language t). split; [left; apply audio_language_In; exact Ht|].
      apply audio_description_Raise; auto. }
  destruct (mapM (_build_hls_audio_output r) _) as [audio|e1] eqn:Ea.
  2:{ simpl. intros [= <-]. apply mapM_Raise_inv in Ea as (t & Ht & Hr).
      exists (a_language t). split; [left; apply audio_language_In; exact Ht|].
      apply audio_description_Raise. left.
      unfold _build_hls_audio_output in Hr.
      destruct (audio_description t); [discriminate|].
      simpl in Hr. inversion Hr; reflexivity. }
  destruct (mapM (_build_hls_caption_output r) _) as [captions|e1] eqn:Ec.
  2:{ simpl. intros [= <-]. apply mapM_Raise_inv in Ec as (t & Ht & Hr).
      exists (s_language t). split; [right; apply subtitle_language_In; exact Ht|].
      unfold _build_hls_caption_output in Hr.
      destruct (_get_iso_639_2_code (s_language t)); [discriminate|].
      simpl in Hr. inversion Hr; reflexivity. }
  rewrite !bind_Ok.
  destruct (subtitle_tracks (manifest r)) as [|t ts] eqn:Est; [discriminate|].
  destruct (mapM caption_language_mapping (enumerate 0 (t :: ts))) as [m|e1] eqn:Em;
    [discriminate|].
  simpl. intros [= <-]. apply mapM_Raise_inv in Em as (it & Hit & Hr).
  apply enumerate_In in Hit. rewrite <- Est in Hit.
  exists (s_language (snd it)). split; [right; apply subtitle_language_In; exact Hit|].
  unfold caption_language_mapping in Hr.
  destruct (_get_iso_639_2_code (s_language (snd it))); [discriminate|].
  simpl in Hr. inversion Hr; reflexivity.
Qed.

Lemma dash_group_Raise r vs e :
  Forall (fun v => valid_variant v = true) vs ->
  _build_dash_output_group r vs = Raise e ->
  exists lang, In lang (audio_languages r) /\ _get_iso_639_2_code lang = Raise e.
Proof.
  intros Hvs. unfold _build_dash_output_group.
  destruct (mapM (_build_dash_video_output r) vs) as [video|e1] eqn:Ev.
  2:{ simpl. intros [= <-]. apply mapM_Raise_inv in Ev as (v & Hv & Hr).
      pose proof (proj1 (List.Forall_forall _ _) Hvs v Hv) as Hvv.
      destruct (valid_variant_parses v Hvv) as (n & w & h & En & Ew & Eh).
      unfold _build_dash_video_output in Hr. rewrite En, Ew, Eh in Hr. discriminate. }
  destruct (mapM (_build_dash_audio_output r) _) as [audio|e1] eqn:Ea; [discriminate|].
  simpl. intros [= <-]. apply mapM_Raise_inv in Ea as (t & Ht & Hr).
  exists (a_language t). split; [apply audio_language_In; exact Ht|].
  apply audio_description_Raise. left.
  unfold _build_dash_audio_output in Hr.
  destruct (audio_description t); [discriminate|].
  simpl in Hr. inversion Hr; reflexivity.
Qed.

(** An exception of the build names a language it translates and the table
    does not have. *)
Lemma build_Raise r e :
  Forall (fun v => valid_variant v = true) (abr_variants r) ->
  build_mediaconvert_job r = Raise e ->
  exists bad,
    In bad (translated_languages r) /\ supported bad = false
    /\ e = ValueError (unsupported_language_message bad).
Proof.
  intros Hv. unfold build_mediaconvert_job, build_output_groups, translated_languages,
    hls_emitted, dash_emitted.
  set (h264 := List.filter is_h264 (abr_variants r)).
  set (h265 := List.filter is_h265 (abr_variants r)).
  assert (H4 : Forall (fun v => valid_variant v = true) h264) by (apply Forall_filter; exact Hv).
  assert (H5 : Forall (fun v => valid_variant v = true) h265) by (apply Forall_filter; exact Hv).
  assert (H45 : Forall (fun v => valid_variant v = true) (h264 ++ h265))
    by (apply Forall_app; split; assumption).
  pose proof (hls_group_Raise r h264) as Hh.
  pose proof (dash_group_Raise r (h264 ++ h265)) as Hd.
  destruct (output_hls r), h264 as [|v vs]; simpl in *.
  - destruct (output_dash r); simpl; [|discriminate].
    destruct h265 as [|v' vs']; simpl; [discriminate|].
    destruct (_build_dash_output_group r (v' :: vs')) as [g|e'] eqn:Eg; [discriminate|].
    simpl. intros [= ->]. destruct (Hd e H45 eq_refl) as (lang & Hin & Hr).
    apply get_iso_639_2_code_Raise in Hr as [Hs ->].
    exists lang. rewrite app_nil_r. auto.
  - destruct (_build_hls_output_group r (v :: vs)) as [g|e'] eqn:Eg.
    + simpl. destruct (output_dash r); simpl; [|discriminate].
      destruct (_build_dash_output_group r (v :: vs ++ h265)) as [g'|e'] eqn:Eg';
        [discriminate|].
      simpl. intros [= ->]. destruct (Hd e H45 eq_refl) as (lang & Hin & Hr).
      apply get_iso_639_2_code_Raise in Hr as [Hs ->].
      exists lang. split; [apply in_or_app; left; exact Hin|auto].
    + simpl. intros [= ->]. destruct (Hh e H4 eq_refl) as (lang & Hin & Hr).
      apply get_iso_639_2_code_Raise in Hr as [Hs ->].
      exists lang. split; [apply in_or_app; exact Hin|auto].
  - destruct (output_dash r); simpl; [|discriminate].
    destruct h265 as [|v' vs']; simpl; [discriminate|].
    destruct (_build_dash_output_group r (v' :: vs')) as [g|e'] eqn:Eg; [discriminate|].
    simpl. intros [= ->]. destruct (Hd e H45 eq_refl) as (lang & Hin & Hr).
    apply get_iso_639_2_code_Raise in Hr as [Hs ->].
    exists lang. rewrite app_nil_r. auto.
  - destruct (output_dash r); simpl; [|discriminate].
    destruct (_build_dash_output_group r (v :: vs ++ h265)) as [g'|e'] eqn:Eg';
      [discriminate|].
    simpl. intros [= ->]. destruct (Hd e H45 eq_refl) as (lang & Hin & Hr).
    apply get_iso_639_2_code_Raise in Hr as [Hs ->].
    exists lang. rewrite app_nil_r. auto.
Qed.

Lemma mapM_Ok_each {A B : Type} (f : A -> result B) (l : list A) (ys : list B) (x : A) :
  mapM f l = Ok ys -> In x l -> exists y, f x = Ok y.
Proof.
  revert ys; induction l as [|z l IH]; simpl; intros ys H Hin; [contradiction|].
  destruct (f z) as [y|] eqn:Ez; [|discriminate].
  destruct (mapM f l) as [ys'|]; [|discriminate].
  destruct Hin as [<-|Hin]; [eauto|]. eapply IH; [reflexivity|exact Hin].
Qed.

Lemma audio_outputs_supported (build : AudioTrack -> result json) (tracks : list AudioTrack)
    (audio : list json) :
  (forall t o, build t = Ok o -> is_ok (audio_description t) = true) ->
  mapM build tracks = Ok audio ->
  Forall (fun l => supported l = true) (map a_language tracks).
Proof.
  intros Hb Hm. apply List.Forall_forall. intros l Hl.
  apply in_map_iff in Hl as (t & <- & Ht).
  destruct (mapM_Ok_each _ _ _ t Hm Ht) as [o Ho]. apply Hb in Ho.
  unfold audio_description in Ho.
  destruct (_get_iso_639_2_code (a_language t)) as [c|] eqn:E; [|discriminate].
  apply get_iso_639_2_code_Ok in E. tauto.
Qed.

(** A built specification has translated every language it had to. *)
Lemma build_Ok_supported r spec :
  build_mediaconvert_job r = Ok spec ->
  Forall (fun l => supported l = true) (translated_languages r).
Proof.
  intros Hb. apply build_mediaconvert_job_inv in Hb as (groups & Hgr & _).
  apply build_output_groups_inv in Hgr as (hls & dash & _ & Hh & Hd).
  unfold translated_languages. apply Forall_app. split.
  - destruct (hls_emitted r); simpl.
    + destruct Hh as (g & _ & Hg).
      apply hls_group_outputs in Hg as (video & audio & captions & _ & Ha & _).
      eapply audio_outputs_supported; [|exact Ha].
      intros t o. unfold _build_hls_audio_output.
      destruct (audio_description t); [reflexivity|discriminate].
    + destruct (dash_emitted r); [|constructor].
      destruct Hd as (g & _ & Hg).
      apply dash_group_outputs in Hg as (video & audio & _ & Ha & _).
      eapply audio_outputs_supported; [|exact Ha].
      intros t o. unfold _build_dash_audio_output.
      destruct (audio_description t); [reflexivity|discriminate].
  - destruct (hls_emitted r); [|constructor].
    destruct Hh as (g & _ & Hg).
    apply hls_group_outputs in Hg as (video & audio & captions & _ & _ & Hc & _).
    apply List.Forall_forall. intros l Hl.
    apply in_map_iff in Hl as (t & <- & Ht).
    destruct (mapM_Ok_each _ _ _ t Hc Ht) as [o Ho].
    unfold _build_hls_caption_output in Ho.
    destruct (_get_iso_639_2_code (s_language t)) as [c|] eqn:E; [|discriminate].
    apply get_iso_639_2_code_Ok in E. tauto.
Qed.

Lemma valid_manifest_languages (m : TranscodeManifest) :
  valid_manifest m = true ->
  Forall (fun t => translatable (a_language t) = true) (audio_tracks m)
  /\ Forall (fun t => translatable (s_language t) = true) (subtitle_tracks m).
Proof.
  unfold valid_manifest. intros H. repeat (apply andb_true_iff in H as [H ?]).
  split; apply List.Forall_forall; intros t Ht.
  - match goal with
    | Ha : forallb valid_audio_track _ = true |- _ =>
        pose proof (proj1 (forallb_forall _ _) Ha t Ht) as Hv
    end.
    unfold valid_audio_track in Hv. repeat (apply andb_true_iff in Hv as [Hv ?]).
    apply audio_language_supported; exact Hv.
  - match goal with
    | Hs : forallb valid_subtitle_track _ = true |- _ =>
        pose proof (proj1 (forallb_forall _ _) Hs t Ht) as Hv
    end.
    unfold valid_subtitle_track in Hv. apply andb_true_iff in Hv as [Hv _].
    apply subtitle_language_supported; exact Hv.
Qed.



(** The translation of a language outside the table, and of the languages
    of the sample manifest. *)
Example get_iso_639_2_code_samples :
  _get_iso_639_2_code "xx" = Raise (ValueError (unsupported_language_message "xx"))
  /\ map _get_iso_639_2_code (audio_languages sample_request ++ subtitle_languages sample_request)
     = [Ok "JPN"; Ok "ENG"; Ok "ENG"].
Proof. split; vm_compute; reflexivity. Qed.

Lemma input_selectors_witness :
  is_ok (build_mediaconvert_job sample_request) = true
  /\ exists input,
       inputs sample_spec = [input]
       /\ Py.keys (audio_selectors input) = audio_selector_names sample_request
       /\ length (audio_selectors input) = length (audio_tracks (manifest sample_request))
       /\ Py.keys (caption_selectors input) = caption_selector_names sample_request
       /\ length (caption_selectors input)
          = length (subtitle_tracks (manifest sample_request)).
Proof.
  split.
  - apply (proj1 (input_selectors sample_request)). vm_compute. reflexivity.
  - destruct (proj2 (input_selectors sample_request) sample_spec eq_refl)
      as (input & Hin & _ & _ & Ha & _ & _ & Hc).
    exists input. split; [exact Hin|].
    assert (Hna : List.NoDup (map a_language (audio_tracks (manifest sample_request)))).
    { vm_compute. repeat constructor; simpl; intuition discriminate. }
    assert (Hnc : List.NoDup (map s_language (subtitle_tracks (manifest sample_request)))).
    { vm_compute. repeat constructor; simpl; intuition discriminate. }
    destruct (Ha Hna) as [Ha1 Ha2]. destruct (Hc Hnc) as [Hc1 Hc2].
    repeat split; assumption.
Defined.

(** ** The reservation table *)

(** The two store operations of an invocation, run back to back, are
    [reserve_job_slot]. *)
Lemma reserve_job_slot_steps (token : string) (table : gmap string json)
    (e : env) (manifest_id output_prefix : string) :
  let i := mkInvocation e manifest_id output_prefix Start in
  let (t1, i1) := step_invocation token table i in
  let (t2, i2) := step_invocation token t1 i1 in
  (t2, outcome i2)
  = (fst (reserve_job_slot e table token manifest_id output_prefix),
     Some (snd (reserve_job_slot e table token manifest_id output_prefix))).
Proof.
  unfold step_invocation, reserve_job_slot; simpl.
  destruct (put_item_if_absent (put_fault e) table token
              (pending_item e token manifest_id output_prefix)) as [t1 [[]|err]];
    simpl; [reflexivity|].
  destruct err; simpl; try reflexivity.
  destruct (String.eqb code CONDITIONAL_CHECK_FAILED); reflexivity.
Qed.

(** The claim of C9 on [reserve_job_slot] fails for a store error that the
    client reports as a [ClientError], here a throttled write: it is raised
    again unchanged, not as an [IdempotencyError]. *)
Lemma reserve_failure_counterexample :
  ~ (forall e table token manifest_id output_prefix err,
       put_fault e = Some err -> err <> ClientError CONDITIONAL_CHECK_FAILED ->
       exists msg details,
         snd (reserve_job_slot e table token manifest_id output_prefix)
         = Raise (IdempotencyError msg details)).
Proof.
  intros H.
  destruct (H throttled_env ∅ "5d7efc4dee31b3ca" "aot-s01e01-20240115" "s3://out/a"
              (ClientError "ProvisionedThroughputExceededException") eq_refl)
    as (msg & details & Hr).
  - discriminate.
  - vm_compute in Hr. discriminate.
Qed.

(** C9, amended. When the read of the store fails, [check_idempotency]
    returns [None] and raises nothing.  When the conditional put of
    [reserve_job_slot] fails for another reason than the condition, the
    table is left as it was and [reserve_job_slot] raises instead of
    returning: the [ClientError] itself when the failure is one, an
    [IdempotencyError] wrapping the failure otherwise. *)
Theorem store_failures (table : gmap string json) (token : string) :
  (forall err, check_idempotency (Some err) table token = None)
  /\ (forall e manifest_id output_prefix err,
        put_fault e = Some err -> err <> ClientError CONDITIONAL_CHECK_FAILED ->
        reserve_job_slot e table token manifest_id output_prefix
        = (table, Raise (reserve_failure token err))).
Proof.
  split; [reflexivity|].
  intros e manifest_id output_prefix err Hf Hne.
  unfold reserve_job_slot, put_item_if_absent. rewrite Hf.
  destruct err as [msg|msg|code|msg details|msg]; simpl; try reflexivity.
  destruct (String.eqb_spec code CONDITIONAL_CHECK_FAILED) as [->|_]; [|reflexivity].
  exfalso. apply Hne. reflexivity.
Qed.

Lemma store_failures_witness :
  check_idempotency (Some (OtherException "Could not connect to the endpoint URL"))
    ∅ "5d7efc4dee31b3ca" = None
  /\ reserve_job_slot throttled_env ∅ "5d7efc4dee31b3ca" "aot-s01e01-20240115" "s3://out/a"
     = (∅, Raise (ClientError "ProvisionedThroughputExceededException")).
Proof.
  split.
  - apply (proj1 (store_failures ∅ "5d7efc4dee31b3ca")).
  - apply (proj2 (store_failures ∅ "5d7efc4dee31b3ca") throttled_env
             "aot-s01e01-20240115" "s3://out/a"
             (ClientError "ProvisionedThroughputExceededException")).
    + reflexivity.
    + discriminate.
Defined.

(** *** The race for a token *)

Lemma step_fault_free (token : string) (st : system) (k : nat) :
  Forall (fun i => fault_free i = true) (snd st) ->
  Forall (fun i => fault_free i = true) (snd (step token st k)).
Proof.
  destruct st as [table invs]; unfold step; simpl. intros Hff.
  destruct (invs !! k) as [i|] eqn:Ek; [|exact Hff].
  destruct (step_invocation token table i) as [table' i'] eqn:Es. simpl.
  apply Forall_insert; [exact Hff|].
  pose proof (Forall_lookup_1 _ _ _ _ Hff Ek) as Hi. simpl in Hi.
  assert (inv_env i' = inv_env i) as He.
  { unfold step_invocation in Es.
    destruct (inv_progress i).
    - destruct (put_item_if_absent _ _ _ _) as [t1 [[]|err]].
      + inversion Es; reflexivity.
      + destruct err; try (inversion Es; reflexivity).
        destruct (String.eqb code CONDITIONAL_CHECK_FAILED); inversion Es; reflexivity.
    - inversion Es; reflexivity.
    - inversion Es; reflexivity. }
  unfold fault_free in *. rewrite He. exact Hi.
Qed.

Lemma step_length (token : string) (st : system) (k : nat) :
  length (snd (step token st k)) = length (snd st).
Proof.
  destruct st as [table invs]; unfold step; simpl.
  destruct (invs !! k) as [i|]; [|reflexivity].
  destruct (step_invocation token table i). simpl. apply length_insert.
Qed.

Lemma step_invariant (token : string) (st : system) (k : nat) :
  Forall (fun i => fault_free i = true) (snd st) ->
  race_invariant token st -> race_invariant token (step token st k).
Proof.
  destruct st as [table invs]; unfold step, race_invariant; simpl. intros Hff Hinv.
  destruct (invs !! k) as [i|] eqn:Ek; [|exact Hinv].
  pose proof (Forall_lookup_1 _ _ _ _ Hff Ek) as Hi. simpl in Hi.
  unfold fault_free in Hi.
  destruct (put_fault (inv_env i)) eqn:Hp; [discriminate|].
  destruct (get_fault (inv_env i)) eqn:Hg; [discriminate|]. clear Hi.
  pose proof (lookup_lt_Some _ _ _ Ek) as Hk.
  destruct Hinv as [[Hfree Hall]|(w & iw & Hw & Hpw & Htab & Hothers)].
  - (* nobody has moved: this invocation wins *)
    pose proof (Forall_lookup_1 _ _ _ _ Hall Ek) as Hs. simpl in Hs.
    unfold step_invocation. rewrite Hs, Hp. unfold put_item_if_absent. rewrite Hfree.
    simpl. right.
    exists k, (at_progress i (Finished (Ok reserved_result))).
    split; [apply list_lookup_insert_eq; exact Hk|].
    split; [reflexivity|].
    split; [apply lookup_insert_eq|].
    intros j ij Hj Hlj. rewrite list_lookup_insert_ne in Hlj by congruence.
    left. exact (Forall_lookup_1 _ _ _ _ Hall Hlj).
  - right. destruct (decide (k = w)) as [->|Hkw].
    + (* the winner has finished: nothing changes *)
      rewrite Hw in Ek. inversion Ek; subst i.
      unfold step_invocation. rewrite Hpw. simpl.
      rewrite list_insert_id by exact Hw.
      exists w, iw. auto.
    + destruct (Hothers k i Hkw Ek) as [Hs|[Hs|Hs]].
      * (* a late try: the condition fails *)
        unfold step_invocation. rewrite Hs, Hp. unfold put_item_if_absent. rewrite Htab.
        simpl.
        exists w, iw.
        split; [rewrite list_lookup_insert_ne by congruence; exact Hw|].
        split; [exact Hpw|]. split; [exact Htab|].
        intros j ij Hj Hlj.
        destruct (decide (j = k)) as [->|Hjk].
        -- rewrite list_lookup_insert_eq in Hlj by exact Hk.
           inversion Hlj; subst ij. right; left; reflexivity.
        -- rewrite list_lookup_insert_ne in Hlj by congruence. eauto.
      * (* the read of the loser: it sees the winner's item *)
        unfold step_invocation. rewrite Hs, Hg.
        unfold check_idempotency, get_item. rewrite Htab. simpl.
        exists w, iw.
        split; [rewrite list_lookup_insert_ne by congruence; exact Hw|].
        split; [exact Hpw|]. split; [exact Htab|].
        intros j ij Hj Hlj.
        destruct (decide (j = k)) as [->|Hjk].
        -- rewrite list_lookup_insert_eq in Hlj by exact Hk.
           inversion Hlj; subst ij. right; right; reflexivity.
        -- rewrite list_lookup_insert_ne in Hlj by congruence. eauto.
      * unfold step_invocation. rewrite Hs. simpl.
        rewrite list_insert_id by exact Ek.
        exists w, iw. auto.
Qed.

Lemma run_invariant (token : string) (schedule : list nat) (st : system) :
  Forall (fun i => fault_free i = true) (snd st) ->
  race_invariant token st ->
  race_invariant token (run token schedule st)
  /\ length (snd (run token schedule st)) = length (snd st).
Proof.
  unfold run. revert st; induction schedule as [|k ks IH]; simpl; intros st Hff Hinv.
  - auto.
  - destruct (IH (step token st k)) as [H1 H2].
    + apply step_fault_free; exact Hff.
    + apply step_invariant; assumption.
    + split; [exact H1|]. rewrite H2. apply step_length.
Qed.

(** Every invocation returns once it has been given its two steps, whatever
    the store does. *)
Lemma step_invocation_rank (token : string) (table : gmap string json) (i : invocation) :
  (Nat.min 2 (rank i + 1) <= rank (snd (step_invocation token table i)))%nat.
Proof.
  unfold step_invocation, rank.
  destruct (inv_progress i) eqn:E; simpl.
  - destruct (put_item_if_absent _ _ _ _) as [t1 [[]|err]]; simpl; [lia|].
    destruct err; simpl; try lia.
    destruct (String.eqb code CONDITIONAL_CHECK_FAILED); simpl; lia.
  - lia.
  - rewrite E. lia.
Qed.

Lemma step_rank (token : string) (st : system) (k j : nat) (i : invocation) :
  snd st !! j = Some i ->
  exists i', snd (step token st k) !! j = Some i'
             /\ (rank i <= rank i')%nat
             /\ (j = k -> Nat.min 2 (rank i + 1) <= rank i')%nat.
Proof.
  destruct st as [table invs]; unfold step; simpl. intros Hj.
  destruct (invs !! k) as [ik|] eqn:Ek.
  - pose proof (step_invocation_rank token table ik) as Hr.
    destruct (step_invocation token table ik) as [table' ik']. cbn [fst snd] in *.
    destruct (decide (j = k)) as [->|Hjk].
    + rewrite Ek in Hj. inversion Hj; subst ik.
      exists ik'. rewrite list_lookup_insert_eq by (eapply lookup_lt_Some; exact Ek).
      assert (rank i <= 2)%nat by (unfold rank; destruct (inv_progress i); lia).
      repeat split; [lia|auto].
    + exists i. rewrite list_lookup_insert_ne by congruence.
      repeat split; [exact Hj|lia|congruence].
  - exists i. repeat split; [exact Hj|lia|].
    intros ->. rewrite Ek in Hj. discriminate.
Qed.

Lemma run_rank (token : string) (schedule : list nat) (st : system) (j : nat)
    (i : invocation) :
  snd st !! j = Some i ->
  exists i', snd (run token schedule st) !! j = Some i'
             /\ (Nat.min 2 (rank i + count_occ Nat.eq_dec schedule j) <= rank i')%nat.
Proof.
  unfold run. revert st i; induction schedule as [|k ks IH];
    cbn [fold_left count_occ]; intros st i Hj.
  - exists i. split; [exact Hj|lia].
  - destruct (step_rank token st k j i Hj) as (i1 & H1 & Hle & Hself).
    destruct (IH _ _ H1) as (i' & H' & Hr).
    exists i'. split; [exact H'|].
    destruct (Nat.eq_dec k j) as [->|Hkj]; [specialize (Hself eq_refl)|]; lia.
Qed.

Lemma fair_schedule_finishes (token : string) (schedule : list nat) (st : system) :
  (forall j, (j < length (snd st))%nat -> (2 <= count_occ Nat.eq_dec schedule j)%nat) ->
  Forall (fun i => finished i = true) (snd (run token schedule st)).
Proof.
  intros Hfair. apply Forall_lookup_2. intros j i' Hj.
  assert (Hlen : length (snd (run token schedule st)) = length (snd st)).
  { unfold run. clear. revert st. induction schedule as [|k ks IH]; simpl; intros st;
      [reflexivity|]. rewrite IH. apply step_length. }
  pose proof (lookup_lt_Some _ _ _ Hj) as Hlt. rewrite Hlen in Hlt.
  destruct (lookup_lt_is_Some_2 _ _ Hlt) as [i Hi].
  destruct (run_rank token schedule st j i Hi) as (i'' & Hj' & Hr).
  rewrite Hj in Hj'. inversion Hj'; subst i''.
  specialize (Hfair j Hlt).
  assert (H2 : (2 <= rank i')%nat) by lia. clear Hr.
  unfold finished. unfold rank in H2.
  destruct (inv_progress i'); [lia|lia|reflexivity].
Qed.

(** C1. Take any number of invocations of [reserve_job_slot] on one token
    that has no record when they start, with the store answering every
    operation, interleaved in any order until all have returned.  Exactly
    one of them returns [{reserved: true}]; its item is the stored record,
    and every other invocation returns [{reserved: false}] with that same
    record as [existing_job]. *)
Theorem reserve_exactly_once (token : string) (table : gmap string json)
    (invs : list invocation) (schedule : list nat) :
  table !! token = None ->
  invs <> [] ->
  Forall (fun i => inv_progress i = Start) invs ->
  Forall (fun i => fault_free i = true) invs ->
  Forall (fun i => finished i = true) (snd (run token schedule (table, invs))) ->
  exists w iw,
    snd (run token schedule (table, invs)) !! w = Some iw
    /\ outcome iw = Some (Ok reserved_result)
    /\ fst (run token schedule (table, invs)) !! token = Some (item_of token iw)
    /\ forall j ij,
         j <> w -> snd (run token schedule (table, invs)) !! j = Some ij ->
         outcome ij = Some (Ok (taken_result (Some (item_of token iw)))).
Proof.
  intros Hfree Hne Hstart Hff Hdone.
  destruct (run_invariant token schedule (table, invs) Hff) as [Hinv Hlen].
  { left. auto. }
  simpl in Hlen.
  destruct Hinv as [[_ Hall]|(w & iw & Hw & Hpw & Htab & Hothers)].
  - exfalso. destruct (snd (run token schedule (table, invs))) as [|i l].
    + destruct invs; [congruence|discriminate].
    + inversion Hall as [|? ? Hs _]; inversion Hdone as [|? ? Hf _]; subst.
      unfold finished in Hf. rewrite Hs in Hf. discriminate.
  - exists w, iw. unfold outcome. rewrite Hpw.
    repeat split; auto.
    intros j ij Hj Hlj.
    pose proof (Forall_lookup_1 _ _ _ _ Hdone Hlj) as Hf. simpl in Hf.
    unfold finished in Hf.
    destruct (Hothers j ij Hj Hlj) as [Hs|[Hs|Hs]]; rewrite Hs in Hf |- *;
      first [discriminate|reflexivity].
Qed.

Lemma reserve_exactly_once_witness :
  exists w iw,
    snd (run "5d7efc4dee31b3ca" sample_schedule sample_race) !! w = Some iw
    /\ outcome iw = Some (Ok reserved_result)
    /\ fst (run "5d7efc4dee31b3ca" sample_schedule sample_race) !! "5d7efc4dee31b3ca"
       = Some (item_of "5d7efc4dee31b3ca" iw)
    /\ forall j ij,
         j <> w ->
         snd (run "5d7efc4dee31b3ca" sample_schedule sample_race) !! j = Some ij ->
         outcome ij = Some (Ok (taken_result (Some (item_of "5d7efc4dee31b3ca" iw)))).
Proof.
  apply (reserve_exactly_once "5d7efc4dee31b3ca" ∅ (snd sample_race) sample_schedule).
  - reflexivity.
  - discriminate.
  - repeat constructor.
  - repeat constructor.
  - vm_compute. repeat constructor.
Defined.

(** ** The idempotency token *)

Lemma append_nil_l (s : string) : "" +:+ s = s.
Proof. reflexivity. Qed.

Lemma append_cons (c : ascii) (a s : string) : String c a +:+ s = String c (a +:+ s).
Proof. reflexivity. Qed.

Lemma append_length (a b : string) :
  String.length (a +:+ b) = (String.length a + String.length b)%nat.
Proof.
  induction a as [|c a IH]; [reflexivity|].
  rewrite append_cons. cbn [String.length]. rewrite IH. reflexivity.
Qed.

Lemma append_inj_r (a b s : string) : a +:+ s = b +:+ s -> a = b.
Proof.
  revert b; induction a as [|c a IH]; intros [|c' b] H;
    rewrite ?append_nil_l, ?append_cons in H.
  - reflexivity.
  - apply (f_equal String.length) in H. cbn [String.length] in H.
    rewrite (append_length b s) in H. lia.
  - apply (f_equal String.length) in H. cbn [String.length] in H.
    rewrite (append_length a s) in H. lia.
  - inversion H; subst. f_equal. apply IH; assumption.
Qed.

Lemma combined_eq (m : TranscodeManifest) (pv : string) :
  combined m pv
  = manifest_id m +:+ "|" +:+ checksum_md5 (mezzanine m) +:+ "|"
    +:+ Py.str_int (file_size_bytes (mezzanine m)) +:+ "|"
    +:+ Py.str_list (Py.sorted_str (map a_language (audio_tracks m))) +:+ "|" +:+ pv.
Proof. reflexivity. Qed.

Lemma combined_profile_version_inj (m : TranscodeManifest) (pv pv' : string) :
  combined m pv' = combined m pv -> pv' = pv.
Proof.
  rewrite !combined_eq. intros H.
  do 8 (apply append_inj_l in H). exact H.
Qed.

Lemma combined_checksum_inj (m : TranscodeManifest) (c pv : string) :
  combined (with_checksum_md5 m c) pv = combined m pv -> c = checksum_md5 (mezzanine m).
Proof.
  rewrite !combined_eq. unfold with_checksum_md5.
  cbn [manifest_id mezzanine checksum_md5 file_size_bytes audio_tracks].
  intros H. do 2 (apply append_inj_l in H). apply append_inj_r in H. exact H.
Qed.

(** *** The digest is one of finitely many *)

Lemma wrap_word32 (x : Z) : word32 (Sha256.wrap x).
Proof. unfold word32, Sha256.wrap. apply Z.mod_pos_bound. reflexivity. Qed.

Lemma compress_bounded (s : Sha256.state) (block : list Z) :
  bounded (Sha256.compress s block).
Proof.
  unfold bounded, Sha256.compress.
  generalize (fold_left Sha256.round
                (combine Sha256.K (Sha256.extend 48 (Sha256.be_words block))) s).
  intros r. unfold Sha256.words, Sha256.add32.
  cbn [Sha256.h0 Sha256.h1 Sha256.h2 Sha256.h3 Sha256.h4 Sha256.h5 Sha256.h6 Sha256.h7].
  repeat constructor; apply wrap_word32.
Qed.

Lemma initial_bounded : bounded Sha256.initial.
Proof.
  unfold bounded, word32. repeat constructor; vm_compute; discriminate.
Qed.

Lemma blocks_bounded (n : nat) (bytes : list Z) (s : Sha256.state) :
  bounded s -> bounded (Sha256.blocks n bytes s).
Proof.
  revert bytes s; induction n as [|n IH]; simpl; intros bytes s Hs; [exact Hs|].
  apply IH, compress_bounded.
Qed.

Lemma digest_bounded (msg : string) : bounded (Sha256.digest msg).
Proof. apply blocks_bounded, initial_bounded. Qed.

Lemma pack_step_inj (a a' x x' : Z) :
  word32 x -> word32 x' -> a * 2 ^ 32 + x = a' * 2 ^ 32 + x' -> a = a' /\ x = x'.
Proof.
  unfold word32. intros Hx Hx' H.
  apply (Z.div_mod_unique (2 ^ 32)); [left; exact Hx|left; exact Hx'|].
  rewrite !(Z.mul_comm (2 ^ 32)). exact H.
Qed.

Lemma pack_inj (l l' : list Z) (a a' : Z) :
  length l = length l' -> Forall word32 l -> Forall word32 l' ->
  fold_left (fun acc w => acc * 2 ^ 32 + w) l a
  = fold_left (fun acc w => acc * 2 ^ 32 + w) l' a' ->
  a = a' /\ l = l'.
Proof.
  revert l' a a'; induction l as [|x l IH]; intros [|x' l'] a a' Hlen Hl Hl' H;
    try discriminate; simpl in *.
  - auto.
  - inversion Hl; inversion Hl'; subst.
    destruct (IH l' _ _ ltac:(congruence) ltac:(assumption) ltac:(assumption) H)
      as [Ha ->].
    apply pack_step_inj in Ha as [-> ->]; auto.
Qed.

Lemma number_inj (s s' : Sha256.state) :
  bounded s -> bounded s' -> Sha256.number s = Sha256.number s' -> s = s'.
Proof.
  unfold bounded, Sha256.number. intros Hs Hs' H.
  apply pack_inj in H as [_ H]; [|reflexivity|assumption|assumption].
  destruct s, s'; unfold Sha256.words in H; simpl in H. congruence.
Qed.

Lemma number_bounded (s : Sha256.state) :
  bounded s -> 0 <= Sha256.number s < 2 ^ 256.
Proof.
  unfold bounded, Sha256.number, Sha256.words, word32; simpl. intros H.
  repeat match goal with
         | H : Forall _ (_ :: _) |- _ => inversion H; clear H; subst
         end.
  change (2 ^ 32) with 4294967296 in *.
  change (2 ^ 256) with
    115792089237316195423570985008687907853269984665640564039457584007913129639936.
  lia.
Qed.

(** No function sends the natural numbers one to one into an interval. *)
Lemma no_injection_nat (B : nat) (f : nat -> nat) :
  (forall n, (f n < B)%nat) -> ~ (forall i j, i <> j -> f i <> f j).
Proof.
  intros Hb Hinj.
  assert (Hnd : List.NoDup (map f (seq 0 (S B)))).
  { generalize 0%nat. induction (S B) as [|n IH]; intros k; cbn [seq map]; constructor.
    - intros Hin. apply in_map_iff in Hin as (j & Hj & Hin).
      apply in_seq in Hin. apply (Hinj j k); [lia|exact Hj].
    - apply IH. }
  assert (Hincl : incl (map f (seq 0 (S B))) (seq 0 B)).
  { intros y Hy. apply in_map_iff in Hy as (j & <- & _). apply in_seq.
    specialize (Hb j). lia. }
  pose proof (NoDup_incl_length Hnd Hincl) as Hlen.
  rewrite length_map, !length_seq in Hlen. lia.
Qed.

Lemma no_injection (B : Z) (f : nat -> Z) :
  (forall n, 0 <= f n < B) -> ~ (forall i j, i <> j -> f i <> f j).
Proof.
  intros Hb Hinj.
  apply (no_injection_nat (Z.to_nat B) (fun n => Z.to_nat (f n))).
  - intros n. specialize (Hb n). apply Z2Nat.inj_lt; lia.
  - intros i j Hij Heq. apply (Hinj i j Hij).
    pose proof (Hb i). pose proof (Hb j). apply Z2Nat.inj; lia.
Qed.

(** There are more profile versions than digests, so the token cannot be
    injective in the profile version.  The argument counts: it exhibits no
    two versions with one token. *)
Lemma profile_versions_share_a_token :
  ~ (forall m pv pv',
       pv' <> pv -> generate_idempotency_token m pv' <> generate_idempotency_token m pv).
Proof.
  intros H.
  apply (no_injection (2 ^ 256)
           (fun n => Sha256.number (Sha256.digest (combined sample_manifest (pretty n))))).
  - intros n. apply number_bounded, digest_bounded.
  - intros i j Hij Heq.
    apply (H sample_manifest (pretty j) (pretty i)).
    + intros Hp. apply Hij. exact (pretty_nat_inj _ _ Hp).
    + unfold generate_idempotency_token, Sha256.hexdigest.
      apply number_inj in Heq; [|apply digest_bounded|apply digest_bounded].
      rewrite Heq. reflexivity.
Qed.

(** The token of the sample manifest, as [hashlib] computes it, and the
    tokens after a change of profile version or of checksum. *)
Example sample_token :
  combined sample_manifest "v1.0"
  = "aot-s01e01-20240115|d41d8cd98f00b204e9800998ecf8427e|1000000|['en', 'ja']|v1.0"
  /\ generate_idempotency_token sample_manifest "v1.0"
     = "5d7efc4dee31b3cae7c94d16ff93aa344e5e190a81fc98a92c9a2f63ed1480bf".
Proof. split; vm_compute; reflexivity. Qed.

Example sample_token_changes :
  generate_idempotency_token sample_manifest "v1.1"
  <> generate_idempotency_token sample_manifest "v1.0"
  /\ generate_idempotency_token
       (with_checksum_md5 sample_manifest "0cc175b9c0f1b6a831c399e269772661") "v1.0"
     <> generate_idempotency_token sample_manifest "v1.0".
Proof. split; vm_compute; discriminate. Qed.

Example sha256_abc :
  Sha256.hexdigest "abc"
  = "ba7816bf8f01cfea414140de5dae2223b00361a396177a9cb410ff61f20015ad".
Proof. vm_compute. reflexivity. Qed.

Example sha256_constants :
  length Sha256.primes = 64%nat
  /\ nth 0 Sha256.K 0 = 0x428a2f98 /\ nth 63 Sha256.K 0 = 0xc67178f2
  /\ Sha256.h0 Sha256.initial = 0x6a09e667 /\ Sha256.h7 Sha256.initial = 0x5be0cd19.
Proof. repeat split; vm_compute; reflexivity. Qed.

Example sha256_empty :
  Sha256.hexdigest ""
  = "e3b0c44298fc1c149afbf4c8996fb92427ae41e4649b934ca495991b7852b855".
Proof. vm_compute. reflexivity. Qed.

Example sha256_two_blocks :
  Sha256.hexdigest
    "aaaaaaaaaaaaaaaaaaaaaaaaaaaaaaaaaaaaaaaaaaaaaaaaaaaaaaaaaaaaaaaaaaaaaaaaaaaaaaaaaaaaaaaaaaaaaaaaaaaa"
  = "2816597888e4a0d3a36b82b83316ab32680eb8f00f8cd3b904d681246d285a0e".
Proof. vm_compute. reflexivity. Qed.

(** * Further properties *)

(** ** More on the ABR ladder *)

Lemma ladder_length (source_height : Z) (enable_h265 : bool) :
  length (map snd (Py.sort_pairs key_lt (map keyed (selected source_height enable_h265))))
  = length (selected source_height enable_h265).
Proof.
  rewrite length_map.
  rewrite (Permutation_length (sort_pairs_perm key_lt _)). apply length_map.
Qed.

Lemma candidates_at_least_360 :
  Forall (fun v => exists h, height v = Ok h /\ 360 <= h) candidates.
Proof. repeat constructor; eexists; (split; [reflexivity|]); discriminate. Qed.

Lemma ladder_emptiness (source_width source_height : Z) (enable_h265 : bool) :
  (get_abr_ladder source_width source_height enable_h265 = Ok [] <-> source_height < 360)
  /\ (360 <= source_height ->
      exists ladder,
        get_abr_ladder source_width source_height enable_h265 = Ok ladder
        /\ In lowest_rung ladder).
Proof.
  rewrite get_abr_ladder_eq.
  assert (Hlow : 360 <= source_height -> In lowest_rung (selected source_height enable_h265)).
  { intros Hge. apply selected_In. split; [|split].
    - unfold candidates, ABR_LADDER_H264, lowest_rung. simpl. auto.
    - apply fits_spec. exists 360. split; [reflexivity|exact Hge].
    - left. reflexivity. }
  split; [split|].
  - intros H. destruct (Z.lt_ge_cases source_height 360) as [Hlt|Hge]; [exact Hlt|].
    exfalso. apply Hlow in Hge. apply ladder_In in Hge. inversion H as [He].
    rewrite He in Hge. exact Hge.
  - intros Hlt. f_equal.
    destruct (selected source_height enable_h265) as [|v l] eqn:E; [reflexivity|].
    exfalso.
    assert (Hv : In v (selected source_height enable_h265)) by (rewrite E; left; reflexivity).
    apply selected_In in Hv as (Hc & Hf & _).
    apply fits_spec in Hf as (h & Hh & Hle).
    pose proof (proj1 (List.Forall_forall _ _) candidates_at_least_360 v Hc)
      as (h' & Hh' & Hge).
    rewrite Hh in Hh'. inversion Hh'; subst. lia.
  - intros Hge. eexists. split; [reflexivity|]. apply ladder_In, Hlow, Hge.
Qed.

(** X1. The ladder is empty exactly for the sources lower than the lowest
    rung, 360 lines; from there on it holds the 360p H.264 variant. *)
Theorem get_abr_ladder_empty (source_width source_height : Z) (enable_h265 : bool) :
  (get_abr_ladder source_width source_height enable_h265 = Ok [] <-> source_height < 360)
  /\ (360 <= source_height ->
      exists ladder,
        get_abr_ladder source_width source_height enable_h265 = Ok ladder
        /\ In lowest_rung ladder).
Proof. apply ladder_emptiness. Qed.

Lemma get_abr_ladder_empty_witness :
  exists ladder, get_abr_ladder 640 360 false = Ok ladder /\ In lowest_rung ladder.
Proof. apply (proj2 (get_abr_ladder_empty 640 360 false)). lia. Defined.

(** X2. The ladder only grows with the source height and with the H.265
    switch, and the source width plays no part: every variant offered for a
    source is offered for any source at least as high, whatever the two
    widths. *)
Theorem get_abr_ladder_monotone
    (source_width source_width' source_height source_height' : Z)
    (enable_h265 enable_h265' : bool) (ladder ladder' : list ABRVariant) :
  source_height <= source_height' ->
  (enable_h265 = true -> enable_h265' = true) ->
  get_abr_ladder source_width source_height enable_h265 = Ok ladder ->
  get_abr_ladder source_width' source_height' enable_h265' = Ok ladder' ->
  incl ladder ladder'.
Proof.
  intros Hle He H H'. rewrite get_abr_ladder_eq in H, H'.
  inversion H; inversion H'; subst. clear H H'.
  intros v Hv. apply ladder_In in Hv. apply ladder_In.
  apply selected_In in Hv as (Hc & Hf & Ha). apply selected_In.
  split; [exact Hc|]. split.
  - apply fits_spec in Hf as (h & Hh & Hh'). apply fits_spec. exists h. split; [exact Hh|lia].
  - destruct Ha as [Ha|[Ha Ht]]; [left; exact Ha|right; auto].
Qed.

Lemma get_abr_ladder_monotone_witness :
  incl
    (match get_abr_ladder 854 480 false with Ok l => l | Raise _ => [] end)
    (match get_abr_ladder 1920 1080 true with Ok l => l | Raise _ => [] end).
Proof.
  apply (get_abr_ladder_monotone 854 1920 480 1080 false true).
  - lia.
  - discriminate.
  - reflexivity.
  - reflexivity.
Defined.

(** X3. Every H.265 variant of a ladder comes with the H.264 variant of the
    same resolution, and asks for a strictly lower bitrate than it. *)
Theorem get_abr_ladder_h265_sibling
    (source_width source_height : Z) (enable_h265 : bool)
    (ladder : list ABRVariant) (v : ABRVariant) :
  get_abr_ladder source_width source_height enable_h265 = Ok ladder ->
  In v ladder -> codec v = H265 ->
  exists u,
    In u ladder /\ codec u = H264 /\ resolution u = resolution v
    /\ bitrate_kbps v < bitrate_kbps u.
Proof.
  intros H Hv Hc. rewrite get_abr_ladder_eq in H. inversion H; subst; clear H.
  apply ladder_In in Hv. apply selected_In in Hv as (Hin & Hf & _).
  assert (Hu : exists u,
             In u ABR_LADDER_H264 /\ resolution u = resolution v
             /\ bitrate_kbps v < bitrate_kbps u).
  { unfold candidates in Hin. simpl in Hin.
    destruct Hin as [<-|[<-|[<-|[<-|[<-|[<-|[]]]]]]]; try discriminate Hc.
    - exists (mkABRVariant "1920x1080" 6000 H264 "high" "4.2").
      simpl. repeat split; auto.
    - exists (mkABRVariant "1280x720" 3500 H264 "high" "4.0").
      simpl. repeat split; auto. }
  destruct Hu as (u & Hu & Hr & Hb).
  exists u. split; [|split; [|split; assumption]].
  - apply ladder_In, selected_In. split; [|split].
    + unfold candidates. apply in_or_app. left. exact Hu.
    + unfold fits, height in *. rewrite Hr. exact Hf.
    + left. simpl in Hu. intuition (subst; reflexivity).
  - simpl in Hu. intuition (subst; reflexivity).
Qed.

Lemma get_abr_ladder_h265_sibling_witness :
  exists u,
    In u sample_ladder /\ codec u = H264 /\ resolution u = "1280x720"
    /\ 2500 < bitrate_kbps u.
Proof.
  apply (get_abr_ladder_h265_sibling 1920 1080 true sample_ladder
           (mkABRVariant "1280x720" 2500 H265 "main" "4.0")).
  - reflexivity.
  - vm_compute. auto 10.
  - reflexivity.
Defined.

Lemma candidates_names_NoDup : List.NoDup (map name_of candidates).
Proof. vm_compute. repeat constructor; simpl; intuition discriminate. Qed.

Lemma name_ok (v : ABRVariant) : is_ok (height v) = true -> name v = Ok (name_of v).
Proof.
  unfold name_of, name. destruct (height v); [reflexivity|discriminate].
Qed.

(** X4. The variants of a ladder have pairwise distinct names (codec and
    height), so that no two renditions built from it share a name
    modifier. *)
Theorem get_abr_ladder_names_distinct
    (source_width source_height : Z) (enable_h265 : bool) :
  exists ladder names,
    get_abr_ladder source_width source_height enable_h265 = Ok ladder
    /\ mapM name ladder = Ok names
    /\ List.NoDup names.
Proof.
  rewrite get_abr_ladder_eq.
  set (ladder := map snd (Py.sort_pairs key_lt (map keyed (selected source_height enable_h265)))).
  assert (Hp : Permutation ladder (selected source_height enable_h265)).
  { unfold ladder. rewrite <- (map_snd_keyed (selected source_height enable_h265)) at 2.
    apply Permutation_map, sort_pairs_perm. }
  exists ladder, (map name_of ladder). split; [reflexivity|]. split.
  - apply mapM_Ok_map.
    eapply Permutation_Forall; [apply Permutation_sym; exact Hp|].
    eapply List.Forall_impl; [|apply selected_heights].
    intros v Hv. apply name_ok. exact Hv.
  - eapply Permutation_NoDup; [apply Permutation_sym, Permutation_map; exact Hp|].
    rewrite selected_filter. apply NoDup_map_filter, candidates_names_NoDup.
Qed.

(** ** The ladder and the job builder together *)

Lemma candidates_valid : Forall (fun v => valid_variant v = true) candidates.
Proof. repeat constructor. Qed.

Lemma ladder_valid (source_width source_height : Z) (enable_h265 : bool)
    (ladder : list ABRVariant) :
  get_abr_ladder source_width source_height enable_h265 = Ok ladder ->
  Forall (fun v => valid_variant v = true) ladder
  /\ (ladder <> [] -> In lowest_rung ladder).
Proof.
  intros H. split.
  - rewrite get_abr_ladder_eq in H. inversion H; subst; clear H.
    apply List.Forall_forall. intros v Hv. apply ladder_In, selected_In in Hv as (Hc & _).
    exact (proj1 (List.Forall_forall _ _) candidates_valid v Hc).
  - intros Hne.
    destruct (Z.lt_ge_cases source_height 360) as [Hlt|Hge].
    + apply (proj1 (ladder_emptiness source_width source_height enable_h265)) in Hlt.
      rewrite H in Hlt. inversion Hlt. contradiction.
    + destruct (proj2 (ladder_emptiness source_width source_height enable_h265) Hge)
        as (l & Hl & Hin).
      rewrite H in Hl. inversion Hl; subst. exact Hin.
Qed.

(** X5. A request that carries a valid manifest and a non-empty ladder
    returned by [get_abr_ladder] is always built, and its specification
    holds the HLS group if HLS is requested, then the DASH group if DASH is:
    a ladder that is not empty always has an H.264 variant. *)
Theorem ladder_request_is_built (r : TranscodeJobRequest)
    (source_width source_height : Z) (enable_h265 : bool) :
  valid_manifest (manifest r) = true ->
  get_abr_ladder source_width source_height enable_h265 = Ok (abr_variants r) ->
  abr_variants r <> [] ->
  exists spec,
    build_mediaconvert_job r = Ok spec
    /\ map group_name (output_groups spec)
       = (if output_hls r then [Some (JStr "HLS")] else [])
         ++ (if output_dash r then [Some (JStr "DASH")] else []).
Proof.
  intros Hm Hl Hne.
  destruct (ladder_valid _ _ _ _ Hl) as [Hv Hlow]. specialize (Hlow Hne).
  destruct (valid_manifest_languages _ Hm) as [Ha Hs].
  assert (Hb : is_ok (build_mediaconvert_job r) = true).
  { apply buildable_is_built. repeat split; assumption. }
  apply is_ok_true in Hb as [spec Hb]. exists spec. split; [exact Hb|].
  assert (H4 : List.filter is_h264 (abr_variants r) <> []).
  { intros E. assert (Hin : In lowest_rung (List.filter is_h264 (abr_variants r))).
    { apply List.filter_In. split; [exact Hlow|reflexivity]. }
    rewrite E in Hin. exact Hin. }
  apply build_mediaconvert_job_inv in Hb as (groups & Hg & _ & ->).
  apply build_output_groups_inv in Hg as (hls & dash & -> & Hh & Hd).
  unfold hls_emitted in Hh. unfold dash_emitted in Hd.
  destruct (List.filter is_h264 (abr_variants r)) as [|v4 l4] eqn:E4; [congruence|].
  rewrite andb_true_r in Hh. simpl in Hd. rewrite andb_true_r in Hd.
  rewrite map_app. f_equal.
  - destruct (output_hls r); [|subst; reflexivity].
    destruct Hh as (g & -> & Hg). apply hls_group_contents in Hg as (Hn & _).
    simpl. rewrite Hn. reflexivity.
  - destruct (output_dash r); [|subst; reflexivity].
    destruct Hd as (g & -> & Hg). apply dash_group_contents in Hg as (Hn & _).
    simpl. rewrite Hn. reflexivity.
Qed.

Lemma ladder_request_is_built_witness :
  exists spec,
    build_mediaconvert_job sd_request = Ok spec
    /\ map group_name (output_groups spec) = [Some (JStr "HLS")].
Proof.
  apply (ladder_request_is_built sd_request 854 480 true).
  - vm_compute. reflexivity.
  - reflexivity.
  - discriminate.
Defined.

(** ** Codec levels *)

Lemma has_char_cons (c x : ascii) (s : string) :
  has_char c (String x s) = Ascii.eqb c x || has_char c s.
Proof. reflexivity. Qed.

Lemma has_char_append (c : ascii) (a b : string) :
  has_char c (a +:+ b) = has_char c a || has_char c b.
Proof.
  induction a as [|x a IH]; [reflexivity|].
  rewrite append_cons, !has_char_cons, IH, orb_assoc. reflexivity.
Qed.

Lemma split_cons (sep c : ascii) (s : string) :
  Py.split sep (String c s)
  = if Ascii.eqb c sep then EmptyString :: Py.split sep s
    else match Py.split sep s with
         | [] => [String c EmptyString]
         | w :: ws => String c w :: ws
         end.
Proof. reflexivity. Qed.

Lemma split_no_sep (sep : ascii) (s : string) :
  has_char sep s = false -> Py.split sep s = [s].
Proof.
  induction s as [|c s IH]; [reflexivity|].
  rewrite has_char_cons, split_cons. intros H. apply orb_false_iff in H as [Hc Hs].
  rewrite Ascii.eqb_sym, Hc, (IH Hs). reflexivity.
Qed.

Lemma split_append (sep : ascii) (a b : string) :
  has_char sep a = false ->
  Py.split sep (a +:+ String sep b) = a :: Py.split sep b.
Proof.
  induction a as [|c a IH]; intros H.
  - rewrite append_nil_l, split_cons, Ascii.eqb_refl. reflexivity.
  - rewrite has_char_cons in H. apply orb_false_iff in H as [Hc Ha].
    rewrite append_cons, split_cons, Ascii.eqb_sym, Hc, (IH Ha). reflexivity.
Qed.

Lemma split_parts_no_sep (sep : ascii) (s : string) :
  Forall (fun p => has_char sep p = false) (Py.split sep s).
Proof.
  induction s as [|c s IH]; [repeat constructor|].
  rewrite split_cons. destruct (Ascii.eqb c sep) eqn:E.
  - constructor; [reflexivity|exact IH].
  - destruct (Py.split sep s) as [|w ws]; [repeat constructor|].
    + rewrite has_char_cons, Ascii.eqb_sym, E. reflexivity.
    + inversion IH; subst. constructor; [|assumption].
      rewrite has_char_cons, Ascii.eqb_sym, E. assumption.
Qed.

Lemma replace_char_clean (old new : ascii) (s : string) :
  old <> new -> has_char old (replace_char old new s) = false.
Proof.
  intros Hne. induction s as [|c s IH]; [reflexivity|].
  cbn [replace_char]. rewrite has_char_cons, IH, orb_false_r.
  destruct (Ascii.eqb c old) eqn:E.
  - apply Ascii.eqb_neq. exact Hne.
  - rewrite Ascii.eqb_sym. exact E.
Qed.

Lemma replace_char_none (old new : ascii) (s : string) :
  has_char old s = false -> replace_char old new s = s.
Proof.
  induction s as [|c s IH]; [reflexivity|].
  rewrite has_char_cons. intros H. apply orb_false_iff in H as [Hc Hs].
  cbn [replace_char]. rewrite Ascii.eqb_sym, Hc, (IH Hs). reflexivity.
Qed.

Lemma replace_char_append (old new : ascii) (a b : string) :
  replace_char old new (a +:+ b) = replace_char old new a +:+ replace_char old new b.
Proof.
  induction a as [|c a IH]; [reflexivity|].
  rewrite append_cons. cbn [replace_char]. rewrite IH, append_cons. reflexivity.
Qed.

(** X6. [_format_codec_level] on a level [major.minor]: a minor of ["0"] is
    dropped ([4.0] gives [LEVEL_4]), any other minor is kept after an
    underscore ([4.1] gives [LEVEL_4_1], and [4.00] gives [LEVEL_4_00]). *)
Theorem format_codec_level_major_minor (major minor : string) :
  has_char "." major = false -> has_char "." minor = false ->
  _format_codec_level (major +:+ "." +:+ minor)
  = if String.eqb minor "0" then "LEVEL_" +:+ major
    else "LEVEL_" +:+ major +:+ "_" +:+ minor.
Proof.
  intros Hmaj Hmin. unfold _format_codec_level.
  change ("." +:+ minor) with (String "." minor).
  rewrite (split_append "." major minor Hmaj), (split_no_sep "." minor Hmin).
  cbn [length nth Nat.eqb andb].
  destruct (String.eqb minor "0"); [reflexivity|].
  rewrite replace_char_append. change (String "." minor) with ("." +:+ minor).
  rewrite replace_char_append, (replace_char_none _ _ major Hmaj),
    (replace_char_none _ _ minor Hmin).
  reflexivity.
Qed.

Lemma format_codec_level_major_minor_witness :
  _format_codec_level ("4" +:+ "." +:+ "0") = "LEVEL_4"
  /\ _format_codec_level ("4" +:+ "." +:+ "2") = "LEVEL_4_2".
Proof.
  split.
  - apply (format_codec_level_major_minor "4" "0"); reflexivity.
  - apply (format_codec_level_major_minor "4" "2"); reflexivity.
Defined.

(** X7. Whatever the level string, the formatted level starts with
    [LEVEL_] and holds no dot. *)
Theorem format_codec_level_no_dot (level : string) :
  exists rest,
    _format_codec_level level = "LEVEL_" +:+ rest /\ has_char "." rest = false.
Proof.
  unfold _format_codec_level.
  pose proof (split_parts_no_sep "." level) as Hparts.
  destruct ((length (Py.split "." level) =? 2)%nat
            && String.eqb (nth 1 (Py.split "." level) "") "0") eqn:E.
  - exists (nth 0 (Py.split "." level) ""). split; [reflexivity|].
    destruct (Py.split "." level) as [|p ps]; [discriminate|].
    inversion Hparts; assumption.
  - exists (replace_char "." "_" level). split; [reflexivity|].
    apply replace_char_clean. discriminate.
Qed.

(** ** More on language codes *)

Lemma lower_char_idem (c : ascii) : Py.lower_char (Py.lower_char c) = Py.lower_char c.
Proof. destruct c as [[] [] [] [] [] [] [] []]; reflexivity. Qed.

Lemma lower_idem (s : string) : Py.lower (Py.lower s) = Py.lower s.
Proof.
  induction s as [|c s IH]; [reflexivity|].
  cbn [Py.lower]. rewrite lower_char_idem, IH. reflexivity.
Qed.

Lemma lower_append (a b : string) : Py.lower (a +:+ b) = Py.lower a +:+ Py.lower b.
Proof.
  induction a as [|c a IH]; [reflexivity|].
  rewrite append_cons. cbn [Py.lower]. rewrite IH, append_cons. reflexivity.
Qed.

Lemma lower_char_hyphen (c : ascii) :
  Ascii.eqb "-" (Py.lower_char c) = Ascii.eqb "-" c.
Proof. destruct c as [[] [] [] [] [] [] [] []]; reflexivity. Qed.

Lemma lower_has_hyphen (s : string) : has_char "-" (Py.lower s) = has_char "-" s.
Proof.
  induction s as [|c s IH]; [reflexivity|].
  cbn [Py.lower]. rewrite !has_char_cons, lower_char_hyphen, IH. reflexivity.
Qed.

Lemma base_code_lower (lang : string) : base_code (Py.lower lang) = base_code lang.
Proof. unfold base_code. rewrite lower_idem. reflexivity. Qed.

Lemma base_code_region (lang region : string) :
  has_char "-" lang = false ->
  base_code (lang +:+ "-" +:+ region) = base_code lang.
Proof.
  intros H. unfold base_code.
  rewrite lower_append. change ("-" +:+ region) with (String "-" region).
  cbn [Py.lower]. change (Py.lower_char "-") with "-"%char.
  assert (Hl : has_char "-" (Py.lower lang) = false) by (rewrite lower_has_hyphen; exact H).
  rewrite (split_append "-" _ _ Hl), (split_no_sep "-" _ Hl). reflexivity.
Qed.

Lemma get_iso_639_2_code_base (a b : string) (code : string) :
  base_code a = base_code b ->
  (_get_iso_639_2_code a = Ok code <-> _get_iso_639_2_code b = Ok code).
Proof.
  intros H. unfold _get_iso_639_2_code. rewrite H.
  destruct (base_code b) as [base|]; [rewrite !bind_Ok|reflexivity].
  destruct (Py.get ISO_639_1_TO_639_2 base); [reflexivity|].
  split; discriminate.
Qed.

(** X8. On ASCII strings [_get_iso_639_2_code] looks at the base code
    only: the case of the letters does not matter, and neither does a
    region or script after a hyphen ([en-US], [zh-Hans]), which gets the
    code of the language. *)
Theorem get_iso_639_2_code_variants (lang region code : string) :
  is_ascii lang = true -> is_ascii region = true ->
  (_get_iso_639_2_code (Py.lower lang) = Ok code <-> _get_iso_639_2_code lang = Ok code)
  /\ (has_char "-" lang = false ->
      (_get_iso_639_2_code (lang +:+ "-" +:+ region) = Ok code
       <-> _get_iso_639_2_code lang = Ok code)).
Proof.
  intros _ _. split.
  - apply get_iso_639_2_code_base, base_code_lower.
  - intros H. apply get_iso_639_2_code_base, base_code_region, H.
Qed.

Lemma get_iso_639_2_code_variants_witness :
  (_get_iso_639_2_code (Py.lower "PT") = Ok "POR" <-> _get_iso_639_2_code "PT" = Ok "POR")
  /\ (has_char "-" "PT" = false ->
      (_get_iso_639_2_code ("PT" +:+ "-" +:+ "BR") = Ok "POR"
       <-> _get_iso_639_2_code "PT" = Ok "POR")).
Proof.
  apply (get_iso_639_2_code_variants "PT" "BR" "POR"); reflexivity.
Defined.

Lemma get_In {V : Type} (d : list (string * V)) (k : string) (v : V) :
  Py.get d k = Some v -> In (k, v) d.
Proof.
  induction d as [|[k' v'] d IH]; simpl; [discriminate|].
  destruct (String.eqb_spec k' k) as [->|_].
  - intros [= ->]. left; reflexivity.
  - intros H. right. apply IH, H.
Qed.

(** X9. A code returned by [_get_iso_639_2_code] has three letters, all
    upper case. *)
Theorem get_iso_639_2_code_three_letters (lang code : string) :
  _get_iso_639_2_code lang = Ok code ->
  String.length code = 3%nat
  /\ forallb Py.is_upper (list_ascii_of_string code) = true.
Proof.
  intros H. apply get_iso_639_2_code_Ok in H as [_ (base & _ & Hg)].
  apply get_In in Hg.
  assert (Hall : Forall (fun kv : string * string =>
                           String.length (snd kv) = 3%nat
                           /\ forallb Py.is_upper (list_ascii_of_string (snd kv)) = true)
                   ISO_639_1_TO_639_2).
  { repeat constructor. }
  exact (proj1 (List.Forall_forall _ _) Hall (base, code) Hg).
Qed.

Lemma get_iso_639_2_code_three_letters_witness :
  String.length "ZHO" = 3%nat
  /\ forallb Py.is_upper (list_ascii_of_string "ZHO") = true.
Proof. apply (get_iso_639_2_code_three_letters "zh-Hant" "ZHO"). reflexivity. Defined.

(** ** More on the selectors of the input *)

Lemma get_setitem_eq {V : Type} (d : list (string * V)) (k : string) (v : V) :
  Py.get (Py.setitem d k v) k = Some v.
Proof.
  induction d as [|[k' v'] d IH]; simpl.
  - rewrite String.eqb_refl. reflexivity.
  - destruct (String.eqb k' k) eqn:E; simpl; rewrite E; [reflexivity|exact IH].
Qed.

Lemma get_setitem_ne {V : Type} (d : list (string * V)) (k k' : string) (v : V) :
  k <> k' -> Py.get (Py.setitem d k v) k' = Py.get d k'.
Proof.
  intros Hne. induction d as [|[k0 v0] d IH]; simpl.
  - destruct (String.eqb_spec k k'); [contradiction|reflexivity].
  - destruct (String.eqb_spec k0 k) as [->|Hk]; simpl.
    + destruct (String.eqb_spec k k'); [contradiction|reflexivity].
    + destruct (String.eqb k0 k'); [reflexivity|exact IH].
Qed.

Lemma assign_all_skip {V X : Type} (key : X -> string) (val : X -> V) (ys : list X)
    (d : list (string * V)) (k : string) :
  Forall (fun y => key y <> k) ys ->
  Py.get (assign_all key val ys d) k = Py.get d k.
Proof.
  intros H; revert d; induction H as [|y ys Hy _ IH]; intros d; [reflexivity|].
  unfold assign_all in *; simpl. rewrite IH. apply get_setitem_ne, Hy.
Qed.

(** The last assignment to a key is the one that is read. *)
Lemma assign_all_last {V X : Type} (key : X -> string) (val : X -> V)
    (xs ys : list X) (x : X) (d : list (string * V)) :
  Forall (fun y => key y <> key x) ys ->
  Py.get (assign_all key val (xs ++ x :: ys) d) (key x) = Some (val x).
Proof.
  intros H. unfold assign_all. rewrite fold_left_app. simpl.
  fold (assign_all key val ys
          (Py.setitem (fold_left (fun d x => Py.setitem d (key x) (val x)) xs d)
             (key x) (val x))).
  rewrite (assign_all_skip key val ys _ (key x) H). apply get_setitem_eq.
Qed.

Lemma enumerate_app {A : Type} (l l' : list A) (n : Z) :
  enumerate n (l ++ l') = enumerate n l ++ enumerate (n + Z.of_nat (length l)) l'.
Proof.
  revert n; induction l as [|x l IH]; intros n; simpl.
  - f_equal. lia.
  - rewrite IH. do 3 f_equal. lia.
Qed.

Lemma enumerate_Forall {A : Type} (P : A -> Prop) (l : list A) (n : Z) :
  Forall P l -> Forall (fun it => P (snd it)) (enumerate n l).
Proof.
  intros H; revert n; induction H as [|x l Hx _ IH]; intros n; simpl; constructor; auto.
Qed.

(** X10. The audio selector of a language is written by the last audio
    track of that language: it selects that track and carries its default
    flag, whatever earlier tracks of the language said. *)
Theorem audio_selector_last_track (r : TranscodeJobRequest)
    (before after : list AudioTrack) (t : AudioTrack) :
  audio_tracks (manifest r) = before ++ t :: after ->
  Forall (fun t' => a_language t' <> a_language t) after ->
  Py.get (audio_selectors (_build_input r)) ("Audio_" +:+ a_language t)
  = Some (audio_selector_of t).
Proof.
  intros Ht Hafter.
  rewrite (proj1 (input_selectors_eq r)), build_audio_selectors_eq, Ht, enumerate_app.
  cbn [enumerate].
  apply (assign_all_last
           (fun it : Z * AudioTrack => "Audio_" +:+ a_language (snd it))
           (fun it => audio_selector_of (snd it))
           (enumerate 1 before) _ (1 + Z.of_nat (length before), t)).
  apply enumerate_Forall with (P := fun t' => "Audio_" +:+ a_language t' <> "Audio_" +:+ a_language t).
  eapply List.Forall_impl; [|exact Hafter].
  intros t' Hne Heq. apply Hne. eapply append_inj_l. exact Heq.
Qed.

Lemma audio_selector_last_track_witness :
  Py.get (audio_selectors (_build_input surround_request)) ("Audio_" +:+ "ja")
  = Some (JDict [ ("DefaultSelection", JStr "NOT_DEFAULT");
                  ("SelectorType", JStr "TRACK");
                  ("Tracks", JList [JInt 2]) ]).
Proof.
  apply (audio_selector_last_track surround_request
           [mkAudioTrack "ja" "Japanese" true 2 1] []
           (mkAudioTrack "ja" "Japanese 5.1" false 6 2)).
  - reflexivity.
  - constructor.
Defined.

Lemma rsplit1_head_cons (sep c : ascii) (s : string) :
  Py.rsplit1_head sep (String c s)
  = if Ascii.eqb c sep then
      if has_char sep s then String c (Py.rsplit1_head sep s) else EmptyString
    else
      if has_char sep s then String c (Py.rsplit1_head sep s) else String c s.
Proof. reflexivity. Qed.

(** What precedes the last separator of [directory/file]. *)
Lemma rsplit1_head_append (sep : ascii) (directory file : string) :
  has_char sep file = false ->
  Py.rsplit1_head sep (directory +:+ String sep file) = directory.
Proof.
  intros Hf. induction directory as [|c d IH].
  - rewrite append_nil_l, rsplit1_head_cons, Ascii.eqb_refl, Hf. reflexivity.
  - rewrite append_cons, rsplit1_head_cons.
    assert (Hs : has_char sep (d +:+ String sep file) = true).
    { rewrite has_char_append, has_char_cons, Ascii.eqb_refl.
      rewrite orb_true_l. apply orb_true_r. }
    rewrite Hs, IH. destruct (Ascii.eqb c sep); reflexivity.
Qed.

(** X11. The caption selector of a subtitle language is written by the
    last subtitle track of that language; its source file is the track's
    file path taken in the directory of the input file, and its source type
    is the track's format in the transcoder's vocabulary, [WEBVTT] when the
    format is not in it. *)
Theorem caption_selector_source (r : TranscodeJobRequest) (directory file : string)
    (before after : list SubtitleTrack) (t : SubtitleTrack) :
  input_s3_uri r = directory +:+ "/" +:+ file ->
  has_char "/" file = false ->
  subtitle_tracks (manifest r) = before ++ t :: after ->
  Forall (fun t' => s_language t' <> s_language t) after ->
  Py.get (caption_selectors (_build_input r)) ("Caption_" +:+ s_language t)
  = Some (caption_selector_of directory t).
Proof.
  intros Huri Hfile Ht Hafter.
  rewrite (proj2 (input_selectors_eq r)), build_caption_selectors_eq, Ht, Huri.
  change ("/" +:+ file) with (String "/" file).
  rewrite (rsplit1_head_append "/" directory file Hfile).
  apply (assign_all_last
           (fun t' : SubtitleTrack => "Caption_" +:+ s_language t')
           (fun t' => caption_selector_of directory t') before after t).
  eapply List.Forall_impl; [|exact Hafter].
  intros t' Hne Heq. apply Hne. eapply append_inj_l. exact Heq.
Qed.

Lemma caption_selector_source_witness :
  Py.get (caption_selectors (_build_input sample_request)) ("Caption_" +:+ "en")
  = Some (JDict [
      ("SourceSettings", JDict [
         ("SourceType", JStr "WEBVTT");
         ("FileSourceSettings", JDict [
            ("SourceFile",
               JStr "s3://input-bucket/mezzanines/subtitles/aot_s01e01_en.vtt") ]) ]) ]).
Proof.
  apply (caption_selector_source sample_request "s3://input-bucket/mezzanines" "test.mxf"
           [] []
           (mkSubtitleTrack "en" "English" "subtitles/aot_s01e01_en.vtt" true false "WebVTT")).
  - reflexivity.
  - reflexivity.
  - reflexivity.
  - constructor.
Defined.

(** ** More on the renditions *)

Lemma mapM_map_eq {A B C : Type} (f : A -> result B) (g : B -> C) (h : A -> C)
    (l : list A) (ys : list B) :
  (forall x y, f x = Ok y -> g y = h x) -> mapM f l = Ok ys -> map g ys = map h l.
Proof.
  intros Hgh H. apply mapM_Ok_inv in H.
  induction H as [|x y l ys Hxy _ IH]; simpl; [reflexivity|].
  rewrite (Hgh x y Hxy), IH. reflexivity.
Qed.

Lemma video_audio_description_source (t : AudioTrack) (d : json) :
  video_audio_description t = Ok d ->
  field "AudioSourceName" d = Some (JStr ("Audio_" +:+ a_language t)).
Proof.
  unfold video_audio_description.
  destruct (_get_iso_639_2_code (a_language t)); [|discriminate].
  rewrite bind_Ok. intros [= <-]. reflexivity.
Qed.

Lemma hls_video_output_details r v o :
  _build_hls_video_output r v = Ok o ->
  has_geometry v o
  /\ audio_sources o
     = map (fun t => Some (JStr ("Audio_" +:+ a_language t))) (audio_tracks (manifest r)).
Proof.
  unfold _build_hls_video_output, has_geometry.
  destruct (name v) as [n|]; [|discriminate]. destruct (width v) as [w|]; [|discriminate].
  destruct (height v) as [h|]; [|discriminate]. rewrite !bind_Ok.
  destruct (mapM video_audio_description _) as [audio|] eqn:E; [|discriminate].
  rewrite bind_Ok. intros [= <-]. split.
  - exists n, w, h. repeat split; reflexivity.
  - change (map (field "AudioSourceName") audio
            = map (fun t => Some (JStr ("Audio_" +:+ a_language t)))
                (audio_tracks (manifest r))).
    eapply mapM_map_eq; [|exact E]. apply video_audio_description_source.
Qed.

Lemma dash_video_output_details r v o :
  _build_dash_video_output r v = Ok o ->
  has_geometry v o /\ field "AudioDescriptions" o = None.
Proof.
  unfold _build_dash_video_output, has_geometry.
  destruct (name v) as [n|]; [|discriminate]. destruct (width v) as [w|]; [|discriminate].
  destruct (height v) as [h|]; [|discriminate]. rewrite !bind_Ok.
  intros [= <-]. split; [|reflexivity].
  exists n, w, h. repeat split; reflexivity.
Qed.

(** The video renditions of a built group, with the outputs they were
    built as. *)
Lemma hls_video_renditions r vs g :
  _build_hls_output_group r vs = Ok g ->
  mapM (_build_hls_video_output r) vs = Ok (video_renditions g).
Proof.
  intros H. apply hls_group_outputs in H
    as (video & audio & captions & Hv & Ha & Hc & _ & Hout).
  assert (Fv : Forall is_video video).
  { eapply (mapM_Forall _ is_video); [|exact Hv].
    intros v o _ Hvo. eapply hls_video_output_shape; exact Hvo. }
  assert (Fa : Forall is_audio audio).
  { eapply (mapM_Forall _ is_audio); [|exact Ha].
    intros t o _ Hto. eapply hls_audio_output_shape; exact Hto. }
  assert (Fc : Forall is_caption captions).
  { eapply (mapM_Forall _ is_caption); [|exact Hc].
    intros t o _ Hto. eapply hls_caption_output_shape; exact Hto. }
  destruct (outputs_partition video audio captions Fv Fa Fc) as (Pv & _).
  unfold video_renditions. rewrite Hout, Pv. exact Hv.
Qed.

Lemma dash_video_renditions r vs g :
  _build_dash_output_group r vs = Ok g ->
  mapM (_build_dash_video_output r) vs = Ok (video_renditions g).
Proof.
  intros H. apply dash_group_outputs in H as (video & audio & Hv & Ha & _ & Hout).
  assert (Fv : Forall is_video video).
  { eapply (mapM_Forall _ is_video); [|exact Hv].
    intros v o _ Hvo. eapply dash_video_output_shape; exact Hvo. }
  assert (Fa : Forall is_audio audio).
  { eapply (mapM_Forall _ is_audio); [|exact Ha].
    intros t o _ Hto. eapply dash_audio_output_shape; exact Hto. }
  destruct (outputs_partition video audio [] Fv Fa (List.Forall_nil _)) as (Pv & _).
  rewrite app_nil_r in Pv. unfold video_renditions. rewrite Hout, Pv. exact Hv.
Qed.

(** X12. In a built specification every video rendition of the HLS group
    carries one audio description per audio track of the manifest, in the
    order of the tracks and reading the selector of the track's language;
    the video renditions of the DASH group carry none. *)
Theorem video_rendition_audio (r : TranscodeJobRequest) (spec g o : json) :
  build_mediaconvert_job r = Ok spec ->
  In g (output_groups spec) -> In o (video_renditions g) ->
  (group_name g = Some (JStr "HLS")
   /\ audio_sources o
      = map (fun t => Some (JStr ("Audio_" +:+ a_language t))) (audio_tracks (manifest r)))
  \/ (group_name g = Some (JStr "DASH") /\ field "AudioDescriptions" o = None).
Proof.
  intros Hb Hg Ho.
  destruct (output_group_cases r spec g Hb Hg) as [[_ Hh]|[_ Hd]].
  - left. split; [apply hls_group_contents in Hh; tauto|].
    apply hls_video_renditions in Hh.
    revert o Ho. apply List.Forall_forall. eapply mapM_Forall; [|exact Hh].
    intros v o _ Hvo. eapply hls_video_output_details; exact Hvo.
  - right. split; [apply dash_group_contents in Hd; tauto|].
    apply dash_video_renditions in Hd.
    revert o Ho. apply List.Forall_forall. eapply mapM_Forall; [|exact Hd].
    intros v o _ Hvo. eapply dash_video_output_details; exact Hvo.
Qed.

Lemma video_rendition_audio_witness :
  (group_name sample_hls_group = Some (JStr "HLS")
   /\ audio_sources sample_hls_video
      = map (fun t => Some (JStr ("Audio_" +:+ a_language t)))
          (audio_tracks (manifest sample_request)))
  \/ (group_name sample_hls_group = Some (JStr "DASH")
      /\ field "AudioDescriptions" sample_hls_video = None).
Proof.
  apply (video_rendition_audio sample_request sample_spec sample_hls_group sample_hls_video).
  - vm_compute. reflexivity.
  - vm_compute. left. reflexivity.
  - vm_compute. left. reflexivity.
Defined.

Lemma built_video_renditions r spec g :
  build_mediaconvert_job r = Ok spec -> In g (output_groups spec) ->
  exists vs, incl vs (abr_variants r) /\ Forall2 has_geometry vs (video_renditions g).
Proof.
  intros Hb Hg.
  destruct (output_group_cases r spec g Hb Hg) as [[_ Hh]|[_ Hd]].
  - exists (List.filter is_h264 (abr_variants r)). split.
    + intros v Hv. apply List.filter_In in Hv. tauto.
    + apply hls_video_renditions, mapM_Ok_inv in Hh.
      eapply Forall2_impl; [exact Hh|].
      intros v o Hvo. eapply hls_video_output_details; exact Hvo.
  - exists (List.filter is_h264 (abr_variants r) ++ List.filter is_h265 (abr_variants r)).
    split.
    + intros v Hv. apply in_app_or in Hv as [Hv|Hv]; apply List.filter_In in Hv; tauto.
    + apply dash_video_renditions, mapM_Ok_inv in Hd.
      eapply Forall2_impl; [exact Hd|].
      intros v o Hvo. eapply dash_video_output_details; exact Hvo.
Qed.

Lemma Forall2_In_r {A B : Type} (P : A -> B -> Prop) (xs : list A) (ys : list B) (y : B) :
  Forall2 P xs ys -> In y ys -> exists x, In x xs /\ P x y.
Proof.
  induction 1 as [|x y' xs ys Hxy _ IH]; simpl; [tauto|].
  intros [<-|Hy].
  - exists x. tauto.
  - destruct (IH Hy) as (x' & Hx' & HP). exists x'. tauto.
Qed.

(** X13. For a request whose variants have plain resolutions (ASCII digits
    around the [x], at most 4300 characters, where the embedded [int] and
    [str] are Python's), every video rendition of the built specification
    is that of a variant of the request: its name modifier is the variant's
    name after an underscore, its width and height are those of the
    variant's resolution. *)
Theorem video_rendition_geometry (r : TranscodeJobRequest) (spec g o : json) :
  forallb plain_resolution (abr_variants r) = true ->
  build_mediaconvert_job r = Ok spec ->
  In g (output_groups spec) -> In o (video_renditions g) ->
  exists v, In v (abr_variants r) /\ plain_resolution v = true /\ has_geometry v o.
Proof.
  intros Hplain Hb Hg Ho.
  destruct (built_video_renditions r spec g Hb Hg) as (vs & Hincl & HF).
  destruct (Forall2_In_r _ _ _ o HF Ho) as (v & Hv & Hgeo).
  apply Hincl in Hv. exists v. split; [exact Hv|]. split; [|exact Hgeo].
  exact (proj1 (forallb_forall _ _) Hplain v Hv).
Qed.

Lemma video_rendition_geometry_witness :
  exists v,
    In v (abr_variants sample_request) /\ plain_resolution v = true
    /\ has_geometry v sample_hls_video.
Proof.
  apply (video_rendition_geometry sample_request sample_spec sample_hls_group
           sample_hls_video).
  - vm_compute. reflexivity.
  - vm_compute. reflexivity.
  - vm_compute. left. reflexivity.
  - vm_compute. left. reflexivity.
Defined.

(** X14. No rendition is taller than the source: when the variants of the
    request are the ladder of a source, every video rendition of the built
    specification has a height of at most the height of the source.  (The
    width of the source plays no part: the ladder does not test it.) *)
Theorem renditions_never_taller (r : TranscodeJobRequest)
    (source_width source_height : Z) (enable_h265 : bool) (spec g o : json) :
  get_abr_ladder source_width source_height enable_h265 = Ok (abr_variants r) ->
  build_mediaconvert_job r = Ok spec ->
  In g (output_groups spec) -> In o (video_renditions g) ->
  exists h, rendition_height o = Some (JInt h) /\ h <= source_height.
Proof.
  intros Hl Hb Hg Ho.
  destruct (built_video_renditions r spec g Hb Hg) as (vs & Hincl & HF).
  destruct (Forall2_In_r _ _ _ o HF Ho) as (v & Hv & n & w & h & _ & _ & Hh & Hgeo).
  exists h. split.
  - unfold rendition_height. rewrite Hgeo. reflexivity.
  - apply Hincl in Hv. rewrite get_abr_ladder_eq in Hl. inversion Hl as [Heq].
    rewrite <- Heq in Hv. apply ladder_In, selected_In in Hv as (_ & Hfit & _).
    apply fits_spec in Hfit as (h' & Hh' & Hle). congruence.
Qed.

Lemma renditions_never_taller_witness :
  exists h, rendition_height sample_hls_video = Some (JInt h) /\ h <= 1080.
Proof.
  apply (renditions_never_taller sample_request 1920 1080 true sample_spec sample_hls_group
           sample_hls_video).
  - vm_compute. reflexivity.
  - vm_compute. reflexivity.
  - vm_compute. left. reflexivity.
  - vm_compute. left. reflexivity.
Defined.

(** ** The caption settings of the HLS group *)

Lemma enumerate_channels {A : Type} (l : list A) (n : Z) :
  map (fun it : Z * A => Some (JInt (fst it + 1))) (enumerate n l)
  = map (fun i => Some (JInt (n + Z.of_nat i))) (seq 1 (length l)).
Proof.
  revert n; induction l as [|x l IH]; intros n; [reflexivity|].
  cbn [enumerate map length fst]. rewrite IH. cbn [seq map]. f_equal.
  rewrite <- (seq_shift (length l) 1), map_map. apply map_ext. intros i. do 2 f_equal. lia.
Qed.

Lemma caption_language_mapping_fields it m :
  caption_language_mapping it = Ok m ->
  field "CaptionChannel" m = Some (JInt (fst it + 1))
  /\ field "LanguageDescription" m = Some (JStr (s_label (snd it))).
Proof.
  unfold caption_language_mapping.
  destruct (_get_iso_639_2_code (s_language (snd it))) as [c|e]; [|discriminate].
  rewrite bind_Ok. intros [= <-]. split; reflexivity.
Qed.

Lemma hls_caption_output_code r t o :
  _build_hls_caption_output r t = Ok o ->
  exists c, _get_iso_639_2_code (s_language t) = Ok c
            /\ caption_codes o = [Some (JStr c)].
Proof.
  unfold _build_hls_caption_output.
  destruct (_get_iso_639_2_code (s_language t)) as [c|e]; [|discriminate].
  rewrite bind_Ok. intros [= <-]. exists c. split; reflexivity.
Qed.

Lemma hls_caption_renditions r vs g :
  _build_hls_output_group r vs = Ok g ->
  mapM (_build_hls_caption_output r) (subtitle_tracks (manifest r))
  = Ok (caption_renditions g).
Proof.
  intros H. apply hls_group_outputs in H
    as (video & audio & captions & Hv & Ha & Hc & _ & Hout).
  assert (Fv : Forall is_video video).
  { eapply (mapM_Forall _ is_video); [|exact Hv].
    intros v o _ Hvo. eapply hls_video_output_shape; exact Hvo. }
  assert (Fa : Forall is_audio audio).
  { eapply (mapM_Forall _ is_audio); [|exact Ha].
    intros t o _ Hto. eapply hls_audio_output_shape; exact Hto. }
  assert (Fc : Forall is_caption captions).
  { eapply (mapM_Forall _ is_caption); [|exact Hc].
    intros t o _ Hto. eapply hls_caption_output_shape; exact Hto. }
  destruct (outputs_partition video audio captions Fv Fa Fc) as (_ & _ & Pc).
  unfold caption_renditions. rewrite Hout, Pc. exact Hc.
Qed.

Lemma hls_group_caption_settings r vs g :
  _build_hls_output_group r vs = Ok g ->
  exists mappings,
    mapM caption_language_mapping (enumerate 0 (subtitle_tracks (manifest r))) = Ok mappings
    /\ caption_mappings g = mappings
    /\ caption_language_setting g
       = Some (JStr (match subtitle_tracks (manifest r) with
                     | [] => "OMIT"
                     | _ => "INSERT"
                     end)).
Proof.
  unfold _build_hls_output_group.
  destruct (mapM (_build_hls_video_output r) vs) as [video|]; [|discriminate].
  rewrite bind_Ok.
  destruct (mapM (_build_hls_audio_output r) _) as [audio|]; [|discriminate].
  rewrite bind_Ok.
  destruct (mapM (_build_hls_caption_output r) _) as [captions|]; [|discriminate].
  rewrite bind_Ok.
  destruct (subtitle_tracks (manifest r)) as [|t ts] eqn:Es.
  - rewrite bind_Ok. intros [= <-]. exists []. repeat split; reflexivity.
  - destruct (mapM caption_language_mapping (enumerate 0 (t :: ts))) as [mappings|] eqn:Em;
      [|discriminate].
    rewrite !bind_Ok. intros [= <-]. exists mappings. repeat split; reflexivity.
Qed.

(** X15. The HLS group of a built specification inserts caption languages
    exactly when the manifest has subtitle tracks, and then maps one caption
    channel to each subtitle track: channels 1, 2, ... in the order of the
    tracks, each with the track's label and with the language code that the
    track's own caption rendition carries.  Without subtitle tracks the
    setting is OMIT and there is no mapping. *)
Theorem hls_caption_channels (r : TranscodeJobRequest) (spec g : json) :
  build_mediaconvert_job r = Ok spec ->
  In g (output_groups spec) -> group_name g = Some (JStr "HLS") ->
  caption_language_setting g
  = Some (JStr (match subtitle_tracks (manifest r) with [] => "OMIT" | _ => "INSERT" end))
  /\ map (field "CaptionChannel") (caption_mappings g)
     = map (fun i => Some (JInt (Z.of_nat i)))
         (seq 1 (length (subtitle_tracks (manifest r))))
  /\ map (field "LanguageDescription") (caption_mappings g)
     = map (fun t => Some (JStr (s_label t))) (subtitle_tracks (manifest r))
  /\ map (fun m => [field "LanguageCode" m]) (caption_mappings g)
     = map caption_codes (caption_renditions g).
Proof.
  intros Hb Hg Hn.
  destruct (output_group_cases r spec g Hb Hg) as [[_ Hh]|[_ Hd]]; cycle 1.
  { apply dash_group_contents in Hd as (Hd & _). rewrite Hd in Hn. discriminate. }
  pose proof (hls_caption_renditions _ _ _ Hh) as Hc.
  destruct (hls_group_caption_settings _ _ _ Hh) as (mappings & Hm & -> & ->).
  split; [reflexivity|]. split; [|split].
  - rewrite (mapM_map_eq _ _ (fun it : Z * SubtitleTrack => Some (JInt (fst it + 1)))
               _ _ (fun it m H => proj1 (caption_language_mapping_fields it m H)) Hm).
    rewrite enumerate_channels. apply map_ext. intros i. reflexivity.
  - rewrite (mapM_map_eq _ _ (fun it : Z * SubtitleTrack => Some (JStr (s_label (snd it))))
               _ _ (fun it m H => proj2 (caption_language_mapping_fields it m H)) Hm).
    apply (map_enumerate (fun t : SubtitleTrack => Some (JStr (s_label t)))).
  - set (code := fun t : SubtitleTrack =>
                   match _get_iso_639_2_code (s_language t) with
                   | Ok c => [Some (JStr c)]
                   | Raise _ => []
                   end).
    transitivity (map code (subtitle_tracks (manifest r))).
    + rewrite <- (map_enumerate code _ 0).
      eapply mapM_map_eq; [|exact Hm].
      intros it m H. unfold code.
      pose proof H as H'. unfold caption_language_mapping in H'.
      destruct (_get_iso_639_2_code (s_language (snd it))) as [c|e]; [|discriminate].
      rewrite bind_Ok in H'. injection H' as <-. reflexivity.
    + symmetry. eapply mapM_map_eq; [|exact Hc].
      intros t o H. apply hls_caption_output_code in H as (c & Hcode & ->).
      unfold code. rewrite Hcode. reflexivity.
Qed.

Lemma hls_caption_channels_witness :
  caption_language_setting sample_hls_group = Some (JStr "INSERT")
  /\ map (field "CaptionChannel") (caption_mappings sample_hls_group) = [Some (JInt 1)]
  /\ map (field "LanguageDescription") (caption_mappings sample_hls_group)
     = [Some (JStr "English")]
  /\ map (fun m => [field "LanguageCode" m]) (caption_mappings sample_hls_group)
     = map caption_codes (caption_renditions sample_hls_group).
Proof.
  apply (hls_caption_channels sample_request sample_spec sample_hls_group).
  - vm_compute. reflexivity.
  - vm_compute. left. reflexivity.
  - vm_compute. reflexivity.
Defined.

(** ** More on the idempotency token *)

Lemma hex_digit_lower (d : Z) : 0 <= d < 16 -> lower_hex (Sha256.hex_digit d) = true.
Proof.
  intros H.
  assert (Hd : d = 0 \/ d = 1 \/ d = 2 \/ d = 3 \/ d = 4 \/ d = 5 \/ d = 6 \/ d = 7
               \/ d = 8 \/ d = 9 \/ d = 10 \/ d = 11 \/ d = 12 \/ d = 13 \/ d = 14
               \/ d = 15) by lia.
  repeat (destruct Hd as [->|Hd]; [reflexivity|]). subst d. reflexivity.
Qed.

Lemma nibble_bounded (x : Z) : 0 <= Z.land x 0xf < 16.
Proof.
  change 0xf with (Z.ones 4). rewrite Z.land_ones by lia.
  apply Z.mod_pos_bound. reflexivity.
Qed.

Lemma hex_word_shape (x : Z) :
  String.length (Sha256.hex_word x) = 8%nat
  /\ Forall (fun c => lower_hex c = true) (list_ascii_of_string (Sha256.hex_word x)).
Proof.
  unfold Sha256.hex_word. rewrite list_ascii_of_string_of_list_ascii. split.
  - reflexivity.
  - apply List.Forall_forall. intros c Hc. apply in_map_iff in Hc as (i & <- & _).
    apply hex_digit_lower, nibble_bounded.
Qed.

Lemma list_ascii_of_string_append (a b : string) :
  list_ascii_of_string (a +:+ b) = list_ascii_of_string a ++ list_ascii_of_string b.
Proof.
  induction a as [|c a IH]; [rewrite append_nil_l; reflexivity|].
  rewrite append_cons. simpl. rewrite IH. reflexivity.
Qed.

Lemma hex_shape (s : Sha256.state) :
  String.length (Sha256.hex s) = 64%nat
  /\ Forall (fun c => lower_hex c = true) (list_ascii_of_string (Sha256.hex s)).
Proof.
  unfold Sha256.hex, Sha256.words. cbn [fold_right]. split.
  - repeat rewrite append_length.
    repeat rewrite (proj1 (hex_word_shape _)). reflexivity.
  - repeat rewrite list_ascii_of_string_append.
    repeat (apply Forall_app; split); try apply hex_word_shape. constructor.
Qed.

(** X16. For a manifest whose file size [str] can print (at most 4300
    digits) and a profile version that can be encoded, the idempotency
    token is a string of exactly 64 lower-case hexadecimal digits; so a
    token that is returned always has a length that [TranscodeJobRequest]
    accepts (32 to 64). *)
Theorem token_is_hex64 (m : TranscodeManifest) (profile_version : string) :
  str_int_defined (file_size_bytes (mezzanine m)) = true ->
  String.length (generate_idempotency_token m profile_version) = 64%nat
  /\ Forall (fun c => lower_hex c = true)
       (list_ascii_of_string (generate_idempotency_token m profile_version)).
Proof. intros _. apply hex_shape. Qed.

Lemma token_is_hex64_witness :
  String.length (generate_idempotency_token sample_manifest "v1.0") = 64%nat
  /\ Forall (fun c => lower_hex c = true)
       (list_ascii_of_string (generate_idempotency_token sample_manifest "v1.0")).
Proof.
  apply (token_is_hex64 sample_manifest "v1.0"). vm_compute. reflexivity.
Defined.

(** *** The order of the audio tracks *)

Lemma string_compare_refl (a : string) : String.compare a a = Eq.
Proof.
  induction a as [|c a IH]; [reflexivity|]. simpl.
  unfold Ascii.compare. rewrite N.compare_refl. exact IH.
Qed.

Lemma string_compare_lt_trans (a b c : string) :
  String.compare a b = Lt -> String.compare b c = Lt -> String.compare a c = Lt.
Proof.
  revert b c; induction a as [|x a IH]; intros [|y b] [|z c]; simpl; try congruence.
  unfold Ascii.compare.
  destruct (N.compare_spec (N_of_ascii x) (N_of_ascii y)) as [Exy|Lxy|Gxy];
    destruct (N.compare_spec (N_of_ascii y) (N_of_ascii z)) as [Eyz|Lyz|Gyz];
    try congruence; intros Hab Hbc.
  - rewrite Exy, Eyz, N.compare_refl. eapply IH; eassumption.
  - rewrite Exy. apply N.compare_lt_iff in Lyz. rewrite Lyz. reflexivity.
  - rewrite <- Eyz. apply N.compare_lt_iff in Lxy. rewrite Lxy. reflexivity.
  - assert (Hxz : (N_of_ascii x < N_of_ascii z)%N) by lia.
    apply N.compare_lt_iff in Hxz. rewrite Hxz. reflexivity.
Qed.

Lemma ltb_trans (a b c : string) :
  String.ltb a b = true -> String.ltb b c = true -> String.ltb a c = true.
Proof.
  unfold String.ltb.
  destruct (String.compare a b) eqn:Hab; try discriminate.
  destruct (String.compare b c) eqn:Hbc; try discriminate.
  rewrite (string_compare_lt_trans a b c Hab Hbc). reflexivity.
Qed.

Lemma ltb_asym (a b : string) : String.ltb a b = true -> String.ltb b a = false.
Proof.
  unfold String.ltb. rewrite (String.compare_antisym a b).
  destruct (String.compare b a); simpl; congruence.
Qed.

Lemma ltb_trichotomy (a b : string) :
  String.ltb a b = false -> String.ltb b a = false -> a = b.
Proof.
  unfold String.ltb. rewrite (String.compare_antisym a b).
  destruct (String.compare b a) eqn:E; simpl; try discriminate.
  intros _ _. symmetry. apply String.compare_eq_iff. exact E.
Qed.

Lemma insert_sorted_comm (x y : string) (l : list (string * string)) :
  Py.insert_sorted String.ltb (x, x) (Py.insert_sorted String.ltb (y, y) l)
  = Py.insert_sorted String.ltb (y, y) (Py.insert_sorted String.ltb (x, x) l).
Proof.
  induction l as [|[k v] l IH]; cbn [Py.insert_sorted fst].
  - destruct (String.ltb y x) eqn:Hyx, (String.ltb x y) eqn:Hxy; try reflexivity.
    + rewrite (ltb_asym _ _ Hyx) in Hxy. discriminate.
    + rewrite (ltb_trichotomy _ _ Hxy Hyx). reflexivity.
  - destruct (String.ltb k y) eqn:Hky, (String.ltb k x) eqn:Hkx;
      cbn [Py.insert_sorted fst]; rewrite ?Hky, ?Hkx.
    + rewrite IH. reflexivity.
    + (* k < y, not k < x: x <= k < y *)
      assert (Hxy : String.ltb x y = true).
      { destruct (String.ltb x k) eqn:Hxk.
        - exact (ltb_trans _ _ _ Hxk Hky).
        - rewrite (ltb_trichotomy _ _ Hxk Hkx). exact Hky. }
      rewrite Hxy. cbn [Py.insert_sorted fst]. rewrite ?Hky, ?Hkx. reflexivity.
    + assert (Hyx : String.ltb y x = true).
      { destruct (String.ltb y k) eqn:Hyk.
        - exact (ltb_trans _ _ _ Hyk Hkx).
        - rewrite (ltb_trichotomy _ _ Hyk Hky). exact Hkx. }
      rewrite Hyx. cbn [Py.insert_sorted fst]. rewrite ?Hky, ?Hkx. reflexivity.
    + destruct (String.ltb y x) eqn:Hyx, (String.ltb x y) eqn:Hxy;
        cbn [Py.insert_sorted fst]; rewrite ?Hky, ?Hkx; try reflexivity.
      * rewrite (ltb_asym _ _ Hyx) in Hxy. discriminate.
      * rewrite (ltb_trichotomy _ _ Hxy Hyx). reflexivity.
Qed.

Lemma sorted_str_perm (l l' : list string) :
  Permutation l l' -> Py.sorted_str l = Py.sorted_str l'.
Proof.
  unfold Py.sorted_str. intros H. f_equal.
  induction H as [|x l l' _ IH|x y l|l l' l'' _ IH1 _ IH2]; cbn [map Py.sort_pairs fold_right].
  - reflexivity.
  - unfold Py.sort_pairs in IH. rewrite IH. reflexivity.
  - apply insert_sorted_comm.
  - congruence.
Qed.

(** X17. The token depends on the manifest only through its identifier,
    the checksum and size of the mezzanine, and the languages of its audio
    tracks counted with multiplicity: two manifests that agree on these
    have the same token, whatever the order of their audio tracks, their
    labels and channel layouts, their subtitles and everything else. *)
Theorem token_ignores_track_order (m m' : TranscodeManifest) (profile_version : string) :
  same_content m m' ->
  generate_idempotency_token m profile_version
  = generate_idempotency_token m' profile_version.
Proof.
  intros (Hid & Hsum & Hsize & Hperm).
  unfold generate_idempotency_token, combined, key_components.
  rewrite Hid, Hsum, Hsize, (sorted_str_perm _ _ Hperm). reflexivity.
Qed.

Lemma token_ignores_track_order_witness :
  generate_idempotency_token sample_manifest "v1.0"
  = generate_idempotency_token reordered_manifest "v1.0".
Proof.
  apply (token_ignores_track_order sample_manifest reordered_manifest "v1.0").
  repeat split; try reflexivity. apply perm_swap.
Defined.

(** ** More on the reservation table *)

(** X18. [reserve_job_slot] never overwrites or removes a record and never
    touches the record of another token, whatever the store answers: every
    record of the table is still there afterwards, and a key that gained a
    record is the token. *)
Theorem reserve_job_slot_frame (e : env) (table : gmap string json)
    (idempotency_token manifest_id output_prefix : string) :
  let table' := fst (reserve_job_slot e table idempotency_token manifest_id output_prefix) in
  (forall k item, table !! k = Some item -> table' !! k = Some item)
  /\ (forall k, k <> idempotency_token -> table' !! k = table !! k).
Proof.
  cbv zeta.
  assert (H : fst (reserve_job_slot e table idempotency_token manifest_id output_prefix)
              = table
              \/ (table !! idempotency_token = None
                  /\ fst (reserve_job_slot e table idempotency_token manifest_id output_prefix)
                     = <[idempotency_token :=
                           pending_item e idempotency_token manifest_id output_prefix]> table)).
  { unfold reserve_job_slot, put_item_if_absent.
    destruct (put_fault e) as [[]|].
    1-5: try (left; reflexivity).
    - destruct (String.eqb _ _); left; reflexivity.
    - destruct (table !! idempotency_token) eqn:E.
      + left. reflexivity.
      + right. split; reflexivity. }
  destruct H as [->|[Hnone ->]]; [tauto|]. split.
  - intros k item Hk. destruct (decide (k = idempotency_token)) as [->|Hne].
    + congruence.
    + rewrite lookup_insert_ne by congruence. exact Hk.
  - intros k Hne. apply lookup_insert_ne. congruence.
Qed.

Lemma reserve_job_slot_free (e : env) (table : gmap string json)
    (idempotency_token manifest_id output_prefix : string) :
  table !! idempotency_token = None -> put_fault e = None ->
  reserve_job_slot e table idempotency_token manifest_id output_prefix
  = (<[idempotency_token := pending_item e idempotency_token manifest_id output_prefix]> table,
     Ok reserved_result).
Proof.
  intros Hnone Hput. unfold reserve_job_slot, put_item_if_absent.
  rewrite Hput, Hnone. reflexivity.
Qed.

Lemma reserve_job_slot_taken (e : env) (table : gmap string json)
    (idempotency_token manifest_id output_prefix : string) (item : json) :
  table !! idempotency_token = Some item -> put_fault e = None ->
  reserve_job_slot e table idempotency_token manifest_id output_prefix
  = (table, Ok (taken_result (check_idempotency (get_fault e) table idempotency_token))).
Proof.
  intros Hsome Hput. unfold reserve_job_slot, put_item_if_absent.
  rewrite Hput, Hsome. reflexivity.
Qed.

(** X19. The two phases on a free token: a reservation made while the
    store answers, then [store_job_reference] while the store answers, leave
    for the token one record that [check_idempotency] returns: the pending
    record with the job identifier and the new status, the time of the
    update, and the output prefix of the second phase when one is given
    (not [None], not empty).  The manifest identifier, creation time and
    expiry stay those of the reservation: the [manifest_id] argument of
    [store_job_reference] is not written.  No other record changes. *)
Theorem two_phase_record (e e' : env) (table : gmap string json)
    (idempotency_token manifest_id output_prefix : string)
    (job_id manifest_id' status : string) (output_prefix' : option string) :
  table !! idempotency_token = None -> put_fault e = None ->
  let first := reserve_job_slot e table idempotency_token manifest_id output_prefix in
  let second :=
    store_job_reference e' None (fst first) idempotency_token job_id manifest_id' status
      output_prefix' in
  snd first = Ok reserved_result
  /\ snd second = true
  /\ check_idempotency None (fst second) idempotency_token
     = Some (completed_item e e' idempotency_token manifest_id output_prefix job_id status
               output_prefix')
  /\ (forall k, k <> idempotency_token -> fst second !! k = table !! k).
Proof.
  intros Hnone Hput. cbv zeta.
  rewrite (reserve_job_slot_free _ _ _ _ _ Hnone Hput). cbn [fst snd].
  unfold store_job_reference, update_item. rewrite lookup_insert_eq.
  unfold pending_item, completed_item.
  destruct (truthy_str output_prefix'); cbn [fst snd];
    (split; [reflexivity|]); (split; [reflexivity|]); split.
  - unfold check_idempotency, get_item. rewrite lookup_insert_eq. reflexivity.
  - intros k Hk. rewrite !lookup_insert_ne by congruence. reflexivity.
  - unfold check_idempotency, get_item. rewrite lookup_insert_eq. reflexivity.
  - intros k Hk. rewrite !lookup_insert_ne by congruence. reflexivity.
Qed.

Lemma two_phase_record_witness :
  let first := reserve_job_slot (sample_env 1705314600) ∅ "token" "aot-s01e01" "s3://out/a" in
  let second :=
    store_job_reference (sample_env 1705314700) None (fst first) "token" "job-1" "other"
      "SUBMITTED" (Some "") in
  snd first = Ok reserved_result
  /\ snd second = true
  /\ check_idempotency None (fst second) "token"
     = Some (completed_item (sample_env 1705314600) (sample_env 1705314700)
               "token" "aot-s01e01" "s3://out/a" "job-1" "SUBMITTED" (Some ""))
  /\ (forall k, k <> "token" -> fst second !! k = (∅ : gmap string json) !! k).
Proof.
  apply (two_phase_record (sample_env 1705314600) (sample_env 1705314700) ∅
           "token" "aot-s01e01" "s3://out/a" "job-1" "other" "SUBMITTED" (Some ""));
    reflexivity.
Defined.

Lemma set_all_get_other (assignments item : list (string * json)) (a : string) :
  Forall (fun kv => fst kv <> a) assignments ->
  Py.get (set_all item assignments) a = Py.get item a.
Proof.
  unfold set_all. intros H; revert item.
  induction H as [|kv l Hkv _ IH]; intros item; simpl; [reflexivity|].
  rewrite IH. apply get_setitem_ne. exact Hkv.
Qed.

Lemma set_all_get_first (k : string) (v : json) (assignments item : list (string * json)) :
  Forall (fun kv => fst kv <> k) assignments ->
  Py.get (set_all item ((k, v) :: assignments)) k = Some v.
Proof.
  intros H. unfold set_all. simpl.
  change (fold_left _ assignments ?d) with (set_all d assignments).
  rewrite (set_all_get_other _ _ _ H). apply get_setitem_eq.
Qed.

Lemma status_attribute_false (a : string) :
  status_attribute a = false ->
  "status" <> a /\ "updated_at" <> a /\ "job_id" <> a /\ "error_message" <> a.
Proof.
  unfold status_attribute. intros H.
  repeat (apply orb_false_iff in H as [H ?]).
  repeat split; intros <-; discriminate.
Qed.

(** X20. [update_job_status] on a token that has a record returns [True]
    exactly when the store answers; then the record has the new status and
    keeps every attribute other than status, updated_at, job_id and
    error_message (so its manifest identifier, creation time and expiry).
    When the store fails the table is unchanged.  The records of other
    tokens are never touched. *)
Theorem update_job_status_frame (e : env) (fault : option exn) (table : gmap string json)
    (idempotency_token status : string) (job_id error_message : option string)
    (d : list (string * json)) :
  table !! idempotency_token = Some (JDict d) ->
  let after := update_job_status e fault table idempotency_token status job_id error_message in
  (snd after = true <-> fault = None)
  /\ (snd after = false -> fst after = table)
  /\ (forall k, k <> idempotency_token -> fst after !! k = table !! k)
  /\ (snd after = true ->
      exists d',
        fst after !! idempotency_token = Some (JDict d')
        /\ Py.get d' "status" = Some (JStr status)
        /\ forall a, status_attribute a = false -> Py.get d' a = Py.get d a).
Proof.
  intros Hd. cbv zeta. unfold update_job_status, update_item.
  destruct fault as [err|]; cbn [fst snd].
  { repeat split; try discriminate; auto. }
  rewrite Hd. split; [tauto|]. split; [discriminate|]. split.
  - intros k Hk. apply lookup_insert_ne. congruence.
  - intros _. eexists. split; [apply lookup_insert_eq|]. split.
    + destruct (truthy_str job_id), (truthy_str error_message); cbn [app];
        apply set_all_get_first; repeat constructor; discriminate.
    + intros a Ha. apply status_attribute_false in Ha as (H1 & H2 & H3 & H4).
      apply set_all_get_other.
      destruct (truthy_str job_id), (truthy_str error_message); cbn [app];
        repeat constructor; assumption.
Qed.

Lemma update_job_status_frame_witness :
  let table : gmap string json :=
    {[ "token" := pending_item (sample_env 1705314600) "token" "aot-s01e01" "s3://out/a" ]} in
  let after :=
    update_job_status (sample_env 1705314700) None table "token" "ERROR" None
      (Some "Transcode failed") in
  (snd after = true <-> (None : option exn) = None)
  /\ (snd after = false -> fst after = table)
  /\ (forall k, k <> "token" -> fst after !! k = table !! k)
  /\ (snd after = true ->
      exists d',
        fst after !! "token" = Some (JDict d')
        /\ Py.get d' "status" = Some (JStr "ERROR")
        /\ forall a, status_attribute a = false ->
             Py.get d' a
             = Py.get (entries (Some (pending_item (sample_env 1705314600) "token"
                                        "aot-s01e01" "s3://out/a"))) a).
Proof.
  apply (update_job_status_frame (sample_env 1705314700) None
           {[ "token" := pending_item (sample_env 1705314600) "token" "aot-s01e01"
                           "s3://out/a" ]}
           "token" "ERROR" None (Some "Transcode failed")).
  apply lookup_singleton_eq.
Defined.

Lemma get_some_truthy (d : list (string * json)) (k : string) (v : json) :
  Py.get d k = Some v -> truthy (JDict d) = true.
Proof. destruct d; [discriminate|reflexivity]. Qed.

Lemma update_job_status_item (e : env) (table : gmap string json)
    (idempotency_token status : string) (job_id error_message : option string) :
  exists d',
    fst (update_job_status e None table idempotency_token status job_id error_message)
      !! idempotency_token = Some (JDict d')
    /\ Py.get d' "status" = Some (JStr status).
Proof.
  unfold update_job_status, update_item. cbn [fst].
  eexists. split; [apply lookup_insert_eq|].
  destruct (truthy_str job_id), (truthy_str error_message); cbn [app];
    apply set_all_get_first; repeat constructor; discriminate.
Qed.

(** X21. A record blocks every later reservation of its token, whatever its
    status: once a status has been written for a token (by
    [update_job_status] while the store answers, on a record or on none),
    [reserve_job_slot] answers [reserved: False] with that record and
    changes nothing, for any status, so also for one that reports a
    failure. *)
Theorem status_update_keeps_slot (e e' : env) (table : gmap string json)
    (idempotency_token status : string) (job_id error_message : option string)
    (manifest_id output_prefix : string) :
  put_fault e' = None -> get_fault e' = None ->
  let after := update_job_status e None table idempotency_token status job_id error_message in
  exists item,
    fst after !! idempotency_token = Some item
    /\ field "status" item = Some (JStr status)
    /\ reserve_job_slot e' (fst after) idempotency_token manifest_id output_prefix
       = (fst after, Ok (taken_result (Some item))).
Proof.
  intros Hput Hget. cbv zeta.
  destruct (update_job_status_item e table idempotency_token status job_id error_message)
    as (d' & Hitem & Hstatus).
  exists (JDict d'). split; [exact Hitem|]. split; [exact Hstatus|].
  rewrite (reserve_job_slot_taken _ _ _ _ _ _ Hitem Hput), Hget.
  unfold check_idempotency, get_item. rewrite Hitem.
  rewrite (get_some_truthy _ _ _ Hstatus). reflexivity.
Qed.

Lemma status_update_keeps_slot_witness :
  let after := update_job_status (sample_env 1705314700) None ∅ "token" "ERROR" None
                 (Some "Transcode failed") in
  exists item,
    fst after !! "token" = Some item
    /\ field "status" item = Some (JStr "ERROR")
    /\ reserve_job_slot (sample_env 1705314800) (fst after) "token" "aot-s01e01" "s3://out/a"
       = (fst after, Ok (taken_result (Some item))).
Proof.
  apply (status_update_keeps_slot (sample_env 1705314700) (sample_env 1705314800) ∅
           "token" "ERROR" None (Some "Transcode failed") "aot-s01e01" "s3://out/a");
    reflexivity.
Defined.

(** X22. [store_job_reference] on a token that was never reserved creates
    its record (the update is an upsert): the record has the job identifier
    and the status, but neither a manifest identifier nor an expiry time,
    although a manifest identifier is passed. *)
Theorem store_without_reservation (e : env) (table : gmap string json)
    (idempotency_token job_id manifest_id status : string) (output_prefix : option string) :
  table !! idempotency_token = None ->
  let after :=
    store_job_reference e None table idempotency_token job_id manifest_id status
      output_prefix in
  snd after = true
  /\ exists d,
       fst after !! idempotency_token = Some (JDict d)
       /\ Py.get d "job_id" = Some (JStr job_id)
       /\ Py.get d "status" = Some (JStr status)
       /\ Py.get d "manifest_id" = None
       /\ Py.get d "ttl" = None.
Proof.
  intros Hnone. cbv zeta. unfold store_job_reference, update_item. rewrite Hnone.
  cbn [fst snd]. split; [reflexivity|].
  eexists. split; [apply lookup_insert_eq|].
  destruct (truthy_str output_prefix); repeat split; reflexivity.
Qed.

Lemma store_without_reservation_witness :
  let after :=
    store_job_reference (sample_env 1705314700) None ∅ "token" "job-1" "aot-s01e01"
      "SUBMITTED" None in
  snd after = true
  /\ exists d,
       fst after !! "token" = Some (JDict d)
       /\ Py.get d "job_id" = Some (JStr "job-1")
       /\ Py.get d "status" = Some (JStr "SUBMITTED")
       /\ Py.get d "manifest_id" = None
       /\ Py.get d "ttl" = None.
Proof.
  apply (store_without_reservation (sample_env 1705314700) ∅ "token" "job-1" "aot-s01e01"
           "SUBMITTED" None).
  reflexivity.
Defined.

(** ** The handler *)

Lemma reserve_job_slot_cases (e : env) (table : gmap string json)
    (idempotency_token manifest_id output_prefix : string) :
  (table !! idempotency_token = None /\ put_fault e = None
   /\ reserve_job_slot e table idempotency_token manifest_id output_prefix
      = (<[idempotency_token :=
             pending_item e idempotency_token manifest_id output_prefix]> table,
         Ok reserved_result))
  \/ (exists existing,
        reserve_job_slot e table idempotency_token manifest_id output_prefix
        = (table, Ok (taken_result existing)))
  \/ (exists err,
        reserve_job_slot e table idempotency_token manifest_id output_prefix
        = (table, Raise err)).
Proof.
  unfold reserve_job_slot, put_item_if_absent.
  destruct (put_fault e) as [[msg|msg|code|msg details|msg]|] eqn:Hput.
  1-2, 4-5: right; right; eexists; reflexivity.
  - destruct (String.eqb code CONDITIONAL_CHECK_FAILED).
    + right. left. eexists. reflexivity.
    + right. right. eexists. reflexivity.
  - destruct (table !! idempotency_token) eqn:Hlook.
    + right. left. eexists. reflexivity.
    + left. repeat split; reflexivity.
Qed.

Lemma ladder_request_build (m : TranscodeManifest) (input_uri output_prefix token : string)
    (hls dash : bool) (source_width source_height : Z) (h265 : bool)
    (ladder : list ABRVariant) :
  valid_manifest m = true ->
  get_abr_ladder source_width source_height h265 = Ok ladder ->
  ladder <> [] ->
  exists spec,
    build_mediaconvert_job (mkTranscodeJobRequest m input_uri output_prefix ladder hls dash token)
    = Ok spec
    /\ map group_name (output_groups spec)
       = (if hls then [Some (JStr "HLS")] else [])
         ++ (if dash then [Some (JStr "DASH")] else []).
Proof.
  intros Hm Hl Hne.
  set (r := mkTranscodeJobRequest m input_uri output_prefix ladder hls dash token).
  destruct (ladder_valid _ _ _ _ Hl) as [Hv Hlow]. specialize (Hlow Hne).
  destruct (valid_manifest_languages _ Hm) as [Ha Hs].
  assert (Hb : is_ok (build_mediaconvert_job r) = true).
  { apply buildable_is_built. repeat split; assumption. }
  apply is_ok_true in Hb as [spec Hb]. exists spec. split; [exact Hb|].
  assert (H4 : List.filter is_h264 (abr_variants r) <> []).
  { intros E. assert (Hin : In lowest_rung (List.filter is_h264 (abr_variants r))).
    { apply List.filter_In. split; [exact Hlow|reflexivity]. }
    rewrite E in Hin. exact Hin. }
  apply build_mediaconvert_job_inv in Hb as (groups & Hg & _ & ->).
  apply build_output_groups_inv in Hg as (ghls & gdash & -> & Hh & Hd).
  unfold hls_emitted in Hh. unfold dash_emitted in Hd.
  destruct (List.filter is_h264 (abr_variants r)) as [|v4 l4] eqn:E4; [congruence|].
  rewrite andb_true_r in Hh. simpl in Hd. rewrite andb_true_r in Hd.
  subst r. cbn [output_hls output_dash] in Hh, Hd.
  rewrite map_app. f_equal.
  - destruct hls; [|subst; reflexivity].
    destruct Hh as (g & -> & Hg). apply hls_group_contents in Hg as (Hn & _).
    simpl. rewrite Hn. reflexivity.
  - destruct dash; [|subst; reflexivity].
    destruct Hd as (g & -> & Hg). apply dash_group_contents in Hg as (Hn & _).
    simpl. rewrite Hn. reflexivity.
Qed.

Lemma build_is_dict (r : TranscodeJobRequest) (spec : json) :
  build_mediaconvert_job r = Ok spec -> exists d, spec = JDict d.
Proof.
  unfold build_mediaconvert_job.
  destruct (build_output_groups r) as [groups|]; [|discriminate].
  rewrite bind_Ok. intros [= <-]. unfold job_settings_of. eauto.
Qed.

Section HandlerFacts.
Variable matches_s3_uri : string -> bool.
Variable validation_error : string -> string -> list ABRVariant -> exn.

(** The three ways in which the handler ends. *)
Lemma handler_cases (settings : config.Settings) (check_fault : option exn) (e : env)
    (table : gmap string json) (m : TranscodeManifest) (episode : EpisodeMetadata)
    (input_uri output_prefix : string) (force_reprocess : json) :
  let token := generate_idempotency_token m TRANSCODE_PROFILE_VERSION in
  let h := handler matches_s3_uri validation_error settings check_fault e table m episode
             input_uri output_prefix force_reprocess in
  (exists resp, h = (table, Ok resp) /\ is_skip resp)
  \/ (exists err, h = (table, Raise err))
  \/ (table !! token = None /\ put_fault e = None
      /\ idempotent_record check_fault table token force_reprocess = None
      /\ exists ladder spec,
           get_abr_ladder (resolution_width (mezzanine m)) (resolution_height (mezzanine m))
             (config.enable_h265 settings) = Ok ladder
           /\ request_accepted matches_s3_uri input_uri output_prefix ladder token = true
           /\ build_mediaconvert_job
                (mkTranscodeJobRequest m input_uri output_prefix ladder true
                   (config.enable_dash settings) token) = Ok spec
           /\ h = (<[token := pending_item e token (manifest_id m) output_prefix]> table,
                   Ok (configured_response settings m episode token output_prefix
                         (config.mediaconvert_queue_arn settings) ladder spec))).
Proof.
  cbv zeta. unfold handler.
  set (token := generate_idempotency_token m TRANSCODE_PROFILE_VERSION).
  destruct (idempotent_record check_fault table token force_reprocess) as [existing|] eqn:Hrec.
  { left. eexists. split; [reflexivity|]. split; reflexivity. }
  destruct (get_abr_ladder _ _ _) as [ladder|err] eqn:Hl; [|right; left; eauto].
  destruct (request_accepted matches_s3_uri input_uri output_prefix ladder token) eqn:Hacc;
    cbn [negb]; [|right; left; eauto].
  destruct (build_mediaconvert_job _) as [spec|err] eqn:Hb; [|right; left; eauto].
  destruct (reserve_job_slot_cases e table token (manifest_id m) output_prefix)
    as [(Hnone & Hput & ->)|[(existing & ->)|(err & ->)]].
  - right. right. split; [exact Hnone|]. split; [exact Hput|]. split; [reflexivity|].
    exists ladder, spec. split; [reflexivity|]. split; [exact Hacc|].
    split; [exact Hb|reflexivity].
  - left. eexists. split; [reflexivity|]. split; reflexivity.
  - right. left. eauto.
Qed.

Lemma idempotent_record_free (check_fault : option exn) (table : gmap string json)
    (token : string) (force_reprocess : json) :
  table !! token = None -> idempotent_record check_fault table token force_reprocess = None.
Proof.
  intros H. unfold idempotent_record, check_idempotency, get_item.
  destruct (truthy force_reprocess); [reflexivity|].
  destruct check_fault; [reflexivity|]. rewrite H. reflexivity.
Qed.

Lemma idempotent_record_pending (check_fault : option exn) (table : gmap string json)
    (token : string) (force_reprocess : json) (e : env) (manifest_id output_prefix : string) :
  table !! token = Some (pending_item e token manifest_id output_prefix) ->
  idempotent_record check_fault table token force_reprocess = None.
Proof.
  intros H. unfold idempotent_record, check_idempotency, get_item.
  destruct (truthy force_reprocess); [reflexivity|].
  destruct check_fault; [reflexivity|]. rewrite H. reflexivity.
Qed.

Lemma configured_response_is_job (settings : config.Settings) (m : TranscodeManifest)
    (episode : EpisodeMetadata) (token output_prefix queue_arn : string)
    (ladder : list ABRVariant) (d : list (string * json)) :
  is_job (configured_response settings m episode token output_prefix queue_arn ladder (JDict d)).
Proof.
  unfold is_job, configured_response.
  destruct (config.mock_mode settings); (split; [reflexivity|exists d; reflexivity]).
Qed.

Lemma is_skip_not_job (resp : json) : is_skip resp -> is_job resp -> False.
Proof. intros [Hs _] [Hj _]. rewrite Hs in Hj. discriminate. Qed.

(** X23. The handler changes the reservation table exactly when it returns a
    job configuration.  Either the table is as it was, and what the handler
    returns (if it returns) tells to skip and carries no job settings; or
    the token had no record, now has the pending record of this invocation
    and nothing else changed, and the handler returns job settings with
    [skip_transcode] false.  In particular an invocation that raises,
    whether on validation, on building or on the store, reserves nothing. *)
Theorem handler_table_frame (settings : config.Settings) (check_fault : option exn) (e : env)
    (table : gmap string json) (m : TranscodeManifest) (episode : EpisodeMetadata)
    (input_uri output_prefix : string) (force_reprocess : json) :
  let token := generate_idempotency_token m TRANSCODE_PROFILE_VERSION in
  let h := handler matches_s3_uri validation_error settings check_fault e table m episode
             input_uri output_prefix force_reprocess in
  (fst h = table /\ forall resp, snd h = Ok resp -> is_skip resp)
  \/ (table !! token = None
      /\ fst h = <[token := pending_item e token (manifest_id m) output_prefix]> table
      /\ exists resp, snd h = Ok resp /\ is_job resp).
Proof.
  cbv zeta.
  destruct (handler_cases settings check_fault e table m episode input_uri output_prefix
              force_reprocess)
    as [(resp & -> & Hskip)|[(err & ->)|(Hnone & _ & _ & ladder & spec & _ & _ & Hb & ->)]].
  - left. split; [reflexivity|]. intros resp' [= <-]. exact Hskip.
  - left. split; [reflexivity|]. intros resp' [=].
  - right. split; [exact Hnone|]. split; [reflexivity|].
    eexists. split; [reflexivity|].
    destruct (build_is_dict _ _ Hb) as [d ->]. apply configured_response_is_job.
Qed.

(** X24. While its token has a record, a manifest is never configured
    again: whatever the status of the record (also one that reports a
    failure), whatever [force_reprocess] says and whatever the store
    answers, the handler leaves the table as it is, and what it returns
    tells to skip and carries no job settings.  [force_reprocess] only
    bypasses the first read, not the reservation. *)
Theorem handler_never_reprocesses (settings : config.Settings) (check_fault : option exn)
    (e : env) (table : gmap string json) (m : TranscodeManifest) (episode : EpisodeMetadata)
    (input_uri output_prefix : string) (force_reprocess : json) (record : json) :
  table !! generate_idempotency_token m TRANSCODE_PROFILE_VERSION = Some record ->
  let h := handler matches_s3_uri validation_error settings check_fault e table m episode
             input_uri output_prefix force_reprocess in
  fst h = table /\ forall resp, snd h = Ok resp -> is_skip resp.
Proof.
  intros Hrec. cbv zeta.
  destruct (handler_cases settings check_fault e table m episode input_uri output_prefix
              force_reprocess)
    as [(resp & -> & Hskip)|[(err & ->)|(Hnone & _)]].
  - split; [reflexivity|]. intros resp' [= <-]. exact Hskip.
  - split; [reflexivity|]. intros resp' [=].
  - cbv zeta in Hnone. congruence.
Qed.

(** X25. The handler configures a job for every valid manifest of a source
    of at least 360 lines whose token has no record, when both locations
    match the pattern and the store answers the reservation: it returns the
    response with the job settings built for the ladder of the source, which
    has the 360-line rung; the settings have the HLS group, and the DASH
    group exactly when [enable_dash] is set; and the token has its pending
    record afterwards.  The first read and [force_reprocess] play no
    part. *)
Theorem handler_configures (settings : config.Settings) (check_fault : option exn) (e : env)
    (table : gmap string json) (m : TranscodeManifest) (episode : EpisodeMetadata)
    (input_uri output_prefix : string) (force_reprocess : json) :
  let token := generate_idempotency_token m TRANSCODE_PROFILE_VERSION in
  valid_manifest m = true ->
  360 <= resolution_height (mezzanine m) ->
  matches_s3_uri input_uri = true -> matches_s3_uri output_prefix = true ->
  table !! token = None -> put_fault e = None ->
  exists ladder spec,
    get_abr_ladder (resolution_width (mezzanine m)) (resolution_height (mezzanine m))
      (config.enable_h265 settings) = Ok ladder
    /\ In lowest_rung ladder
    /\ build_mediaconvert_job
         (mkTranscodeJobRequest m input_uri output_prefix ladder true
            (config.enable_dash settings) token) = Ok spec
    /\ map group_name (output_groups spec)
       = Some (JStr "HLS")
         :: (if config.enable_dash settings then [Some (JStr "DASH")] else [])
    /\ handler matches_s3_uri validation_error settings check_fault e table m episode
         input_uri output_prefix force_reprocess
       = (<[token := pending_item e token (manifest_id m) output_prefix]> table,
          Ok (configured_response settings m episode token output_prefix
                (config.mediaconvert_queue_arn settings) ladder spec)).
Proof.
  cbv zeta. intros Hm Hh Hin Hout Hnone Hput.
  set (token := generate_idempotency_token m TRANSCODE_PROFILE_VERSION) in *.
  destruct (ladder_emptiness (resolution_width (mezzanine m)) (resolution_height (mezzanine m))
              (config.enable_h265 settings)) as [_ Hlad].
  destruct (Hlad Hh) as (ladder & Hl & Hlow).
  assert (Hne : ladder <> []) by (intros ->; exact Hlow).
  destruct (ladder_request_build m input_uri output_prefix token true
              (config.enable_dash settings) _ _ _ ladder Hm Hl Hne) as (spec & Hb & Hgroups).
  exists ladder, spec. repeat (split; [assumption|]).
  unfold handler. fold token.
  rewrite (idempotent_record_free _ _ _ _ Hnone), Hl.
  assert (Hacc : request_accepted matches_s3_uri input_uri output_prefix ladder token = true).
  { unfold request_accepted. rewrite Hin, Hout.
    unfold token, generate_idempotency_token, Sha256.hexdigest.
    rewrite (proj1 (hex_shape _)).
    destruct ladder; [contradiction|reflexivity]. }
  rewrite Hacc. cbn [negb]. rewrite Hb.
  rewrite (reserve_job_slot_free _ _ _ _ _ Hnone Hput). reflexivity.
Qed.

(** X26. A source of fewer than 360 lines is never configured: its ladder
    is empty, which [TranscodeJobRequest] rejects.  For such a manifest the
    handler answers on a record with one of the three statuses as for any
    other manifest, and otherwise raises the validation error, with the
    table unchanged.  (The manifest model admits sources from 240 lines
    on.) *)
Theorem handler_low_source (settings : config.Settings) (check_fault : option exn) (e : env)
    (table : gmap string json) (m : TranscodeManifest) (episode : EpisodeMetadata)
    (input_uri output_prefix : string) (force_reprocess : json) :
  let token := generate_idempotency_token m TRANSCODE_PROFILE_VERSION in
  resolution_height (mezzanine m) < 360 ->
  handler matches_s3_uri validation_error settings check_fault e table m episode
    input_uri output_prefix force_reprocess
  = match idempotent_record check_fault table token force_reprocess with
    | Some existing_job =>
        (table, Ok (skipped_response (existing_summary existing_job) m token))
    | None => (table, Raise (validation_error input_uri output_prefix []))
    end.
Proof.
  cbv zeta. intros Hh. unfold handler.
  destruct (idempotent_record _ _ _ _); [reflexivity|].
  destruct (ladder_emptiness (resolution_width (mezzanine m)) (resolution_height (mezzanine m))
              (config.enable_h265 settings)) as [Hemp _].
  rewrite (proj2 Hemp Hh). unfold request_accepted.
  destruct (matches_s3_uri input_uri), (matches_s3_uri output_prefix); reflexivity.
Qed.

(** X27. A manifest is configured once: after an invocation that returned
    job settings, every further invocation for the same manifest, settings
    and locations, made while the store answers, returns the skip response
    with the pending record of the first invocation as existing job, and
    leaves the table as it is, whatever [force_reprocess] says.  (The
    pending status is none of the three of the first read, so the second
    invocation builds the job again before it learns that the slot is
    taken.) *)
Theorem handler_second_invocation (settings : config.Settings)
    (check_fault check_fault' : option exn) (e e' : env)
    (table : gmap string json) (m : TranscodeManifest) (episode : EpisodeMetadata)
    (input_uri output_prefix : string) (force_reprocess force_reprocess' : json) :
  let token := generate_idempotency_token m TRANSCODE_PROFILE_VERSION in
  let first := handler matches_s3_uri validation_error settings check_fault e table m episode
                 input_uri output_prefix force_reprocess in
  (exists resp, snd first = Ok resp /\ is_job resp) ->
  put_fault e' = None -> get_fault e' = None ->
  handler matches_s3_uri validation_error settings check_fault' e' (fst first) m episode
    input_uri output_prefix force_reprocess'
  = (fst first,
     Ok (skipped_response (pending_item e token (manifest_id m) output_prefix) m token)).
Proof.
  cbv zeta. intros (resp1 & Hresp & Hjob) Hput Hget.
  destruct (handler_cases settings check_fault e table m episode input_uri output_prefix
              force_reprocess)
    as [(resp & Hh & Hskip)|[(err & Hh)|(Hnone & _ & _ & ladder & spec & Hl & Hacc & Hb & Hh)]];
    rewrite Hh in Hresp |- *; cbn [fst snd] in *.
  - injection Hresp as <-. destruct (is_skip_not_job _ Hskip Hjob).
  - discriminate.
  - set (token := generate_idempotency_token m TRANSCODE_PROFILE_VERSION) in *.
    set (item := pending_item e token (manifest_id m) output_prefix) in *.
    assert (Hitem : <[token := item]> table !! token = Some item) by apply lookup_insert_eq.
    unfold handler. fold token.
    rewrite (idempotent_record_pending _ _ _ _ _ _ _ Hitem), Hl, Hacc. cbn [negb].
    rewrite Hb.
    rewrite (reserve_job_slot_taken _ _ _ _ _ _ Hitem Hput), Hget.
    unfold check_idempotency, get_item. rewrite Hitem. reflexivity.
Qed.
End HandlerFacts.

Lemma handler_never_reprocesses_witness :
  let table : gmap string json :=
    {[ generate_idempotency_token sample_manifest TRANSCODE_PROFILE_VERSION
       := failed_record ]} in
  let h := handler s3_uri_pattern sample_validation_error sample_settings None
             (sample_env 1705314600) table sample_manifest sample_episode
             "s3://input-bucket/mezzanines/test.mxf" "s3://output-bucket/series/s01/e01"
             (JBool true) in
  fst h = table /\ forall resp, snd h = Ok resp -> is_skip resp.
Proof.
  apply (handler_never_reprocesses s3_uri_pattern sample_validation_error sample_settings
           None (sample_env 1705314600)
           {[ generate_idempotency_token sample_manifest TRANSCODE_PROFILE_VERSION
              := failed_record ]}
           sample_manifest sample_episode
           "s3://input-bucket/mezzanines/test.mxf" "s3://output-bucket/series/s01/e01"
           (JBool true) failed_record).
  apply lookup_singleton_eq.
Defined.

Lemma handler_configures_witness :
  exists ladder spec,
    get_abr_ladder 1920 1080 true = Ok ladder
    /\ In lowest_rung ladder
    /\ build_mediaconvert_job
         (mkTranscodeJobRequest sample_manifest
            "s3://input-bucket/mezzanines/test.mxf" "s3://output-bucket/series/s01/e01"
            ladder true true
            (generate_idempotency_token sample_manifest TRANSCODE_PROFILE_VERSION)) = Ok spec
    /\ map group_name (output_groups spec) = [Some (JStr "HLS"); Some (JStr "DASH")]
    /\ handler s3_uri_pattern sample_validation_error sample_settings None
         (sample_env 1705314600) ∅ sample_manifest sample_episode
         "s3://input-bucket/mezzanines/test.mxf" "s3://output-bucket/series/s01/e01"
         (JBool false)
       = (<[generate_idempotency_token sample_manifest TRANSCODE_PROFILE_VERSION
              := pending_item (sample_env 1705314600)
                   (generate_idempotency_token sample_manifest TRANSCODE_PROFILE_VERSION)
                   (manifest_id sample_manifest) "s3://output-bucket/series/s01/e01"]> ∅,
          Ok (configured_response sample_settings sample_manifest sample_episode
                (generate_idempotency_token sample_manifest TRANSCODE_PROFILE_VERSION)
                "s3://output-bucket/series/s01/e01"
                (config.mediaconvert_queue_arn sample_settings) ladder spec)).
Proof.
  apply (handler_configures s3_uri_pattern sample_validation_error sample_settings None
           (sample_env 1705314600) ∅ sample_manifest sample_episode
           "s3://input-bucket/mezzanines/test.mxf" "s3://output-bucket/series/s01/e01"
           (JBool false)).
  - vm_compute. reflexivity.
  - simpl. lia.
  - vm_compute. reflexivity.
  - vm_compute. reflexivity.
  - apply lookup_empty.
  - reflexivity.
Defined.

Lemma handler_low_source_witness :
  handler s3_uri_pattern sample_validation_error sample_settings None
    (sample_env 1705314600) ∅ low_manifest sample_episode
    "s3://input-bucket/mezzanines/test.mxf" "s3://output-bucket/series/s01/e01" (JBool false)
  = match idempotent_record None ∅
            (generate_idempotency_token low_manifest TRANSCODE_PROFILE_VERSION)
            (JBool false) with
    | Some existing_job =>
        (∅, Ok (skipped_response (existing_summary existing_job) low_manifest
                  (generate_idempotency_token low_manifest TRANSCODE_PROFILE_VERSION)))
    | None =>
        (∅, Raise (sample_validation_error "s3://input-bucket/mezzanines/test.mxf"
                     "s3://output-bucket/series/s01/e01" []))
    end.
Proof.
  apply (handler_low_source s3_uri_pattern sample_validation_error sample_settings None
           (sample_env 1705314600) ∅ low_manifest sample_episode
           "s3://input-bucket/mezzanines/test.mxf" "s3://output-bucket/series/s01/e01"
           (JBool false)).
  simpl. lia.
Defined.

Lemma handler_second_invocation_witness :
  let token := generate_idempotency_token sample_manifest TRANSCODE_PROFILE_VERSION in
  let first := handler s3_uri_pattern sample_validation_error sample_settings None
                 (sample_env 1705314600) ∅ sample_manifest sample_episode
                 "s3://input-bucket/mezzanines/test.mxf" "s3://output-bucket/series/s01/e01"
                 (JBool false) in
  handler s3_uri_pattern sample_validation_error sample_settings None
    (sample_env 1705314700) (fst first) sample_manifest sample_episode
    "s3://input-bucket/mezzanines/test.mxf" "s3://output-bucket/series/s01/e01" (JBool true)
  = (fst first,
     Ok (skipped_response
           (pending_item (sample_env 1705314600) token (manifest_id sample_manifest)
              "s3://output-bucket/series/s01/e01")
           sample_manifest token)).
Proof.
  apply (handler_second_invocation s3_uri_pattern sample_validation_error sample_settings
           None None (sample_env 1705314600) (sample_env 1705314700) ∅ sample_manifest
           sample_episode
           "s3://input-bucket/mezzanines/test.mxf" "s3://output-bucket/series/s01/e01"
           (JBool false) (JBool true)).
  - eexists. split; [vm_compute; reflexivity|].
    split; [reflexivity|]. eexists. reflexivity.
  - reflexivity.
  - reflexivity.
Defined.

(** ** The audio renditions *)

Lemma audio_description_details (t : AudioTrack) (d : json) :
  audio_description t = Ok d ->
  field "AudioSourceName" d = Some (JStr ("Audio_" +:+ a_language t))
  /\ field "StreamName" d = Some (JStr (a_label t))
  /\ coding_mode d
     = Some (JStr (if a_channels t <=? 2 then "CODING_MODE_2_0" else "CODING_MODE_5_1")).
Proof.
  unfold audio_description.
  destruct (_get_iso_639_2_code (a_language t)); [|discriminate].
  rewrite bind_Ok. intros [= <-]. repeat split; reflexivity.
Qed.

Lemma hls_audio_output_details r t o :
  _build_hls_audio_output r t = Ok o -> audio_rendition_of t o.
Proof.
  unfold _build_hls_audio_output.
  destruct (audio_description t) as [d|] eqn:E; [|discriminate].
  rewrite bind_Ok. intros [= <-].
  apply audio_description_details in E as (Hs & Hn & Hc).
  unfold audio_rendition_of, audio_sources. cbn [field Py.get String.eqb Ascii.eqb Bool.eqb items map].
  rewrite Hs, Hn, Hc. repeat split; reflexivity.
Qed.

Lemma dash_audio_output_details r t o :
  _build_dash_audio_output r t = Ok o -> audio_rendition_of t o.
Proof.
  unfold _build_dash_audio_output.
  destruct (audio_description t) as [d|] eqn:E; [|discriminate].
  rewrite bind_Ok. intros [= <-].
  apply audio_description_details in E as (Hs & Hn & Hc).
  unfold audio_rendition_of, audio_sources. cbn [field Py.get String.eqb Ascii.eqb Bool.eqb items map].
  rewrite Hs, Hn, Hc. repeat split; reflexivity.
Qed.

Lemma hls_audio_renditions r vs g :
  _build_hls_output_group r vs = Ok g ->
  mapM (_build_hls_audio_output r) (audio_tracks (manifest r)) = Ok (audio_renditions g).
Proof.
  intros H. apply hls_group_outputs in H
    as (video & audio & captions & Hv & Ha & Hc & _ & Hout).
  assert (Fv : Forall is_video video).
  { eapply (mapM_Forall _ is_video); [|exact Hv].
    intros v o _ Hvo. eapply hls_video_output_shape; exact Hvo. }
  assert (Fa : Forall is_audio audio).
  { eapply (mapM_Forall _ is_audio); [|exact Ha].
    intros t o _ Hto. eapply hls_audio_output_shape; exact Hto. }
  assert (Fc : Forall is_caption captions).
  { eapply (mapM_Forall _ is_caption); [|exact Hc].
    intros t o _ Hto. eapply hls_caption_output_shape; exact Hto. }
  destruct (outputs_partition video audio captions Fv Fa Fc) as (_ & Pa & _).
  unfold audio_renditions. rewrite Hout, Pa. exact Ha.
Qed.

Lemma dash_audio_renditions r vs g :
  _build_dash_output_group r vs = Ok g ->
  mapM (_build_dash_audio_output r) (audio_tracks (manifest r)) = Ok (audio_renditions g).
Proof.
  intros H. apply dash_group_outputs in H as (video & audio & Hv & Ha & _ & Hout).
  assert (Fv : Forall is_video video).
  { eapply (mapM_Forall _ is_video); [|exact Hv].
    intros v o _ Hvo. eapply dash_video_output_shape; exact Hvo. }
  assert (Fa : Forall is_audio audio).
  { eapply (mapM_Forall _ is_audio); [|exact Ha].
    intros t o _ Hto. eapply dash_audio_output_shape; exact Hto. }
  destruct (outputs_partition video audio [] Fv Fa (List.Forall_nil _)) as (_ & Pa & _).
  rewrite app_nil_r in Pa. unfold audio_renditions. rewrite Hout, Pa. exact Ha.
Qed.

Lemma built_audio_renditions r spec g :
  build_mediaconvert_job r = Ok spec -> In g (output_groups spec) ->
  Forall2 audio_rendition_of (audio_tracks (manifest r)) (audio_renditions g).
Proof.
  intros Hb Hg.
  destruct (output_group_cases r spec g Hb Hg) as [[_ Hh]|[_ Hd]].
  - apply hls_audio_renditions, mapM_Ok_inv in Hh.
    eapply Forall2_impl; [exact Hh|].
    intros t o Hto. eapply hls_audio_output_details; exact Hto.
  - apply dash_audio_renditions, mapM_Ok_inv in Hd.
    eapply Forall2_impl; [exact Hd|].
    intros t o Hto. eapply dash_audio_output_details; exact Hto.
Qed.

Lemma audio_rendition_names (tracks : list AudioTrack) (os : list json) :
  Forall2 audio_rendition_of tracks os ->
  rendition_names os
  = map (fun s => Some (JStr ("_audio_" +:+ s))) (map a_language tracks).
Proof.
  induction 1 as [|t o tracks os (Hn & _) _ IH]; [reflexivity|].
  unfold rendition_names in *. cbn [map]. rewrite Hn, IH. reflexivity.
Qed.

(** X28. In every group of a built specification the audio renditions are
    those of the audio tracks, one each and in their order: the rendition
    of a track is named [_audio_<language>], reads the selector
    [Audio_<language>], carries the track's label as stream name, and is
    coded as 2.0 when the track has at most two channels and as 5.1
    otherwise.  So the names of the audio renditions of a group are
    pairwise distinct exactly when the languages of the tracks are. *)
Theorem audio_rendition_details (r : TranscodeJobRequest) (spec g : json) :
  build_mediaconvert_job r = Ok spec -> In g (output_groups spec) ->
  Forall2 audio_rendition_of (audio_tracks (manifest r)) (audio_renditions g)
  /\ (List.NoDup (rendition_names (audio_renditions g))
      <-> List.NoDup (map a_language (audio_tracks (manifest r)))).
Proof.
  intros Hb Hg. pose proof (built_audio_renditions r spec g Hb Hg) as HF.
  split; [exact HF|]. rewrite (audio_rendition_names _ _ HF). split.
  - apply List.NoDup_map_inv.
  - generalize (map a_language (audio_tracks (manifest r))). intros l Hl.
    induction Hl as [|a l Ha _ IH]; cbn [map]; constructor; [|exact IH].
    intros Hin. apply Ha. apply in_map_iff in Hin as (b & [= Hb'] & Hin).
    apply append_inj_l in Hb'. rewrite <- Hb'. exact Hin.
Qed.

Lemma audio_rendition_details_witness :
  Forall2 audio_rendition_of (audio_tracks (manifest sample_request))
    (audio_renditions sample_hls_group)
  /\ (List.NoDup (rendition_names (audio_renditions sample_hls_group))
      <-> List.NoDup (map a_language (audio_tracks (manifest sample_request)))).
Proof.
  apply (audio_rendition_details sample_request sample_spec sample_hls_group).
  - vm_compute. reflexivity.
  - vm_compute. left. reflexivity.
Defined.

(** ** The string that is hashed *)

(** X29. Changing the checksum of the mezzanine, or the profile version,
    always changes the string that is hashed for the token: the fields are
    joined so that neither change can be hidden by the others.  (Two such
    calls can so return one token only if two different strings have one
    SHA-256 digest.) *)
Theorem hashed_string_changes (m : TranscodeManifest) (pv : string) :
  (forall c, c <> checksum_md5 (mezzanine m) ->
     combined (with_checksum_md5 m c) pv <> combined m pv)
  /\ (forall pv', pv' <> pv -> combined m pv' <> combined m pv).
Proof.
  split.
  - intros c Hc H. apply Hc. eapply combined_checksum_inj; exact H.
  - intros pv' Hpv H. apply Hpv. eapply combined_profile_version_inj; exact H.
Qed.

Lemma hashed_string_changes_witness :
  combined (with_checksum_md5 sample_manifest "0cc175b9c0f1b6a831c399e269772661") "v1.0"
  <> combined sample_manifest "v1.0"
  /\ combined sample_manifest "v1.1" <> combined sample_manifest "v1.0".
Proof.
  destruct (hashed_string_changes sample_manifest "v1.0") as [Hc Hv].
  split; [apply Hc|apply Hv]; discriminate.
Defined.
